(** * CanvasDrawer: a shallow embedding of the nozzle drawing engine

    The engine is the JavaScript class [CanvasDrawer] (canvasDrawer.js).  It
    paints on an HTML canvas in response to [startDrawing], [draw] and
    [stopDrawing], keeps a history of strokes and, in brush mode, a ring
    buffer of the last segment lengths.

    Conventions of the embedding.
    - JavaScript numbers are read as exact real numbers ([R]); numbers that
      the program only ever uses as integers (canvas dimensions, the grid
      step, loop counters, [Date.now()] milliseconds) are [Z] or [nat].
      Rounding of IEEE doubles is therefore outside the model.
    - The object's fields are a record that every method takes and returns.
      A method that can raise returns a [Completion], which carries the
      fields as they are when the exception leaves the method: JavaScript
      does not roll anything back.
    - The canvas is its 2D context: the drawing state, the current path and a
      display list of what has been painted since the last full clear.
    - [Date.now()] and [document] are inputs of the methods that read them.
    - [console.log] and [console.warn] are not modelled. *)

From Stdlib Require Import Reals Lra Lia ZArith String.
From stdpp Require Import base list gmap strings.

Open Scope R_scope.

(** Comparisons of numbers, as the program's [if]s and loop tests use them. *)
#[global] Instance Rle_decision (x y : R) : Decision (x <= y) := Rle_dec x y.
#[global] Instance Rlt_decision (x y : R) : Decision (x < y) := Rlt_dec x y.

(** ** Values of the host environment *)

(** The DOM elements the engine can meet, by the interface they implement. *)
Inductive Element : Type :=
| HTMLCanvasElement (width height : Z)
| HTMLImageElement (src : string)
| OtherElement (tagName : string).

(** Exceptions: [Error] is the engine's own [throw new Error(msg)]; the others
    are raised by the runtime and by the canvas API. *)
Inductive exn : Type :=
| Error (message : string)
| TypeError
| InvalidStateError
| IndexSizeError.

Record Point : Type := mkPoint { px : R; py : R }.

(** One entry of a stroke: [{ x, y, t }]. *)
Record Sample : Type := mkSample { sx : R; sy : R; st : Z }.

Definition origin : Point := mkPoint 0 0.

(** ** The 2D rendering context *)

Inductive PathCmd : Type :=
| MoveTo (x y : R)
| LineTo (x y : R)
| Ellipse (x y radiusX radiusY rotation startAngle endAngle : R).

(** What [stroke()] and [drawImage()] leave on the bitmap. *)
Inductive Paint : Type :=
| Stroked (style : string) (width : R) (cap join flt : string)
          (segments : list PathCmd)
| Stamped (image : Element) (dx dy dw dh : R) (flt : string)
| Erased (x y w h : R).

Record Context : Type := mkContext {
  strokeStyle : string;
  lineWidth : R;
  lineCap : string;
  lineJoin : string;
  filter : string;
  path : list PathCmd;
  bitmap : list Paint
}.

(** The context of a canvas nobody has drawn on. *)
Definition blank_context : Context :=
  mkContext "#000000" 1 "butt" "miter" "none" [] [].

Definition set_strokeStyle (v : string) (c : Context) : Context :=
  mkContext v (lineWidth c) (lineCap c) (lineJoin c) (filter c) (path c)
            (bitmap c).

Definition set_lineWidth (v : R) (c : Context) : Context :=
  mkContext (strokeStyle c) v (lineCap c) (lineJoin c) (filter c) (path c)
            (bitmap c).

Definition set_lineCap (v : string) (c : Context) : Context :=
  mkContext (strokeStyle c) (lineWidth c) v (lineJoin c) (filter c) (path c)
            (bitmap c).

Definition set_lineJoin (v : string) (c : Context) : Context :=
  mkContext (strokeStyle c) (lineWidth c) (lineCap c) v (filter c) (path c)
            (bitmap c).

Definition set_filter (v : string) (c : Context) : Context :=
  mkContext (strokeStyle c) (lineWidth c) (lineCap c) (lineJoin c) v (path c)
            (bitmap c).

Definition set_path (v : list PathCmd) (c : Context) : Context :=
  mkContext (strokeStyle c) (lineWidth c) (lineCap c) (lineJoin c) (filter c)
            v (bitmap c).

Definition set_bitmap (v : list Paint) (c : Context) : Context :=
  mkContext (strokeStyle c) (lineWidth c) (lineCap c) (lineJoin c) (filter c)
            (path c) v.

Definition beginPath (c : Context) : Context := set_path [] c.

Definition moveTo (x y : R) (c : Context) : Context :=
  set_path (path c ++ [MoveTo x y]) c.

Definition lineTo (x y : R) (c : Context) : Context :=
  set_path (path c ++ [LineTo x y]) c.

(** [ellipse] raises IndexSizeError on a negative radius. *)
Definition ellipse (x y rx ry rot a0 a1 : R) (c : Context) : exn + Context :=
  if bool_decide (rx < 0) || bool_decide (ry < 0) then inl IndexSizeError
  else inr (set_path (path c ++ [Ellipse x y rx ry rot a0 a1]) c).

Definition stroke (c : Context) : Context :=
  set_bitmap
    (bitmap c ++
       [Stroked (strokeStyle c) (lineWidth c) (lineCap c) (lineJoin c)
                (filter c) (path c)]) c.

(** [clearRect(x, y, w, h)] on a canvas of [cw] by [ch] pixels.  A rectangle
    that covers the canvas leaves a blank bitmap; any other one is kept as an
    erasure on top of what was painted. *)
Definition covers (cw ch : Z) (x y w h : R) : bool :=
  bool_decide (x <= 0) && bool_decide (y <= 0) &&
  bool_decide (IZR cw <= x + w) && bool_decide (IZR ch <= y + h).

Definition clearRect (cw ch : Z) (x y w h : R) (c : Context) : Context :=
  if covers cw ch x y w h then set_bitmap [] c
  else set_bitmap (bitmap c ++ [Erased x y w h]) c.

(** [drawImage(image, dx, dy, dw, dh)].  The first argument must be an image
    source: [null] and elements of another interface are refused with a
    TypeError before anything is painted, and a canvas source without area
    with an InvalidStateError. *)
Definition drawImage (image : option Element) (dx dy dw dh : R) (c : Context)
  : exn + Context :=
  match image with
  | Some (HTMLImageElement src) =>
      inr (set_bitmap
             (bitmap c ++ [Stamped (HTMLImageElement src) dx dy dw dh (filter c)])
             c)
  | Some (HTMLCanvasElement w h) =>
      if (w =? 0)%Z || (h =? 0)%Z then inl InvalidStateError
      else inr (set_bitmap
                  (bitmap c ++
                     [Stamped (HTMLCanvasElement w h) dx dy dw dh (filter c)])
                  c)
  | Some (OtherElement _) => inl TypeError
  | None => inl TypeError
  end.

(** [document.getElementById(id)]: the argument is converted to a string, so
    [null] looks up the id ["null"]. *)
Definition getElementById (document : gmap string Element) (id : option string)
  : option Element :=
  match id with
  | Some i => document !! i
  | None => document !! "null"
  end.

(** ** The engine's fields *)

Record CanvasDrawer : Type := mkCanvasDrawer {
  canvas_width : Z;                      (* this.canvas.width *)
  canvas_height : Z;                     (* this.canvas.height *)
  ctx : Context;
  canvasHistory : list (list Sample);
  brushMode : bool;
  showGrid : bool;
  gridSize : Z;
  isDrawing : bool;
  lastT : Z;
  lastX : R;
  lastY : R;
  imageId : option string;
  bufferSize : nat;
  distanceBuffer : list R;
  pointBuffer : list Point;
  bufferIndex : nat;
  circlesPerPixel : R
}.

Definition set_ctx (v : Context) (s : CanvasDrawer) : CanvasDrawer :=
  mkCanvasDrawer (canvas_width s) (canvas_height s) v (canvasHistory s)
    (brushMode s) (showGrid s) (gridSize s) (isDrawing s) (lastT s) (lastX s)
    (lastY s) (imageId s) (bufferSize s) (distanceBuffer s) (pointBuffer s)
    (bufferIndex s) (circlesPerPixel s).

Definition set_canvasHistory (v : list (list Sample)) (s : CanvasDrawer)
  : CanvasDrawer :=
  mkCanvasDrawer (canvas_width s) (canvas_height s) (ctx s) v
    (brushMode s) (showGrid s) (gridSize s) (isDrawing s) (lastT s) (lastX s)
    (lastY s) (imageId s) (bufferSize s) (distanceBuffer s) (pointBuffer s)
    (bufferIndex s) (circlesPerPixel s).

Definition set_brushMode (v : bool) (s : CanvasDrawer) : CanvasDrawer :=
  mkCanvasDrawer (canvas_width s) (canvas_height s) (ctx s) (canvasHistory s)
    v (showGrid s) (gridSize s) (isDrawing s) (lastT s) (lastX s)
    (lastY s) (imageId s) (bufferSize s) (distanceBuffer s) (pointBuffer s)
    (bufferIndex s) (circlesPerPixel s).

Definition set_showGrid (v : bool) (s : CanvasDrawer) : CanvasDrawer :=
  mkCanvasDrawer (canvas_width s) (canvas_height s) (ctx s) (canvasHistory s)
    (brushMode s) v (gridSize s) (isDrawing s) (lastT s) (lastX s)
    (lastY s) (imageId s) (bufferSize s) (distanceBuffer s) (pointBuffer s)
    (bufferIndex s) (circlesPerPixel s).

Definition set_isDrawing (v : bool) (s : CanvasDrawer) : CanvasDrawer :=
  mkCanvasDrawer (canvas_width s) (canvas_height s) (ctx s) (canvasHistory s)
    (brushMode s) (showGrid s) (gridSize s) v (lastT s) (lastX s)
    (lastY s) (imageId s) (bufferSize s) (distanceBuffer s) (pointBuffer s)
    (bufferIndex s) (circlesPerPixel s).

Definition set_lastT (v : Z) (s : CanvasDrawer) : CanvasDrawer :=
  mkCanvasDrawer (canvas_width s) (canvas_height s) (ctx s) (canvasHistory s)
    (brushMode s) (showGrid s) (gridSize s) (isDrawing s) v (lastX s)
    (lastY s) (imageId s) (bufferSize s) (distanceBuffer s) (pointBuffer s)
    (bufferIndex s) (circlesPerPixel s).

(** [[this.lastX, this.lastY] = [x, y]] *)
Definition set_last (x y : R) (s : CanvasDrawer) : CanvasDrawer :=
  mkCanvasDrawer (canvas_width s) (canvas_height s) (ctx s) (canvasHistory s)
    (brushMode s) (showGrid s) (gridSize s) (isDrawing s) (lastT s) x
    y (imageId s) (bufferSize s) (distanceBuffer s) (pointBuffer s)
    (bufferIndex s) (circlesPerPixel s).

Definition set_imageId (v : option string) (s : CanvasDrawer) : CanvasDrawer :=
  mkCanvasDrawer (canvas_width s) (canvas_height s) (ctx s) (canvasHistory s)
    (brushMode s) (showGrid s) (gridSize s) (isDrawing s) (lastT s) (lastX s)
    (lastY s) v (bufferSize s) (distanceBuffer s) (pointBuffer s)
    (bufferIndex s) (circlesPerPixel s).

Definition set_distanceBuffer (v : list R) (s : CanvasDrawer) : CanvasDrawer :=
  mkCanvasDrawer (canvas_width s) (canvas_height s) (ctx s) (canvasHistory s)
    (brushMode s) (showGrid s) (gridSize s) (isDrawing s) (lastT s) (lastX s)
    (lastY s) (imageId s) (bufferSize s) v (pointBuffer s)
    (bufferIndex s) (circlesPerPixel s).

Definition set_pointBuffer (v : list Point) (s : CanvasDrawer) : CanvasDrawer :=
  mkCanvasDrawer (canvas_width s) (canvas_height s) (ctx s) (canvasHistory s)
    (brushMode s) (showGrid s) (gridSize s) (isDrawing s) (lastT s) (lastX s)
    (lastY s) (imageId s) (bufferSize s) (distanceBuffer s) v
    (bufferIndex s) (circlesPerPixel s).

Definition set_bufferIndex (v : nat) (s : CanvasDrawer) : CanvasDrawer :=
  mkCanvasDrawer (canvas_width s) (canvas_height s) (ctx s) (canvasHistory s)
    (brushMode s) (showGrid s) (gridSize s) (isDrawing s) (lastT s) (lastX s)
    (lastY s) (imageId s) (bufferSize s) (distanceBuffer s) (pointBuffer s)
    v (circlesPerPixel s).

(** How a call of a method that may raise ends, with the fields it leaves. *)
Inductive Completion : Type :=
| Returned (s : CanvasDrawer)
| Threw (e : exn) (s : CanvasDrawer).

Definition fields (c : Completion) : CanvasDrawer :=
  match c with Returned s => s | Threw _ s => s end.

Definition and_then (c : Completion) (k : CanvasDrawer -> Completion)
  : Completion :=
  match c with
  | Returned s => k s
  | Threw e s => Threw e s
  end.

(** A call on the context that may raise, made on [this.ctx]. *)
Definition on_ctx (f : Context -> exn + Context) (s : CanvasDrawer)
  : Completion :=
  match f (ctx s) with
  | inr c => Returned (set_ctx c s)
  | inl e => Threw e s
  end.

(** [for (const i of l) body(i)], left when an iteration raises. *)
Fixpoint for_each {A : Type} (l : list A)
    (body : A -> CanvasDrawer -> Completion) (s : CanvasDrawer) : Completion :=
  match l with
  | [] => Returned s
  | i :: l' => and_then (body i s) (for_each l' body)
  end.

(** [for (let x = from; x < limit; x += step) c = body(x, c)].  The loop is
    run for at most [fuel] iterations; [for_lt_unfold] below shows that
    [Z.to_nat (limit - from)] of them are enough as soon as [step] is
    positive. *)
Fixpoint for_lt_fuel (fuel : nat) (x limit step : Z)
    (body : Z -> Context -> Context) (c : Context) : Context :=
  match fuel with
  | O => c
  | S fuel' =>
      if (x <? limit)%Z
      then for_lt_fuel fuel' (x + step) limit step body (body x c)
      else c
  end.

Definition for_lt (from limit step : Z) (body : Z -> Context -> Context)
    (c : Context) : Context :=
  for_lt_fuel (Z.to_nat (limit - from)) from limit step body c.

(** ** The methods of [CanvasDrawer] *)

Definition _drawGrid (s : CanvasDrawer) : CanvasDrawer :=
  let c := set_lineWidth (1 / 2) (set_strokeStyle "#ddd" (ctx s)) in
  (* vertical lines *)
  let c :=
    for_lt 0 (canvas_width s) (gridSize s)
      (fun x c =>
         stroke (lineTo (IZR x) (IZR (canvas_height s))
                   (moveTo (IZR x) 0 (beginPath c)))) c in
  (* horizontal lines *)
  let c :=
    for_lt 0 (canvas_height s) (gridSize s)
      (fun y c =>
         stroke (lineTo (IZR (canvas_width s)) (IZR y)
                   (moveTo 0 (IZR y) (beginPath c)))) c in
  (* reset stroke style *)
  set_ctx (set_lineWidth 2 (set_strokeStyle "#fff" c)) s.

Definition _init (s : CanvasDrawer) : CanvasDrawer :=
  let c :=
    set_lineJoin "round"
      (set_lineCap "round" (set_lineWidth 2 (set_strokeStyle "#fff" (ctx s)))) in
  let s := set_ctx c s in
  if showGrid s then _drawGrid s else s.

(** The assignments of the constructor's body, before [_init] is called. *)
Definition initial_fields (w h : Z) (c : Context) : CanvasDrawer :=
  {| canvas_width := w; canvas_height := h; ctx := c;
     canvasHistory := [];
     brushMode := false;
     showGrid := true;
     gridSize := 20;
     isDrawing := false;
     lastT := 0;
     lastX := 0;
     lastY := 0;
     imageId := None;
     bufferSize := 20;
     distanceBuffer := replicate 20 0;
     pointBuffer := replicate 20 (mkPoint 0 0);
     bufferIndex := 0;
     circlesPerPixel := 1 / 10 |}.

(** [new CanvasDrawer(canvas)].  [context2d] is what
    [canvas.getContext('2d')] answers: the canvas's context, or [null] when
    the canvas already serves another kind of context, in which case the
    first assignment of [_init] raises. *)
Definition new_CanvasDrawer (canvas : option Element)
    (context2d : option Context) : exn + CanvasDrawer :=
  match canvas with
  | Some (HTMLCanvasElement w h) =>
      match context2d with
      | Some c => inr (_init (initial_fields w h c))
      | None => inl TypeError
      end
  | _ => inl (Error "Invalid canvas element provided.")
  end.

Definition _drawLine (x y : R) (s : CanvasDrawer) : CanvasDrawer :=
  set_ctx
    (stroke (lineTo x y (moveTo (lastX s) (lastY s) (beginPath (ctx s))))) s.

(** *** The smoothing buffer *)

(** [this.distanceBuffer.reduce((a, b) => a + b, 0) / this.bufferSize] *)
Definition buffer_average (s : CanvasDrawer) : R :=
  foldl Rplus 0 (distanceBuffer s) / INR (bufferSize s).

(** The three assignments that record a distance and a point.  The index is
    below the buffers' length in every state the engine reaches
    ([buffers_ok] below), so the assignments never extend the arrays. *)
Definition buffer_write (d : R) (p : Point) (s : CanvasDrawer) : CanvasDrawer :=
  let s := set_distanceBuffer (<[bufferIndex s := d]> (distanceBuffer s)) s in
  let s := set_pointBuffer (<[bufferIndex s := p]> (pointBuffer s)) s in
  set_bufferIndex ((bufferIndex s + 1) mod bufferSize s)%nat s.

(** The values [_drawBrush] and [_drawImage] compute before their loop. *)
Record Segment : Type := mkSegment {
  currentD : R;
  avgDistanceLast : R;
  avgDistance : R;
  numCircles : Z
}.

(** Lines 118-128 and 148-158, which are the same text: the locals, and the
    fields after the buffer has been written. *)
Definition measure (x y : R) (s : CanvasDrawer) : Segment * CanvasDrawer :=
  let currentD := sqrt ((x - lastX s) ^ 2 + (y - lastY s) ^ 2) in
  let avgDistanceLast := buffer_average s in
  let s := buffer_write currentD (mkPoint x y) s in
  let avgDistance := buffer_average s in
  let numCircles := Z.max 1 (Int_part (currentD * circlesPerPixel s)) in
  (mkSegment currentD avgDistanceLast avgDistance numCircles, s).

(** The radius of iteration [i], as [_drawBrush] computes it (line 137). *)
Definition _drawBrush_r (g : Segment) (i : Z) : R :=
  ((avgDistance g - avgDistanceLast g) / IZR (numCircles g)) * IZR i
  + avgDistanceLast g.

(** The radius of iteration [i], as [_drawImage] computes it (line 167). *)
Definition _drawImage_r (g : Segment) (i : Z) : R :=
  ((avgDistance g - avgDistanceLast g) / IZR (numCircles g))
  * (IZR i + avgDistanceLast g).

Definition _drawBrush (x y : R) (s : CanvasDrawer) : Completion :=
  let '(g, s) := measure x y s in
  for_each (seqZ 0 (numCircles g + 1))
    (fun i s =>
       let t := IZR i / IZR (numCircles g) in
       let circleX := lastX s + (x - lastX s) * t in
       let circleY := lastY s + (y - lastY s) * t in
       let r := _drawBrush_r g i in
       and_then
         (on_ctx (fun c => ellipse circleX circleY r r 0 0 (2 * PI) (beginPath c))
                 s)
         (fun s => Returned (set_ctx (stroke (ctx s)) s)))
    s.

Definition _drawImage (document : gmap string Element) (x y : R)
    (s : CanvasDrawer) : Completion :=
  let '(g, s) := measure x y s in
  for_each (seqZ 0 (numCircles g + 1))
    (fun i s =>
       let t := IZR i / IZR (numCircles g) in
       let circleX := lastX s + (x - lastX s) * t in
       let circleY := lastY s + (y - lastY s) * t in
       let r := _drawImage_r g i in
       let img := getElementById document (imageId s) in
       on_ctx (drawImage img (circleX - 100) (circleY - 100) 200 200) s)
    s.

(** *** Surface *)

Definition _clearCanvas (s : CanvasDrawer) : CanvasDrawer :=
  let s :=
    set_ctx
      (clearRect (canvas_width s) (canvas_height s)
                 0 0 (IZR (canvas_width s)) (IZR (canvas_height s)) (ctx s)) s in
  if showGrid s then _drawGrid s else s.

Definition clear (s : CanvasDrawer) : CanvasDrawer :=
  _clearCanvas (set_canvasHistory [] s).

Definition toggleGrid (s : CanvasDrawer) : CanvasDrawer :=
  _clearCanvas (set_showGrid (negb (showGrid s)) s).

(** *** Brush *)

Definition setBrushMode (enabled : bool) (s : CanvasDrawer) : CanvasDrawer :=
  let s := set_brushMode enabled s in
  if enabled then set_ctx (set_filter "invert(1) opacity(10%)" (ctx s)) s
  else set_ctx (set_filter "invert(0) opacity(100%)" (ctx s)) s.

Definition getBrushMode (s : CanvasDrawer) : bool := brushMode s.

Definition setBrushImage (id : option string) (s : CanvasDrawer)
  : CanvasDrawer :=
  set_imageId id s.

(** *** Strokes *)

(** [startDrawing(point)], with [now] the answer of [Date.now()]. *)
Definition startDrawing (now : Z) (point : Point) (s : CanvasDrawer)
  : CanvasDrawer :=
  let s := set_isDrawing true s in
  let s := set_last (px point) (py point) s in
  let s :=
    set_canvasHistory
      (canvasHistory s ++ [[mkSample (lastX s) (lastY s) 0]]) s in
  let s := set_lastT now s in
  (* reset buffer when starting new stroke *)
  let s :=
    set_distanceBuffer (replicate (length (distanceBuffer s)) 0) s in
  let s := set_bufferIndex 0 s in
  set_pointBuffer
    (replicate (length (pointBuffer s)) (mkPoint (px point) (py point))) s.

(** Lines 259-264 of [draw]: the sample is pushed on the last stroke.
    [this.canvasHistory[length - 1]] is [undefined] when the history is
    empty, and so is [stroke[0]] when the stroke is: both raise a TypeError
    when a property is read from them. *)
Definition record_sample (now : Z) (point : Point) (s : CanvasDrawer)
  : Completion :=
  match last (canvasHistory s) with
  | None => Threw TypeError s
  | Some open_stroke =>
      match open_stroke !! 0%nat with
      | None => Threw TypeError s
      | Some first =>
          let sample :=
            mkSample (px point) (py point) (now - st first) in
          let s :=
            set_canvasHistory
              (<[(length (canvasHistory s) - 1)%nat := open_stroke ++ [sample]]>
                 (canvasHistory s)) s in
          Returned (set_last (px point) (py point) s)
      end
  end.

(** [draw(point)], with [now] the answer of [Date.now()]. *)
Definition draw (document : gmap string Element) (now : Z) (point : Point)
    (s : CanvasDrawer) : Completion :=
  if negb (isDrawing s) then Returned s
  else
    and_then
      (if brushMode s then _drawImage document (px point) (py point) s
       else Returned (_drawLine (px point) (py point) s))
      (record_sample now point).

Definition stopDrawing (s : CanvasDrawer) : CanvasDrawer :=
  set_isDrawing false s.

Definition getIsDrawing (s : CanvasDrawer) : bool := isDrawing s.

(** ** The states the engine reaches *)

Inductive Call : Type :=
| Clear
| ToggleGrid
| SetBrushMode (enabled : bool)
| SetBrushImage (id : option string)
| StartDrawing (now : Z) (point : Point)
| Draw (document : gmap string Element) (now : Z) (point : Point)
| StopDrawing.

(** The fields after a call.  An exception of [draw] ends the event handler
    that made the call, and the object lives on with the fields it has. *)
Definition perform (s : CanvasDrawer) (c : Call) : CanvasDrawer :=
  match c with
  | Clear => clear s
  | ToggleGrid => toggleGrid s
  | SetBrushMode enabled => setBrushMode enabled s
  | SetBrushImage id => setBrushImage id s
  | StartDrawing now point => startDrawing now point s
  | Draw document now point => fields (draw document now point s)
  | StopDrawing => stopDrawing s
  end.

(** The states that the engine reaches from its constructor by the calls of
    [Call].  The page around the engine is no part of it: assigning
    [canvas.width] or [canvas.height] empties the canvas and resets its
    context, and is not a call of the engine.  [reachable] is used for the
    fields of the engine only: nothing is assumed of the context of a state
    because it is reachable. *)
Inductive reachable : CanvasDrawer -> Prop :=
| reach_new canvas context2d s :
    new_CanvasDrawer canvas context2d = inr s -> reachable s
| reach_call s c :
    reachable s -> reachable (perform s c).

(** What never changes after construction: the sizes of the two buffers, the
    range of the cursor, the grid step and the stamp density. *)
Record well_formed (s : CanvasDrawer) : Prop := mk_well_formed {
  wf_bufferSize : bufferSize s = 20%nat;
  wf_distanceBuffer : length (distanceBuffer s) = bufferSize s;
  wf_pointBuffer : length (pointBuffer s) = bufferSize s;
  wf_bufferIndex : (bufferIndex s < bufferSize s)%nat;
  wf_gridSize : gridSize s = 20%Z;
  wf_circlesPerPixel : circlesPerPixel s = 1 / 10
}.

(** Everything but the context. *)
Definition engine_fields (s : CanvasDrawer) : CanvasDrawer :=
  set_ctx blank_context s.

(** What [drawImage] accepts as its first argument. *)
Definition is_image_source (image : option Element) : bool :=
  match image with
  | Some (HTMLImageElement _) | Some (HTMLCanvasElement _ _) => true
  | Some (OtherElement _) | None => false
  end.

(** Everything but the context, the stroke history and the last point: the
    fields that neither painting nor recording a sample assigns. *)
Definition settings (s : CanvasDrawer) : CanvasDrawer :=
  set_last 0 0 (set_canvasHistory [] (set_ctx blank_context s)).

(** The same engine in front of an erased canvas. *)
Definition blank_surface (s : CanvasDrawer) : CanvasDrawer :=
  set_ctx (set_bitmap [] (ctx s)) s.

(** ** Runs of [draw] calls *)

(** A [draw] call with what it reads from its environment. *)
Record DrawCall : Type := mkDrawCall {
  call_document : gmap string Element;
  call_now : Z;
  call_point : Point
}.

Definition draw_call (s : CanvasDrawer) (c : DrawCall) : CanvasDrawer :=
  fields (draw (call_document c) (call_now c) (call_point c) s).

Definition draw_all (calls : list DrawCall) (s : CanvasDrawer) : CanvasDrawer :=
  foldl draw_call s calls.

(** The locals that the brush renderer computes in each call of a run. *)
Fixpoint stamp_segments (calls : list DrawCall) (s : CanvasDrawer)
  : list Segment :=
  match calls with
  | [] => []
  | c :: calls' =>
      fst (measure (px (call_point c)) (py (call_point c)) s)
      :: stamp_segments calls' (draw_call s c)
  end.

(** Linear interpolation from [a] to [b]. *)
Definition lerp (a b t : R) : R := a + (b - a) * t.

(** ** A session used in the examples *)

(** A page with one image, whose id is ["brush"]. *)
Definition page : gmap string Element :=
  {[ "brush" := HTMLImageElement "brush.png" ]}.

(** The engine on a new canvas of 100 by 100 pixels. *)
Definition fresh : CanvasDrawer := _init (initial_fields 100 100 blank_context).

(** ... after [setBrushMode(true)] and [setBrushImage("brush")]. *)
Definition fresh_brush : CanvasDrawer :=
  setBrushImage (Some "brush") (setBrushMode true fresh).

(** Two pointer moves, at 1005 ms and 1010 ms on the clock. *)
Definition move1 : DrawCall := mkDrawCall page 1005 (mkPoint 3 4).
Definition move2 : DrawCall := mkDrawCall page 1010 (mkPoint 3 10).

(** A brush stroke started at the origin and dragged to (20, 0). *)
Definition dragged : CanvasDrawer :=
  draw_call (startDrawing 1000 origin fresh_brush)
            (mkDrawCall page 1005 (mkPoint 20 0)).

(** ** Replaying the history *)

(** The part of the context that [save()] pushes on the context's stack and
    [restore()] pops from it.  The current path and the bitmap are not part
    of it. *)
Record DrawingState : Type := mkDrawingState {
  saved_strokeStyle : string;
  saved_lineWidth : R;
  saved_lineCap : string;
  saved_lineJoin : string;
  saved_filter : string
}.

Definition drawing_state (c : Context) : DrawingState :=
  mkDrawingState (strokeStyle c) (lineWidth c) (lineCap c) (lineJoin c)
                 (filter c).

Definition save (c : Context) (stack : list DrawingState)
  : list DrawingState :=
  drawing_state c :: stack.

(** [restore()] does nothing on an empty stack. *)
Definition restore (c : Context) (stack : list DrawingState)
  : Context * list DrawingState :=
  match stack with
  | [] => (c, [])
  | d :: stack' =>
      (mkContext (saved_strokeStyle d) (saved_lineWidth d) (saved_lineCap d)
                 (saved_lineJoin d) (saved_filter d) (path c) (bitmap c),
       stack')
  end.

(** The body of the [forEach] of [redrawHistory] (lines 283-304), on the
    context and its stack. *)
Definition replay_stroke (cs : Context * list DrawingState)
    (samples : list Sample) : Context * list DrawingState :=
  match samples with
  | [] => cs
  | first :: rest =>
      let stack := save (fst cs) (snd cs) in
      let c := beginPath (fst cs) in
      let c := moveTo (sx first) (sy first) c in
      let c := foldl (fun c sm => lineTo (sx sm) (sy sm) c) c rest in
      let c := stroke c in
      restore c stack
  end.

(** [redrawHistory()].  [stack] is the stack of saved states of the context
    when the method is called; no other method of the class touches it. *)
Definition redrawHistory (stack : list DrawingState) (s : CanvasDrawer)
  : CanvasDrawer * list DrawingState :=
  let s := _clearCanvas s in
  let cs := foldl replay_stroke (ctx s, stack) (canvasHistory s) in
  (set_ctx (fst cs) s, snd cs).

(** ** Notions used to state what is painted *)

(** The values that the counter of [for_lt] takes. *)
Fixpoint positions_fuel (fuel : nat) (x limit step : Z) : list Z :=
  match fuel with
  | O => []
  | S fuel' =>
      if (x <? limit)%Z then x :: positions_fuel fuel' (x + step) limit step
      else []
  end.

Definition positions (from limit step : Z) : list Z :=
  positions_fuel (Z.to_nat (limit - from)) from limit step.

(** One [stroke()] of the path [cmds] with the drawing state of [c]. *)
Definition stroked_with (c : Context) (cmds : list PathCmd) : Paint :=
  Stroked (strokeStyle c) (lineWidth c) (lineCap c) (lineJoin c) (filter c)
          cmds.

(** The straight segments that join [from] and the points of [pts] in turn,
    each stroked on its own. *)
Fixpoint segments (c : Context) (from : Point) (pts : list Point)
  : list Paint :=
  match pts with
  | [] => []
  | p :: pts' =>
      stroked_with c [MoveTo (px from) (py from); LineTo (px p) (py p)]
      :: segments c p pts'
  end.

(** The path through all the samples of a stroke. *)
Definition polyline (samples : list Sample) : list PathCmd :=
  match samples with
  | [] => []
  | first :: rest =>
      MoveTo (sx first) (sy first) :: map (fun sm => LineTo (sx sm) (sy sm)) rest
  end.

(** A run of [draw] calls that ends at the first one that raises. *)
Definition draws (calls : list DrawCall) (s : CanvasDrawer) : Completion :=
  for_each calls
    (fun c => draw (call_document c) (call_now c) (call_point c)) s.

(** * ImageLoader

    The class that loads a list of image sources.  [load()] returns a
    promise; what it does before returning is the function [load], and the
    two callbacks that run when the promise of all the images settles are
    [load_then] and [load_catch]. *)

(** The argument of the constructor and of [addImages]: left out, something
    that is not an array, or an array of sources. *)
Inductive SrcArg : Type :=
| NoArgument
| NotAnArray
| SrcArray (srcs : list string).

Record ImageLoader : Type := mkImageLoader {
  srcArray : list string;
  loadedImages : list Element;
  loadingError : option exn;
  isLoading : bool
}.

(** [new ImageLoader(srcArray)]; the parameter defaults to [[]]. *)
Definition new_ImageLoader (arg : SrcArg) : exn + ImageLoader :=
  match arg with
  | NoArgument => inr (mkImageLoader [] [] None false)
  | NotAnArray =>
      inl (Error "ImageLoader constructor expects an array of source URLs.")
  | SrcArray srcs => inr (mkImageLoader srcs [] None false)
  end.

(** The callback of the [forEach] of [addImages] (lines 98-112). *)
Definition addImage (s : ImageLoader) (src : string) : ImageLoader :=
  if bool_decide (src ∈ srcArray s) then s
  else
    let s :=
      mkImageLoader (srcArray s ++ [src]) (loadedImages s) (loadingError s)
                    (isLoading s) in
    if negb (isLoading s) && (0 <? length (loadedImages s))%nat
    then mkImageLoader (srcArray s) [] None (isLoading s)
    else s.

Definition addImages (arg : SrcArg) (s : ImageLoader) : ImageLoader :=
  match arg with
  | SrcArray srcs => foldl addImage s srcs
  | NoArgument | NotAnArray => s
  end.

(** The promise that [load()] returns. *)
Inductive LoadPromise : Type :=
| RejectedNow (e : exn)
| ResolvedNow (images : list Element)
| Pending (srcs : list string).

(** [load()] up to its [return]: [Pending srcs] stands for the promise of
    the images of [srcs], with the two callbacks attached. *)
Definition load (s : ImageLoader) : LoadPromise * ImageLoader :=
  if isLoading s then (RejectedNow (Error "Load already in progress."), s)
  else if (length (srcArray s) =? 0)%nat
  then (ResolvedNow [], mkImageLoader (srcArray s) [] None (isLoading s))
  else (Pending (srcArray s), mkImageLoader (srcArray s) [] None true).

(** [.then(images => ...)] *)
Definition load_then (images : list Element) (s : ImageLoader) : ImageLoader :=
  mkImageLoader (srcArray s) images None false.

(** [.catch(error => ...)] *)
Definition load_catch (error : exn) (s : ImageLoader) : ImageLoader :=
  mkImageLoader (srcArray s) [] (Some error) false.

(** The promise of all the images settles: with one image per source, in
    the order of the sources, when every [onload] has fired, or with the
    error of the source [failed] whose [onerror] fired first.  The result is
    what the promise returned by [load()] settles with. *)
Definition settle (srcs : list string) (failed : option string)
    (s : ImageLoader) : (exn + list Element) * ImageLoader :=
  match failed with
  | None =>
      let images := map HTMLImageElement srcs in
      (inr images, load_then images s)
  | Some src =>
      let error := Error (String.append "Failed to load image: " src) in
      (inl error, load_catch error s)
  end.

Definition getImages (s : ImageLoader) : list Element := loadedImages s.

Definition getError (s : ImageLoader) : option exn := loadingError s.

(** The states of a loader: made by the constructor, then changed by
    [addImages], by [load()], and by the callbacks of a pending load. *)
Inductive loader_reachable : ImageLoader -> Prop :=
| loader_new arg s :
    new_ImageLoader arg = inr s -> loader_reachable s
| loader_addImages arg s :
    loader_reachable s -> loader_reachable (addImages arg s)
| loader_load s :
    loader_reachable s -> loader_reachable (snd (load s))
| loader_settle srcs failed s :
    loader_reachable s -> isLoading s = true ->
    loader_reachable (snd (settle srcs failed s)).

(** * useImageCache

    The hook that keeps the images picked by the user, with [localStorage]
    as a cache.  The state of the hook is a record; each callback of the hook
    is a function of that state and of the storage.  [localStorage] is the
    list of its items in the order of [Object.keys], with one item per key,
    or [None] when the browser refuses access to it, in which case every use
    of it raises and the [catch] of the callback runs. *)

Definition CACHE_PREFIX : string := "IMAGE_CACHE".

(** A cached image.  [src] is [null] when it comes from a read that
    failed. *)
Record CachedImage : Type := mkCachedImage {
  name : string;
  src : option string
}.

Record File : Type := mkFile { file_name : string }.

Definition Storage : Type := list (string * string).

Fixpoint getItem (key : string) (items : Storage) : option string :=
  match items with
  | [] => None
  | (k, v) :: rest => if String.eqb k key then Some v else getItem key rest
  end.

Fixpoint setItem (key value : string) (items : Storage) : Storage :=
  match items with
  | [] => [(key, value)]
  | (k, v) :: rest =>
      if String.eqb k key then (k, value) :: rest
      else (k, v) :: setItem key value rest
  end.

Fixpoint removeItem (key : string) (items : Storage) : Storage :=
  match items with
  | [] => []
  | (k, v) :: rest =>
      if String.eqb k key then removeItem key rest
      else (k, v) :: removeItem key rest
  end.

(** [key.slice(n)] *)
Definition slice (n : nat) (key : string) : string :=
  String.substring n (String.length key - n) key.

(** The state of the hook: the two [useState] cells and the [useRef]. *)
Record CacheHook : Type := mkCacheHook {
  images : list CachedImage;
  hook_isLoading : bool;
  isMounted : bool
}.

(** What the hook starts with. *)
Definition useImageCache : CacheHook := mkCacheHook [] false true.

Definition setImages (v : list CachedImage) (h : CacheHook) : CacheHook :=
  mkCacheHook v (hook_isLoading h) (isMounted h).

Definition setIsLoading (v : bool) (h : CacheHook) : CacheHook :=
  mkCacheHook (images h) v (isMounted h).

(** The updater that both branches of [processAndCacheFile] hand to
    [setImages] (lines 72-77 and 100-105). *)
Definition add_unless_present (file_name : string) (v : option string)
    (prevImages : list CachedImage) : list CachedImage :=
  if existsb (fun img => String.eqb (name img) file_name) prevImages
  then prevImages
  else prevImages ++ [mkCachedImage file_name v].

(** The callback of the [forEach] of the effect (lines 33-41). *)
Definition scan_key (items : Storage) (cachedImages : list CachedImage)
    (key : string) : list CachedImage :=
  if String.prefix CACHE_PREFIX key then
    let imageName := slice (String.length CACHE_PREFIX) key in
    match getItem key items with
    | Some imageSrc =>
        if String.eqb imageSrc "" then cachedImages
        else cachedImages ++ [mkCachedImage imageName (Some imageSrc)]
    | None => cachedImages
    end
  else cachedImages.

(** The list that the effect builds from the storage (lines 32-42). *)
Definition scan (items : Storage) : list CachedImage :=
  foldl (scan_key items) [] (fst <$> items).

(** The effect that runs when the component mounts, and its cleanup. *)
Definition mount (h : CacheHook) (localStorage : option Storage) : CacheHook :=
  let h := mkCacheHook (images h) (hook_isLoading h) true in
  match localStorage with
  | Some items => setImages (scan items) h
  | None => h
  end.

Definition unmount (h : CacheHook) : CacheHook :=
  mkCacheHook (images h) (hook_isLoading h) false.

(** [processAndCacheFile(file)] up to its [return]; [None] stands for an
    argument that is not a [File].  The second component is the file that a
    [FileReader] has been asked to read, if any. *)
Definition processAndCacheFile (file : option File) (h : CacheHook)
    (localStorage : option Storage) : CacheHook * option File :=
  match file with
  | None => (if isMounted h then setIsLoading false h else h, None)
  | Some f =>
      let h := if isMounted h then setIsLoading true h else h in
      let cacheKey := String.append CACHE_PREFIX (file_name f) in
      match localStorage with
      | Some items =>
          match getItem cacheKey items with
          | Some cachedImage =>
              if String.eqb cachedImage "" then (h, Some f)
              else
                (if isMounted h
                 then setIsLoading false
                        (setImages
                           (add_unless_present (file_name f) (Some cachedImage)
                                               (images h)) h)
                 else h,
                 None)
          | None => (h, Some f)
          end
      | None => (h, Some f)
      end
  end.

(** [reader.onloadend], for the reader of [f].  [result] is [reader.result],
    [null] when the read failed; [quota_exceeded] tells whether [setItem]
    raises.  A [null] is stored as the string ["null"]. *)
Definition onloadend (f : File) (result : option string)
    (quota_exceeded : bool) (h : CacheHook) (localStorage : option Storage)
  : CacheHook * option Storage :=
  if isMounted h then
    let cacheKey := String.append CACHE_PREFIX (file_name f) in
    let localStorage :=
      match localStorage with
      | Some items =>
          if quota_exceeded then Some items
          else Some (setItem cacheKey (default "null" result) items)
      | None => None
      end in
    (setIsLoading false
       (setImages (add_unless_present (file_name f) result (images h)) h),
     localStorage)
  else (h, localStorage).

(** [reader.onerror] *)
Definition onerror (h : CacheHook) : CacheHook :=
  if isMounted h then setIsLoading false h else h.

Definition clearCachedImageByName (fileName : string) (h : CacheHook)
    (localStorage : option Storage) : CacheHook * option Storage :=
  if String.eqb fileName "" then (h, localStorage)
  else
    let cacheKey := String.append CACHE_PREFIX fileName in
    match localStorage with
    | Some items =>
        (setImages
           (List.filter (fun img => negb (String.eqb (name img) fileName))
                        (images h)) h,
         Some (removeItem cacheKey items))
    | None => (h, None)
    end.

(** The callback of the [forEach] of [clearAllCachedImages]. *)
Definition clear_key (items : Storage) (key : string) : Storage :=
  if String.prefix CACHE_PREFIX key then removeItem key items else items.

Definition clearAllCachedImages (h : CacheHook)
    (localStorage : option Storage) : CacheHook * option Storage :=
  match localStorage with
  | Some items =>
      let items' := foldl clear_key items (fst <$> items) in
      (if isMounted h then setIsLoading false (setImages [] h) else h,
       Some items')
  | None => (h, None)
  end.

(** A storage holds one item per key. *)
Definition one_item_per_key (localStorage : option Storage) : Prop :=
  forall items, localStorage = Some items -> NoDup (fst <$> items).

(** What can happen to a mounted hook, and the states it goes through. *)
Inductive CacheEvent : Type :=
| Mount
| Unmount
| ProcessAndCacheFile (file : option File)
| LoadEnd (f : File) (result : option string) (quota_exceeded : bool)
| ReadError
| ClearByName (fileName : string)
| ClearAll.

Definition cache_step (w : CacheHook * option Storage) (e : CacheEvent)
  : CacheHook * option Storage :=
  match e with
  | Mount => (mount (fst w) (snd w), snd w)
  | Unmount => (unmount (fst w), snd w)
  | ProcessAndCacheFile file =>
      (fst (processAndCacheFile file (fst w) (snd w)), snd w)
  | LoadEnd f result quota_exceeded =>
      onloadend f result quota_exceeded (fst w) (snd w)
  | ReadError => (onerror (fst w), snd w)
  | ClearByName fileName => clearCachedImageByName fileName (fst w) (snd w)
  | ClearAll => clearAllCachedImages (fst w) (snd w)
  end.

(** ** Which [draw] calls record a sample *)




(** ** The filter of each brush mode *)

(** The two strings of [setBrushMode] (lines 209 and 211). *)
Definition brush_filter (enabled : bool) : string :=
  if enabled then "invert(1) opacity(10%)" else "invert(0) opacity(100%)".

(** The argument of the latest [setBrushMode] of a sequence of calls, or
    [enabled] when the sequence has none. *)
Definition mode_after (calls : list Call) (enabled : bool) : bool :=
  foldl (fun b c => match c with SetBrushMode e => e | _ => b end)
        enabled calls.

(** * Comparing two engines

    [on_fields f] applies [f] to the fields that a call leaves, whichever way
    the call ends. *)
Definition on_fields (f : CanvasDrawer -> CanvasDrawer) (c : Completion)
  : Completion :=
  match c with
  | Returned s => Returned (f s)
  | Threw e s => Threw e (f s)
  end.

(** A state whose buffers, grid step and density are those of a well-formed
    state, up to computation, is well formed. *)
Ltac same_buffers H := destruct H; constructor; assumption.

(** ** Loops *)

Lemma for_lt_fuel_enough (f1 f2 : nat) (x limit step : Z)
    (body : Z -> Context -> Context) (c : Context) :
  (0 < step)%Z ->
  (Z.to_nat (limit - x) <= f1)%nat ->
  (Z.to_nat (limit - x) <= f2)%nat ->
  for_lt_fuel f1 x limit step body c = for_lt_fuel f2 x limit step body c.
Proof.
  intros Hstep.
  revert f2 x c.
  induction f1 as [|f1 IH]; intros [|f2] x c H1 H2; simpl; try reflexivity.
  - destruct (Z.ltb_spec x limit); [lia | reflexivity].
  - destruct (Z.ltb_spec x limit); [lia | reflexivity].
  - destruct (Z.ltb_spec x limit); [| reflexivity].
    apply IH; lia.
Qed.

(** The loop as the program reads: test, body, increment, again. *)
Lemma for_lt_unfold (x limit step : Z) (body : Z -> Context -> Context)
    (c : Context) :
  (0 < step)%Z ->
  for_lt x limit step body c =
  if (x <? limit)%Z then for_lt (x + step) limit step body (body x c) else c.
Proof.
  intros Hstep. unfold for_lt.
  destruct (Z.ltb_spec x limit) as [Hlt | Hge].
  - destruct (Z.to_nat (limit - x)) as [|n] eqn:Hn; [lia |].
    simpl. destruct (Z.ltb_spec x limit); [| lia].
    apply for_lt_fuel_enough; lia.
  - replace (Z.to_nat (limit - x)) with 0%nat by lia. reflexivity.
Qed.

(** The columns of the grid on a canvas 50 pixels wide. *)
Example grid_columns :
  path (for_lt 0 50 20 (fun x c => moveTo (IZR x) 0 c) blank_context)
  = [MoveTo 0 0; MoveTo 20 0; MoveTo 40 0].
Proof. reflexivity. Qed.

(** A canvas of 100 by 100 pixels gets 5 columns and 5 rows. *)
Example grid_of_fresh : length (bitmap (ctx fresh)) = 10%nat.
Proof. reflexivity. Qed.

Lemma for_each_engine_fields {A : Type} (l : list A)
    (body : A -> CanvasDrawer -> Completion) (s : CanvasDrawer) :
  (forall i s', engine_fields (fields (body i s')) = engine_fields s') ->
  engine_fields (fields (for_each l body s)) = engine_fields s.
Proof.
  intros Hbody. revert s.
  induction l as [|i l IH]; intros s; simpl; [reflexivity |].
  specialize (Hbody i s).
  destruct (body i s) as [s' | e s']; simpl in *.
  - now rewrite IH.
  - exact Hbody.
Qed.

Lemma on_ctx_engine_fields (f : Context -> exn + Context) (s : CanvasDrawer) :
  engine_fields (fields (on_ctx f s)) = engine_fields s.
Proof. unfold on_ctx. now destruct (f (ctx s)). Qed.

(** ** Frames: what the methods leave alone *)

Lemma _drawGrid_engine_fields (s : CanvasDrawer) :
  engine_fields (_drawGrid s) = engine_fields s.
Proof. reflexivity. Qed.

Lemma _clearCanvas_engine_fields (s : CanvasDrawer) :
  engine_fields (_clearCanvas s) = engine_fields s.
Proof. unfold _clearCanvas. simpl. now destruct (showGrid s). Qed.

Lemma _drawImage_engine_fields (document : gmap string Element) (x y : R)
    (s : CanvasDrawer) :
  engine_fields (fields (_drawImage document x y s))
  = engine_fields (snd (measure x y s)).
Proof.
  unfold _drawImage. simpl.
  apply for_each_engine_fields. intros i s'. apply on_ctx_engine_fields.
Qed.

(** The well-formedness of a state does not look at the context. *)
Lemma well_formed_engine_fields (s s' : CanvasDrawer) :
  engine_fields s' = engine_fields s -> well_formed s -> well_formed s'.
Proof.
  intros E [H1 H2 H3 H4 H5 H6].
  assert (bufferSize s' = bufferSize s)
    by exact (f_equal bufferSize E).
  assert (distanceBuffer s' = distanceBuffer s)
    by exact (f_equal distanceBuffer E).
  assert (pointBuffer s' = pointBuffer s)
    by exact (f_equal pointBuffer E).
  assert (bufferIndex s' = bufferIndex s)
    by exact (f_equal bufferIndex E).
  assert (gridSize s' = gridSize s)
    by exact (f_equal gridSize E).
  assert (circlesPerPixel s' = circlesPerPixel s)
    by exact (f_equal circlesPerPixel E).
  constructor; congruence.
Qed.

Lemma buffer_write_well_formed (d : R) (p : Point) (s : CanvasDrawer) :
  well_formed s -> well_formed (buffer_write d p s).
Proof.
  intros [H1 H2 H3 H4 H5 H6].
  constructor; simpl; try assumption.
  - now rewrite length_insert.
  - now rewrite length_insert.
  - apply Nat.mod_upper_bound. lia.
Qed.

Lemma record_sample_engine (now : Z) (point : Point) (s : CanvasDrawer) :
  well_formed s -> well_formed (fields (record_sample now point s)).
Proof.
  intros H. unfold record_sample.
  destruct (last (canvasHistory s)) as [open_stroke|]; [| exact H].
  destruct (open_stroke !! 0%nat) as [first|]; [| exact H].
  same_buffers H.
Qed.

Lemma draw_well_formed (document : gmap string Element) (now : Z)
    (point : Point) (s : CanvasDrawer) :
  well_formed s -> well_formed (fields (draw document now point s)).
Proof.
  intros H. unfold draw.
  destruct (isDrawing s); simpl; [| exact H].
  destruct (brushMode s); simpl.
  - pose proof (_drawImage_engine_fields document (px point) (py point) s) as E.
    assert (well_formed (fields (_drawImage document (px point) (py point) s)))
      as H'.
    { eapply well_formed_engine_fields; [exact E |].
      simpl. now apply buffer_write_well_formed. }
    destruct (_drawImage document (px point) (py point) s); simpl in *.
    + now apply record_sample_engine.
    + exact H'.
  - apply record_sample_engine. same_buffers H.
Qed.

Lemma initial_well_formed (w h : Z) (c : Context) :
  well_formed (_init (initial_fields w h c)).
Proof. constructor; simpl; try reflexivity. lia. Qed.

Lemma perform_well_formed (s : CanvasDrawer) (c : Call) :
  well_formed s -> well_formed (perform s c).
Proof.
  intros H. destruct c; simpl.
  - eapply well_formed_engine_fields;
      [apply _clearCanvas_engine_fields | same_buffers H].
  - eapply well_formed_engine_fields;
      [apply _clearCanvas_engine_fields | same_buffers H].
  - unfold setBrushMode. destruct enabled; same_buffers H.
  - same_buffers H.
  - destruct H as [H1 H2 H3 H4 H5 H6].
    constructor; simpl; try assumption.
    + now rewrite length_replicate.
    + now rewrite length_replicate.
    + lia.
  - now apply draw_well_formed.
  - same_buffers H.
Qed.

(** Every state the engine reaches is well formed: the cursor stays inside
    the buffers, and the grid step stays positive, so the grid loops end. *)
Lemma reachable_well_formed (s : CanvasDrawer) :
  reachable s -> well_formed s.
Proof.
  induction 1 as [canvas context2d s Hnew | s c _ IH].
  - destruct canvas as [[w h | src | tag]|]; try discriminate.
    destruct context2d as [c|]; try discriminate.
    injection Hnew as <-. apply initial_well_formed.
  - now apply perform_well_formed.
Qed.

(** ** Idle engine *)

Lemma draw_idle (document : gmap string Element) (now : Z) (point : Point)
    (s : CanvasDrawer) :
  isDrawing s = false -> draw document now point s = Returned s.
Proof. intros H. unfold draw. now rewrite H. Qed.

Lemma draw_all_idle (calls : list DrawCall) (s : CanvasDrawer) :
  isDrawing s = false -> draw_all calls s = s.
Proof.
  intros H. induction calls as [|c calls IH]; [reflexivity |].
  unfold draw_all in *. simpl. unfold draw_call at 2.
  rewrite draw_idle by exact H. exact IH.
Qed.

(** C6. While the engine is idle ([getIsDrawing()] is false), every [draw]
    call of any sequence of them returns without raising and leaves all the
    fields as they were: the context with its bitmap, the stroke history, the
    smoothing buffer, the last point and the rest. *)
Theorem draw_while_idle_is_noop (s : CanvasDrawer) (calls : list DrawCall)
    (c : DrawCall) :
  getIsDrawing s = false ->
  draw_all calls s = s /\
  draw (call_document c) (call_now c) (call_point c) (draw_all calls s)
  = Returned s.
Proof.
  unfold getIsDrawing. intros H.
  rewrite draw_all_idle by exact H.
  split; [reflexivity | now apply draw_idle].
Qed.

Lemma draw_while_idle_is_noop_witness :
  draw_all [mkDrawCall page 7 (mkPoint 3 4); mkDrawCall page 9 origin] fresh
  = fresh /\
  draw page 12 (mkPoint 1 1)
    (draw_all [mkDrawCall page 7 (mkPoint 3 4); mkDrawCall page 9 origin] fresh)
  = Returned fresh.
Proof.
  apply (draw_while_idle_is_noop fresh
           [mkDrawCall page 7 (mkPoint 3 4); mkDrawCall page 9 origin]
           (mkDrawCall page 12 (mkPoint 1 1))).
  reflexivity.
Defined.

(** ** Clearing and the grid *)

Lemma covers_whole (w h : Z) : covers w h 0 0 (IZR w) (IZR h) = true.
Proof.
  unfold covers.
  repeat (rewrite bool_decide_eq_true_2 by lra). reflexivity.
Qed.

Lemma clearRect_whole (w h : Z) (c : Context) :
  clearRect w h 0 0 (IZR w) (IZR h) c = set_bitmap [] c.
Proof. unfold clearRect. now rewrite covers_whole. Qed.

(** After [_clearCanvas] the context is the one of a blank canvas, with the
    grid on it when the grid is shown. *)
Lemma _clearCanvas_repaints (s : CanvasDrawer) :
  _clearCanvas s
  = if showGrid s then _drawGrid (blank_surface s) else blank_surface s.
Proof.
  unfold _clearCanvas. rewrite clearRect_whole. reflexivity.
Qed.

(** C7. [clear()] leaves [getIsDrawing()] as it is and empties the stroke
    history; the brush mode and the grid flag keep their values, and so does
    every field other than the history and the context. *)
Theorem clear_keeps_state_and_empties_history (s : CanvasDrawer) :
  reachable s ->
  getIsDrawing (clear s) = getIsDrawing s /\
  canvasHistory (clear s) = [] /\
  getBrushMode (clear s) = getBrushMode s /\
  showGrid (clear s) = showGrid s /\
  engine_fields (clear s) = engine_fields (set_canvasHistory [] s).
Proof.
  intros _. unfold clear.
  pose proof (_clearCanvas_engine_fields (set_canvasHistory [] s)) as E.
  repeat split.
  - exact (f_equal isDrawing E).
  - exact (f_equal canvasHistory E).
  - exact (f_equal brushMode E).
  - exact (f_equal showGrid E).
  - exact E.
Qed.

Lemma clear_keeps_state_and_empties_history_witness :
  getIsDrawing (clear (perform (startDrawing 1000 origin fresh_brush)
              (Draw page 1005 (mkPoint 3 4))))
  = getIsDrawing (perform (startDrawing 1000 origin fresh_brush)
              (Draw page 1005 (mkPoint 3 4))) /\
  canvasHistory (clear (perform (startDrawing 1000 origin fresh_brush)
              (Draw page 1005 (mkPoint 3 4))))
  = [] /\
  getBrushMode (clear (perform (startDrawing 1000 origin fresh_brush)
              (Draw page 1005 (mkPoint 3 4))))
  = getBrushMode (perform (startDrawing 1000 origin fresh_brush)
              (Draw page 1005 (mkPoint 3 4))) /\
  showGrid (clear (perform (startDrawing 1000 origin fresh_brush)
              (Draw page 1005 (mkPoint 3 4))))
  = showGrid (perform (startDrawing 1000 origin fresh_brush)
              (Draw page 1005 (mkPoint 3 4))) /\
  engine_fields (clear (perform (startDrawing 1000 origin fresh_brush)
              (Draw page 1005 (mkPoint 3 4))))
  = engine_fields
      (set_canvasHistory []
         (perform (startDrawing 1000 origin fresh_brush)
              (Draw page 1005 (mkPoint 3 4)))).
Proof.
  apply (clear_keeps_state_and_empties_history
           (perform (startDrawing 1000 origin fresh_brush)
              (Draw page 1005 (mkPoint 3 4)))).
  apply (reach_call (startDrawing 1000 origin fresh_brush)
           (Draw page 1005 (mkPoint 3 4))).
  apply (reach_call fresh_brush (StartDrawing 1000 origin)).
  apply (reach_call (setBrushMode true fresh) (SetBrushImage (Some "brush"))).
  apply (reach_call fresh (SetBrushMode true)).
  apply (reach_new (Some (HTMLCanvasElement 100 100)) (Some blank_context)).
  reflexivity.
Defined.

(** C8. Two calls of [toggleGrid()] bring [showGrid] back to its value.  Each
    call repaints the whole surface: what it leaves is the blank canvas, with
    the grid drawn on it when the flag has become true, whatever was painted
    before. *)
Theorem toggleGrid_twice_and_repaint (s : CanvasDrawer) :
  reachable s ->
  showGrid (toggleGrid (toggleGrid s)) = showGrid s /\
  ctx (toggleGrid s)
  = (if showGrid s then ctx (blank_surface s)
     else ctx (_drawGrid (blank_surface s))) /\
  (forall painted : list Paint,
      toggleGrid (set_ctx (set_bitmap painted (ctx s)) s) = toggleGrid s).
Proof.
  intros _. split; [| split].
  - unfold toggleGrid.
    pose proof (_clearCanvas_engine_fields
                  (set_showGrid (negb (showGrid s)) s)) as E1.
    apply (f_equal showGrid) in E1. simpl in E1.
    pose proof (_clearCanvas_engine_fields
                  (set_showGrid
                     (negb (showGrid
                              (_clearCanvas
                                 (set_showGrid (negb (showGrid s)) s))))
                     (_clearCanvas (set_showGrid (negb (showGrid s)) s))))
      as E2.
    apply (f_equal showGrid) in E2. simpl in E2.
    rewrite E2, E1. apply negb_involutive.
  - unfold toggleGrid. rewrite _clearCanvas_repaints. simpl.
    now destruct (showGrid s).
  - intros painted. unfold toggleGrid.
    rewrite !_clearCanvas_repaints. reflexivity.
Qed.

Lemma toggleGrid_twice_and_repaint_witness :
  showGrid (toggleGrid (toggleGrid fresh)) = showGrid fresh /\
  ctx (toggleGrid fresh)
  = (if showGrid fresh then ctx (blank_surface fresh)
     else ctx (_drawGrid (blank_surface fresh))) /\
  (forall painted : list Paint,
      toggleGrid (set_ctx (set_bitmap painted (ctx fresh)) fresh)
      = toggleGrid fresh).
Proof.
  apply (toggleGrid_twice_and_repaint fresh).
  apply (reach_new (Some (HTMLCanvasElement 100 100)) (Some blank_context)).
  reflexivity.
Defined.

(** ** Construction *)

(** C10. On a canvas element whose 2D context is available, the constructor
    returns an engine that is not drawing, in line mode, showing a grid of
    step 20, without a stamp handle, with a smoothing buffer of 20 zero
    distances, 20 points at the origin and its cursor on 0, and with an
    empty stroke history.  Without a canvas, or on an element that is not
    one, it raises its error. *)
Theorem constructor_state (canvas : option Element) (c : Context)
    (context2d : option Context) :
  match canvas with
  | Some (HTMLCanvasElement w h) =>
      exists s,
        new_CanvasDrawer canvas (Some c) = inr s /\
        getIsDrawing s = false /\
        getBrushMode s = false /\
        showGrid s = true /\
        gridSize s = 20%Z /\
        imageId s = None /\
        bufferSize s = 20%nat /\
        length (distanceBuffer s) = 20%nat /\
        distanceBuffer s = replicate 20 0 /\
        length (pointBuffer s) = 20%nat /\
        pointBuffer s = replicate 20 origin /\
        bufferIndex s = 0%nat /\
        canvasHistory s = []
  | Some (HTMLImageElement _) | Some (OtherElement _) | None =>
      new_CanvasDrawer canvas context2d
      = inl (Error "Invalid canvas element provided.")
  end.
Proof.
  destruct canvas as [[w h | src | tag]|]; try reflexivity.
  exists (_init (initial_fields w h c)).
  repeat split.
Qed.

(** ** The locals of the brush renderers *)

Lemma Int_part_0 : Int_part 0 = 0%Z.
Proof. symmetry. apply Int_part_spec. simpl. lra. Qed.

Lemma currentD_measure (x y : R) (s : CanvasDrawer) :
  currentD (fst (measure x y s))
  = sqrt ((x - lastX s) ^ 2 + (y - lastY s) ^ 2).
Proof. reflexivity. Qed.

Lemma currentD_coincident (s : CanvasDrawer) :
  currentD (fst (measure (lastX s) (lastY s) s)) = 0.
Proof.
  rewrite currentD_measure.
  replace ((lastX s - lastX s) ^ 2 + (lastY s - lastY s) ^ 2) with 0 by ring.
  apply sqrt_0.
Qed.

(** The number of stamps is the clamped floor of the program text. *)
Lemma numCircles_measure (x y : R) (s : CanvasDrawer) :
  numCircles (fst (measure x y s))
  = Z.max 1 (Int_part (currentD (fst (measure x y s)) * circlesPerPixel s)).
Proof. reflexivity. Qed.

Lemma numCircles_nonzero (x y : R) (s : CanvasDrawer) :
  IZR (numCircles (fst (measure x y s))) <> 0.
Proof.
  rewrite numCircles_measure. apply not_0_IZR.
  pose proof (Z.le_max_l 1
                (Int_part (currentD (fst (measure x y s))
                           * circlesPerPixel s))).
  lia.
Qed.

(** C4. Whatever the two points of the segment, the number of stamps is at
    least 1, so the interpolation step never divides by zero; it is exactly
    1 when the two points coincide. *)
Theorem numCircles_at_least_1 (x y : R) (s : CanvasDrawer) :
  (1 <= numCircles (fst (measure x y s)))%Z /\
  IZR (numCircles (fst (measure x y s))) <> 0 /\
  numCircles (fst (measure (lastX s) (lastY s) s)) = 1%Z.
Proof.
  split; [| split].
  - rewrite numCircles_measure. apply Z.le_max_l.
  - apply numCircles_nonzero.
  - rewrite numCircles_measure, currentD_coincident, Rmult_0_l, Int_part_0.
    reflexivity.
Qed.

(** ** What [draw] does to the smoothing buffer *)

Lemma record_sample_settings (now : Z) (point : Point) (s : CanvasDrawer) :
  settings (fields (record_sample now point s)) = settings s.
Proof.
  unfold record_sample.
  destruct (last (canvasHistory s)) as [open_stroke|]; [| reflexivity].
  now destruct (open_stroke !! 0%nat).
Qed.

Lemma engine_fields_settings (s s' : CanvasDrawer) :
  engine_fields s' = engine_fields s -> settings s' = settings s.
Proof.
  intros E. change (settings (engine_fields s') = settings (engine_fields s)).
  now rewrite E.
Qed.

(** A [draw] call in brush mode writes the segment's length and end point
    at the cursor and advances the cursor, whether or not the stamps can be
    painted; in line mode the buffer is left alone. *)
Lemma draw_settings (document : gmap string Element) (now : Z)
    (point : Point) (s : CanvasDrawer) :
  settings (fields (draw document now point s))
  = if isDrawing s && brushMode s
    then settings (snd (measure (px point) (py point) s))
    else settings s.
Proof.
  unfold draw.
  destruct (isDrawing s); simpl; [| reflexivity].
  destruct (brushMode s); simpl.
  - pose proof (_drawImage_engine_fields document (px point) (py point) s) as E.
    apply engine_fields_settings in E.
    destruct (_drawImage document (px point) (py point) s) as [s' | e s'];
      simpl in *.
    + now rewrite record_sample_settings.
    + exact E.
  - now rewrite record_sample_settings.
Qed.

(** The average that a brush-mode call computes after writing is the
    average of the buffer that the call leaves. *)
Lemma draw_buffer_average (document : gmap string Element) (now : Z)
    (point : Point) (s : CanvasDrawer) :
  isDrawing s = true ->
  brushMode s = true ->
  buffer_average (fields (draw document now point s))
  = avgDistance (fst (measure (px point) (py point) s)).
Proof.
  intros Hd Hb.
  pose proof (draw_settings document now point s) as E.
  rewrite Hd, Hb in E. cbn [andb] in E.
  exact (f_equal buffer_average E).
Qed.

Lemma foldl_Rplus_zeros (n : nat) (a : R) :
  foldl Rplus a (replicate n 0) = a.
Proof.
  revert a. induction n as [|n IH]; intros a; simpl; [reflexivity |].
  rewrite IH. lra.
Qed.

(** While fewer than 20 distances [ds] have been written since the buffer
    was reset, the average that each further call computes is the sum of
    what has been written, over 20. *)
Lemma stamp_run_average (calls : list DrawCall) :
  forall (s : CanvasDrawer) (ds : list R) (g : Segment),
    well_formed s ->
    isDrawing s = true ->
    brushMode s = true ->
    distanceBuffer s = ds ++ replicate (20 - length ds) 0 ->
    bufferIndex s = length ds ->
    (length ds + length calls <= 20)%nat ->
    last (stamp_segments calls s) = Some g ->
    avgDistance g
    = foldl Rplus 0 (ds ++ map currentD (stamp_segments calls s)) / 20.
Proof.
  induction calls as [|c calls IH]; intros s ds g Hwf Hdraw Hbrush Hbuf Hidx
    Hlen Hlast; [discriminate |].
  cbn [stamp_segments map length] in Hlast, Hlen |- *.
  set (x := px (call_point c)) in *. set (y := py (call_point c)) in *.
  set (s' := draw_call s c) in *.
  set (d := currentD (fst (measure x y s))).
  assert (settings s' = settings (snd (measure x y s))) as E.
  { unfold s', draw_call. rewrite draw_settings, Hdraw, Hbrush. reflexivity. }
  assert (distanceBuffer (snd (measure x y s))
          = (ds ++ [d]) ++ replicate (20 - length (ds ++ [d])) 0) as Hbuf'.
  { change (distanceBuffer (snd (measure x y s)))
      with (<[bufferIndex s := d]> (distanceBuffer s)).
    rewrite Hbuf, Hidx.
    replace (20 - length ds)%nat with (S (20 - length (ds ++ [d]))%nat)
      by (rewrite length_app; simpl; lia).
    replace (length ds) with (length ds + 0)%nat at 1 by lia.
    rewrite insert_app_r. simpl. now rewrite <- app_assoc. }
  destruct Hwf as [H1 H2 H3 H4 H5 H6].
  destruct (stamp_segments calls s') as [|g' gs] eqn:Hsegs.
  - (* the last call of the run *)
    injection Hlast as <-.
    change (buffer_average (snd (measure x y s))
            = foldl Rplus 0 (ds ++ [d]) / 20).
    unfold buffer_average. rewrite Hbuf'.
    rewrite foldl_app, foldl_Rplus_zeros.
    change (bufferSize (snd (measure x y s))) with (bufferSize s).
    rewrite H1. simpl. f_equal. lra.
  - change (last (g' :: gs) = Some g) in Hlast.
    rewrite <- Hsegs in Hlast |- *.
    replace (ds ++ d :: map currentD (stamp_segments calls s'))
      with ((ds ++ [d]) ++ map currentD (stamp_segments calls s'))
      by now rewrite <- app_assoc.
    apply IH.
    + apply draw_well_formed. constructor; assumption.
    + exact (eq_trans (f_equal isDrawing E) Hdraw).
    + exact (eq_trans (f_equal brushMode E) Hbrush).
    + rewrite <- Hbuf'. exact (f_equal distanceBuffer E).
    + transitivity (bufferIndex (snd (measure x y s)));
        [exact (f_equal bufferIndex E) |].
      change (bufferIndex (snd (measure x y s)))
        with ((bufferIndex s + 1) mod bufferSize s)%nat.
      rewrite Hidx, H1, length_app. cbn [length].
      apply Nat.mod_small.
      destruct calls; [discriminate Hsegs | cbn [length] in Hlen; lia].
    + rewrite length_app. simpl. lia.
    + exact Hlast.
Qed.

Lemma startDrawing_buffer (now : Z) (p : Point) (s : CanvasDrawer) :
  well_formed s ->
  distanceBuffer (startDrawing now p s) = replicate 20 0 /\
  pointBuffer (startDrawing now p s) = replicate 20 p /\
  bufferIndex (startDrawing now p s) = 0%nat.
Proof.
  intros [H1 H2 H3 H4 H5 H6]. simpl.
  rewrite H2, H3, H1. now destruct p.
Qed.

(** C3. [startDrawing] fills the 20 distances with zeros and puts the cursor
    on 0.  The first brush-mode [draw] after it, for a segment of length d,
    computes the average d / 20; and as long as fewer than 20 calls have been
    made, the average that the last of them computes is the sum of the
    lengths written so far, divided by 20. *)
Theorem zero_fill_dilution (s : CanvasDrawer) (now : Z) (p : Point)
    (calls : list DrawCall) (g : Segment) :
  reachable s ->
  brushMode s = true ->
  (length calls < 20)%nat ->
  last (stamp_segments calls (startDrawing now p s)) = Some g ->
  (forall (document : gmap string Element) (now' : Z) (x y : R),
      currentD (fst (measure x y (startDrawing now p s)))
      = sqrt ((x - px p) ^ 2 + (y - py p) ^ 2) /\
      avgDistance (fst (measure x y (startDrawing now p s)))
      = sqrt ((x - px p) ^ 2 + (y - py p) ^ 2) / 20 /\
      buffer_average
        (fields (draw document now' (mkPoint x y) (startDrawing now p s)))
      = sqrt ((x - px p) ^ 2 + (y - py p) ^ 2) / 20) /\
  avgDistance g
  = foldl Rplus 0
      (map currentD (stamp_segments calls (startDrawing now p s))) / 20.
Proof.
  intros Hreach Hbrush Hlen Hlast.
  pose proof (reachable_well_formed s Hreach) as Hwf.
  pose proof (perform_well_formed s (StartDrawing now p) Hwf) as Hwf1.
  destruct (startDrawing_buffer now p s Hwf) as (Hbuf & _ & Hidx).
  assert (forall calls' g',
             (length calls' <= 20)%nat ->
             last (stamp_segments calls' (startDrawing now p s)) = Some g' ->
             avgDistance g'
             = foldl Rplus 0
                 (map currentD (stamp_segments calls' (startDrawing now p s)))
               / 20) as Hrun.
  { intros calls' g' Hlen' Hlast'.
    apply (stamp_run_average calls' (startDrawing now p s) [] g');
      try assumption; try reflexivity; simpl; lia. }
  split.
  - intros document now' x y. split; [reflexivity |].
    assert (avgDistance (fst (measure x y (startDrawing now p s)))
            = sqrt ((x - px p) ^ 2 + (y - py p) ^ 2) / 20) as Havg.
    { specialize (Hrun [mkDrawCall ∅ 0 (mkPoint x y)]
                    (fst (measure x y (startDrawing now p s)))).
      cbn [stamp_segments map call_point px py last length] in Hrun.
      rewrite Hrun by (lia || reflexivity).
      change (currentD (fst (measure x y (startDrawing now p s))))
        with (sqrt ((x - px p) ^ 2 + (y - py p) ^ 2)).
      cbn [foldl]. f_equal. lra. }
    split; [exact Havg |].
    rewrite draw_buffer_average by (reflexivity || exact Hbrush).
    exact Havg.
  - apply Hrun; [lia | exact Hlast].
Qed.

Lemma zero_fill_dilution_witness :
  (forall (document : gmap string Element) (now' : Z) (x y : R),
      currentD (fst (measure x y (startDrawing 1000 origin fresh_brush)))
      = sqrt ((x - px origin) ^ 2 + (y - py origin) ^ 2) /\
      avgDistance (fst (measure x y (startDrawing 1000 origin fresh_brush)))
      = sqrt ((x - px origin) ^ 2 + (y - py origin) ^ 2) / 20 /\
      buffer_average
        (fields (draw document now' (mkPoint x y)
                   (startDrawing 1000 origin fresh_brush)))
      = sqrt ((x - px origin) ^ 2 + (y - py origin) ^ 2) / 20) /\
  avgDistance
    (fst (measure 3 10
            (draw_call (startDrawing 1000 origin fresh_brush) move1)))
  = foldl Rplus 0
      (map currentD
         (stamp_segments [move1; move2]
            (startDrawing 1000 origin fresh_brush))) / 20.
Proof.
  apply (zero_fill_dilution fresh_brush 1000 origin [move1; move2]
           (fst (measure 3 10
                   (draw_call (startDrawing 1000 origin fresh_brush) move1)))).
  - apply (reach_call (setBrushMode true fresh) (SetBrushImage (Some "brush"))).
    apply (reach_call fresh (SetBrushMode true)).
    apply (reach_new (Some (HTMLCanvasElement 100 100)) (Some blank_context)).
    reflexivity.
  - reflexivity.
  - simpl. lia.
  - reflexivity.
Defined.

(** ** Strokes and the history *)

(** A [draw] call leaves the history as it is or adds one sample at the end
    of the last stroke. *)
Lemma record_sample_history (now : Z) (point : Point) (s : CanvasDrawer)
    (strokes : list (list Sample)) (first : Sample) (rest : list Sample) :
  canvasHistory s = strokes ++ [first :: rest] ->
  record_sample now point s
  = Returned
      (set_last (px point) (py point)
         (set_canvasHistory
            (strokes ++
               [first :: rest
                ++ [mkSample (px point) (py point) (now - st first)]])
            s)).
Proof.
  intros H. unfold record_sample.
  rewrite H, last_snoc. cbn [lookup list_lookup].
  rewrite length_app. cbn [length].
  replace (length strokes + 1 - 1)%nat with (length strokes + 0)%nat by lia.
  rewrite insert_app_r. reflexivity.
Qed.

Lemma draw_history (c : DrawCall) (s : CanvasDrawer)
    (strokes : list (list Sample)) (first : Sample) (rest : list Sample) :
  canvasHistory s = strokes ++ [first :: rest] ->
  canvasHistory (draw_call s c) = strokes ++ [first :: rest] \/
  canvasHistory (draw_call s c)
  = strokes ++
      [first :: rest
       ++ [mkSample (px (call_point c)) (py (call_point c))
                    (call_now c - st first)]].
Proof.
  intros H. unfold draw_call, draw.
  destruct (isDrawing s); simpl; [| now left].
  destruct (brushMode s); simpl.
  - pose proof (_drawImage_engine_fields (call_document c)
                  (px (call_point c)) (py (call_point c)) s) as E.
    apply (f_equal canvasHistory) in E. simpl in E.
    destruct (_drawImage (call_document c) (px (call_point c))
                (py (call_point c)) s) as [s' | e s']; simpl in *.
    + right. rewrite (record_sample_history _ _ s' strokes first rest)
        by congruence.
      reflexivity.
    + left. congruence.
  - right.
    rewrite (record_sample_history _ _ _ strokes first rest) by exact H.
    reflexivity.
Qed.

(** ** Stamps whose image cannot be found *)

Lemma seqZ_stamps (n : Z) :
  (1 <= n)%Z -> seqZ 0 (n + 1) = 0%Z :: seqZ 1 n.
Proof.
  intros H. rewrite seqZ_cons by lia.
  f_equal. f_equal. lia.
Qed.

(** The first stamp already raises, with the buffer written and nothing
    painted. *)
Lemma _drawImage_unresolved (document : gmap string Element) (x y : R)
    (s : CanvasDrawer) :
  is_image_source (getElementById document (imageId s)) = false ->
  _drawImage document x y s = Threw TypeError (snd (measure x y s)).
Proof.
  intros H. unfold _drawImage.
  destruct (measure x y s) as [g s1] eqn:Hm.
  assert (imageId s1 = imageId s) as Hid
    by (now replace s1 with (snd (measure x y s)) by now rewrite Hm).
  assert (1 <= numCircles g)%Z as Hn.
  { replace g with (fst (measure x y s)) by now rewrite Hm.
    rewrite numCircles_measure. apply Z.le_max_l. }
  rewrite seqZ_stamps by exact Hn.
  cbn [for_each and_then snd]. unfold on_ctx. rewrite Hid.
  destruct (getElementById document (imageId s)) as [[w h | src | tag]|];
    try discriminate; reflexivity.
Qed.

Lemma draw_unresolved (document : gmap string Element) (now : Z)
    (p : Point) (s : CanvasDrawer) :
  isDrawing s = true ->
  brushMode s = true ->
  is_image_source (getElementById document (imageId s)) = false ->
  draw document now p s
  = Threw TypeError
      (buffer_write (sqrt ((px p - lastX s) ^ 2 + (py p - lastY s) ^ 2))
                    (mkPoint (px p) (py p)) s).
Proof.
  intros Hd Hb Hu. unfold draw. rewrite Hd, Hb. cbn [negb].
  rewrite _drawImage_unresolved by exact Hu. reflexivity.
Qed.

(** C5, as the code has it.  In a brush-mode [draw] call of a drawing
    engine, when the stamp handle resolves to nothing that [drawImage]
    accepts, no stamp is painted, but the call raises a TypeError at its
    first stamp.  By then the segment has been written to the smoothing
    buffer; the sample is not added to the open stroke and the last point is
    not moved.  The engine is still drawing and the history is as it was. *)
Theorem draw_unresolved_stamp_raises (document : gmap string Element)
    (now : Z) (p : Point) (s : CanvasDrawer) :
  getIsDrawing s = true ->
  getBrushMode s = true ->
  is_image_source (getElementById document (imageId s)) = false ->
  draw document now p s
  = Threw TypeError
      (buffer_write (sqrt ((px p - lastX s) ^ 2 + (py p - lastY s) ^ 2))
                    (mkPoint (px p) (py p)) s) /\
  ctx (fields (draw document now p s)) = ctx s /\
  canvasHistory (fields (draw document now p s)) = canvasHistory s /\
  lastX (fields (draw document now p s)) = lastX s /\
  lastY (fields (draw document now p s)) = lastY s /\
  getIsDrawing (fields (draw document now p s)) = true.
Proof.
  unfold getIsDrawing, getBrushMode. intros Hd Hb Hu.
  rewrite (draw_unresolved document now p s Hd Hb Hu).
  repeat split. exact Hd.
Qed.

Lemma draw_unresolved_stamp_raises_witness :
  draw ∅ 1005 (mkPoint 20 0) (startDrawing 1000 origin (setBrushMode true fresh))
  = Threw TypeError
      (buffer_write
         (sqrt ((px (mkPoint 20 0)
                 - lastX (startDrawing 1000 origin (setBrushMode true fresh))) ^ 2
                + (py (mkPoint 20 0)
                   - lastY (startDrawing 1000 origin (setBrushMode true fresh)))
                  ^ 2))
         (mkPoint (px (mkPoint 20 0)) (py (mkPoint 20 0)))
         (startDrawing 1000 origin (setBrushMode true fresh))) /\
  ctx (fields (draw ∅ 1005 (mkPoint 20 0)
                 (startDrawing 1000 origin (setBrushMode true fresh))))
  = ctx (startDrawing 1000 origin (setBrushMode true fresh)) /\
  canvasHistory
    (fields (draw ∅ 1005 (mkPoint 20 0)
               (startDrawing 1000 origin (setBrushMode true fresh))))
  = canvasHistory (startDrawing 1000 origin (setBrushMode true fresh)) /\
  lastX (fields (draw ∅ 1005 (mkPoint 20 0)
                   (startDrawing 1000 origin (setBrushMode true fresh))))
  = lastX (startDrawing 1000 origin (setBrushMode true fresh)) /\
  lastY (fields (draw ∅ 1005 (mkPoint 20 0)
                   (startDrawing 1000 origin (setBrushMode true fresh))))
  = lastY (startDrawing 1000 origin (setBrushMode true fresh)) /\
  getIsDrawing
    (fields (draw ∅ 1005 (mkPoint 20 0)
               (startDrawing 1000 origin (setBrushMode true fresh))))
  = true.
Proof.
  apply (draw_unresolved_stamp_raises ∅ 1005 (mkPoint 20 0)
           (startDrawing 1000 origin (setBrushMode true fresh)));
    reflexivity.
Defined.

(** C5 as the specification words it fails: with no stamp handle set and no
    element called ["null"] on the page, a brush-mode [draw] does not return,
    and the stroke is left with its first sample only. *)
Lemma draw_missing_stamp_does_not_return :
  getIsDrawing (startDrawing 1000 origin (setBrushMode true fresh)) = true /\
  getBrushMode (startDrawing 1000 origin (setBrushMode true fresh)) = true /\
  getElementById ∅ (imageId (startDrawing 1000 origin (setBrushMode true fresh)))
  = None /\
  (forall s',
      draw ∅ 1005 (mkPoint 20 0)
        (startDrawing 1000 origin (setBrushMode true fresh))
      <> Returned s') /\
  canvasHistory
    (fields (draw ∅ 1005 (mkPoint 20 0)
               (startDrawing 1000 origin (setBrushMode true fresh))))
  = [[mkSample 0 0 0]].
Proof.
  do 3 (split; [reflexivity |]).
  split.
  - intros s'. rewrite draw_unresolved by reflexivity. discriminate.
  - rewrite draw_unresolved by reflexivity. reflexivity.
Qed.

(** ** The time of a sample *)

Lemma draw_line (document : gmap string Element) (now : Z) (p : Point)
    (s : CanvasDrawer) (strokes : list (list Sample)) (first : Sample)
    (rest : list Sample) :
  isDrawing s = true ->
  brushMode s = false ->
  canvasHistory s = strokes ++ [first :: rest] ->
  draw document now p s
  = Returned
      (set_last (px p) (py p)
         (set_canvasHistory
            (strokes ++
               [first :: rest ++ [mkSample (px p) (py p) (now - st first)]])
            (_drawLine (px p) (py p) s))).
Proof.
  intros Hd Hb Hh. unfold draw. rewrite Hd, Hb. cbn [negb and_then].
  now rewrite (record_sample_history now p _ strokes first rest).
Qed.

(** The first sample of a stroke carries [t: 0], and [draw] subtracts that
    [t] from the clock: what it stores is the clock itself, whenever the
    stroke was started. *)
Lemma draw_after_start_time (document : gmap string Element) (now0 now : Z)
    (p0 p : Point) (s : CanvasDrawer) :
  brushMode s = false ->
  canvasHistory
    (fields (draw document now p (startDrawing now0 p0 s)))
  = canvasHistory s
    ++ [[mkSample (px p0) (py p0) 0; mkSample (px p) (py p) now]].
Proof.
  intros Hb.
  rewrite (draw_line document now p (startDrawing now0 p0 s)
             (canvasHistory s) (mkSample (px p0) (py p0) 0) []);
    try reflexivity; [| exact Hb].
  cbn [fields set_last set_canvasHistory canvasHistory st app].
  now rewrite Z.sub_0_r.
Qed.

(** C2, at a stroke started when the clock shows 1000 ms and continued 5 ms
    later: the call returns, [lastT] holds the start time, and the sample
    added to the stroke carries 1005, the clock, where the time since the
    start is 5. *)
Theorem draw_sample_time_at_1005 :
  lastT (startDrawing 1000 origin fresh) = 1000%Z /\
  draw page 1005 (mkPoint 10 0) (startDrawing 1000 origin fresh)
  = Returned
      (fields (draw page 1005 (mkPoint 10 0) (startDrawing 1000 origin fresh)))
  /\
  canvasHistory
    (fields (draw page 1005 (mkPoint 10 0) (startDrawing 1000 origin fresh)))
  = [[mkSample 0 0 0; mkSample 10 0 1005]] /\
  (1005 - 1000 = 5)%Z.
Proof.
  split; [reflexivity |].
  split.
  - rewrite (draw_line page 1005 (mkPoint 10 0) (startDrawing 1000 origin fresh)
               [] (mkSample 0 0 0) []); reflexivity.
  - split; [| reflexivity].
    exact (draw_after_start_time page 1000 1005 origin (mkPoint 10 0) fresh
             eq_refl).
Qed.

(** ** Stamps whose image is on the page *)

Lemma set_ctx_ctx (s : CanvasDrawer) : set_ctx (ctx s) s = s.
Proof. now destruct s. Qed.

Lemma for_each_returns {A : Type} (l : list A)
    (body : A -> CanvasDrawer -> Completion) (s : CanvasDrawer) :
  (forall i c, exists c', body i (set_ctx c s) = Returned (set_ctx c' s)) ->
  exists c', for_each l body s = Returned (set_ctx c' s).
Proof.
  intros Hbody.
  assert (forall c, exists c',
             for_each l body (set_ctx c s) = Returned (set_ctx c' s)) as H.
  { induction l as [|i l IH]; intros c; cbn [for_each].
    - now exists c.
    - destruct (Hbody i c) as [c1 ->]. cbn [and_then]. apply IH. }
  specialize (H (ctx s)). now rewrite set_ctx_ctx in H.
Qed.

Lemma _drawImage_resolved (document : gmap string Element) (x y : R)
    (s : CanvasDrawer) (src : string) :
  getElementById document (imageId s) = Some (HTMLImageElement src) ->
  exists c, _drawImage document x y s = Returned (set_ctx c (snd (measure x y s))).
Proof.
  intros H. unfold _drawImage.
  destruct (measure x y s) as [g s1] eqn:Hm.
  assert (imageId s1 = imageId s) as Hid
    by (now replace s1 with (snd (measure x y s)) by now rewrite Hm).
  cbn [snd]. apply for_each_returns. intros i c.
  unfold on_ctx. cbn [imageId set_ctx]. rewrite Hid, H. cbn [drawImage].
  eexists. reflexivity.
Qed.

Lemma draw_stamp (document : gmap string Element) (now : Z) (p : Point)
    (s : CanvasDrawer) (src : string) (strokes : list (list Sample))
    (first : Sample) (rest : list Sample) :
  isDrawing s = true ->
  brushMode s = true ->
  getElementById document (imageId s) = Some (HTMLImageElement src) ->
  canvasHistory s = strokes ++ [first :: rest] ->
  exists c,
    draw document now p s
    = Returned
        (set_last (px p) (py p)
           (set_canvasHistory
              (strokes ++
                 [first :: rest ++ [mkSample (px p) (py p) (now - st first)]])
              (set_ctx c (snd (measure (px p) (py p) s))))).
Proof.
  intros Hd Hb Hi Hh. unfold draw. rewrite Hd, Hb. cbn [negb].
  destruct (_drawImage_resolved document (px p) (py p) s src Hi) as [c ->].
  exists c. cbn [and_then].
  now rewrite (record_sample_history now p _ strokes first rest).
Qed.

(** The radius of [_drawBrush] is the interpolation between the two
    averages. *)
Lemma _drawBrush_r_lerp (x y : R) (s : CanvasDrawer) (i : Z) :
  _drawBrush_r (fst (measure x y s)) i
  = lerp (avgDistanceLast (fst (measure x y s)))
         (avgDistance (fst (measure x y s)))
         (IZR i / IZR (numCircles (fst (measure x y s)))).
Proof.
  unfold _drawBrush_r, lerp. field. apply numCircles_nonzero.
Qed.

Lemma segment_length_horizontal (a b y : R) :
  a <= b -> sqrt ((b - a) ^ 2 + (y - y) ^ 2) = b - a.
Proof.
  intros H.
  replace ((b - a) ^ 2 + (y - y) ^ 2) with ((b - a) * (b - a)) by ring.
  apply sqrt_square. lra.
Qed.

Lemma Int_part_2 : Int_part (20 * (1 / 10)) = 2%Z.
Proof. symmetry. apply Int_part_spec. simpl. lra. Qed.

(** The locals of a segment, from the fields the renderer reads. *)
Lemma measure_fields (x y : R) (s : CanvasDrawer) :
  fst (measure x y s)
  = mkSegment
      (sqrt ((x - lastX s) ^ 2 + (y - lastY s) ^ 2))
      (foldl Rplus 0 (distanceBuffer s) / INR (bufferSize s))
      (foldl Rplus 0
         (<[bufferIndex s := sqrt ((x - lastX s) ^ 2 + (y - lastY s) ^ 2)]>
            (distanceBuffer s))
       / INR (bufferSize s))
      (Z.max 1
         (Int_part (sqrt ((x - lastX s) ^ 2 + (y - lastY s) ^ 2)
                    * circlesPerPixel s))).
Proof. reflexivity. Qed.

(** A segment of length 25 gets [max(1, floor(2.5)) = 2] stamps after the
    first. *)
Example numCircles_25 :
  numCircles (fst (measure 25 0 (startDrawing 1000 origin fresh_brush))) = 2%Z.
Proof.
  rewrite measure_fields. cbn [numCircles].
  change (lastX (startDrawing 1000 origin fresh_brush)) with 0.
  change (lastY (startDrawing 1000 origin fresh_brush)) with 0.
  change (circlesPerPixel (startDrawing 1000 origin fresh_brush)) with (1 / 10).
  rewrite (segment_length_horizontal 0 25 0) by lra.
  replace (Int_part ((25 - 0) * (1 / 10))) with 2%Z; [reflexivity |].
  apply Int_part_spec. simpl. lra.
Qed.

(** The engine after the first segment of the example stroke: the call
    returned, so the last point has moved, and the buffer holds one length of
    20. *)
Lemma dragged_fields :
  isDrawing dragged = true /\
  brushMode dragged = true /\
  lastX dragged = 20 /\
  lastY dragged = 0 /\
  distanceBuffer dragged = 20 :: replicate 19 0 /\
  bufferIndex dragged = 1%nat /\
  bufferSize dragged = 20%nat /\
  circlesPerPixel dragged = 1 / 10.
Proof.
  unfold dragged, draw_call.
  cbn [call_document call_now call_point].
  destruct (draw_stamp page 1005 (mkPoint 20 0)
              (startDrawing 1000 origin fresh_brush) "brush.png"
              [] (mkSample 0 0 0) [] eq_refl eq_refl eq_refl eq_refl)
    as [c ->].
  cbn [fields].
  repeat split.
  change (distanceBuffer _) with
    (<[0%nat := sqrt ((20 - 0) ^ 2 + (0 - 0) ^ 2)]> (replicate 20 0)).
  rewrite (segment_length_horizontal 0 20 0) by lra.
  cbn. f_equal. lra.
Qed.

Lemma dragged_segment :
  fst (measure 40 0 dragged) = mkSegment 20 1 2 2.
Proof.
  destruct dragged_fields as (_ & _ & Hx & Hy & Hbuf & Hidx & Hsize & Hcpp).
  rewrite measure_fields, Hx, Hy, Hbuf, Hidx, Hsize, Hcpp.
  rewrite (segment_length_horizontal 20 40 0) by lra.
  replace (40 - 20) with 20 by lra.
  rewrite Int_part_2.
  assert (INR 20 = 20) as -> by (simpl; lra).
  cbn [replicate insert list_insert foldl].
  f_equal; lra.
Qed.

(** C1, at the second segment of a brush stroke: origin to (20, 0), then on
    to (40, 0).  The average is 1 before the call and 2 after it, and there
    are 2 stamps after the first.  For the first stamp (i = 0) the
    interpolation gives the average before, 1; [_drawImage] computes 1/2.
    [_drawBrush], with the same locals, computes 1. *)
Theorem drawImage_radius_at_second_segment :
  isDrawing dragged = true /\
  brushMode dragged = true /\
  avgDistanceLast (fst (measure 40 0 dragged)) = 1 /\
  avgDistance (fst (measure 40 0 dragged)) = 2 /\
  numCircles (fst (measure 40 0 dragged)) = 2%Z /\
  lerp (avgDistanceLast (fst (measure 40 0 dragged)))
       (avgDistance (fst (measure 40 0 dragged)))
       (IZR 0 / IZR (numCircles (fst (measure 40 0 dragged)))) = 1 /\
  _drawImage_r (fst (measure 40 0 dragged)) 0 = 1 / 2 /\
  _drawBrush_r (fst (measure 40 0 dragged)) 0 = 1.
Proof.
  destruct dragged_fields as (Hd & Hb & _).
  rewrite dragged_segment.
  unfold lerp, _drawImage_r, _drawBrush_r.
  cbn [avgDistanceLast avgDistance numCircles].
  repeat split; try assumption; lra.
Qed.

(** * Further properties of the engine *)

(** ** The grid *)

Lemma for_lt_fuel_positions (fuel : nat) (x limit step : Z)
    (body : Z -> Context -> Context) (c : Context) :
  for_lt_fuel fuel x limit step body c
  = foldl (fun c x => body x c) c (positions_fuel fuel x limit step).
Proof.
  revert x c. induction fuel as [|fuel IH]; intros x c; simpl; [reflexivity |].
  destruct (x <? limit)%Z; [apply IH | reflexivity].
Qed.

Lemma for_lt_positions (from limit step : Z)
    (body : Z -> Context -> Context) (c : Context) :
  for_lt from limit step body c
  = foldl (fun c x => body x c) c (positions from limit step).
Proof. apply for_lt_fuel_positions. Qed.

(** With a positive step and enough fuel, the counter takes the values
    [x0], [x0 + step], ... below [limit], and no other. *)
Lemma positions_fuel_elem (fuel : nat) (x0 limit step y : Z) :
  (0 < step)%Z ->
  (Z.to_nat (limit - x0) <= fuel)%nat ->
  y ∈ positions_fuel fuel x0 limit step
  <-> (x0 <= y < limit)%Z /\ (step | y - x0)%Z.
Proof.
  intros Hstep. revert x0.
  induction fuel as [|fuel IH]; intros x0 Hfuel; simpl.
  - split; [intros H; inversion H | lia].
  - destruct (Z.ltb_spec x0 limit) as [Hlt | Hge].
    + rewrite elem_of_cons, IH by lia. split.
      * intros [-> | [Hr Hd]].
        -- split; [lia |]. rewrite Z.sub_diag. apply Z.divide_0_r.
        -- split; [lia |].
           replace (y - x0)%Z with (y - (x0 + step) + step)%Z by lia.
           apply Z.divide_add_r; [exact Hd | apply Z.divide_refl].
      * intros [Hr Hd].
        destruct (Z.eq_dec y x0) as [-> | Hne]; [now left | right].
        assert (step <= y - x0)%Z by (apply Z.divide_pos_le; [lia | exact Hd]).
        split; [lia |].
        replace (y - (x0 + step))%Z with (y - x0 - step)%Z by lia.
        apply Z.divide_sub_r; [exact Hd | apply Z.divide_refl].
    + split; [intros H; inversion H | lia].
Qed.

Lemma positions_elem (limit step y : Z) :
  (0 < step)%Z ->
  y ∈ positions 0 limit step <-> (0 <= y < limit)%Z /\ (step | y)%Z.
Proof.
  intros Hstep. unfold positions.
  rewrite positions_fuel_elem by (exact Hstep || lia).
  now rewrite Z.sub_0_r.
Qed.

Lemma stroked_with_drawing_state (c c' : Context) (cmds : list PathCmd) :
  drawing_state c' = drawing_state c ->
  stroked_with c' cmds = stroked_with c cmds.
Proof.
  intros H. unfold stroked_with.
  injection H as -> -> -> -> ->. reflexivity.
Qed.

(** A loop that strokes one segment per value of its counter adds those
    strokes to the bitmap, in order, and keeps the drawing state. *)
Lemma foldl_segment_strokes (l : list Z) (x0 y0 x1 y1 : Z -> R) (c : Context) :
  drawing_state
    (foldl (fun c i =>
              stroke (lineTo (x1 i) (y1 i) (moveTo (x0 i) (y0 i) (beginPath c))))
       c l)
  = drawing_state c /\
  bitmap
    (foldl (fun c i =>
              stroke (lineTo (x1 i) (y1 i) (moveTo (x0 i) (y0 i) (beginPath c))))
       c l)
  = bitmap c
    ++ map (fun i => stroked_with c [MoveTo (x0 i) (y0 i); LineTo (x1 i) (y1 i)])
           l.
Proof.
  revert c. induction l as [|i l IH]; intros c; cbn [foldl map].
  - now rewrite app_nil_r.
  - destruct (IH (stroke (lineTo (x1 i) (y1 i)
                            (moveTo (x0 i) (y0 i) (beginPath c)))))
      as [Hs Hb].
    split; [exact Hs |].
    rewrite Hb. cbn [bitmap stroke set_bitmap]. rewrite <- app_assoc.
    reflexivity.
Qed.

(** What [_drawGrid] paints and the drawing state it leaves, as the loops
    compute them. *)
Lemma _drawGrid_paints (s : CanvasDrawer) :
  bitmap (ctx (_drawGrid s))
  = bitmap (ctx s)
    ++ map (fun x =>
              Stroked "#ddd" (1 / 2) (lineCap (ctx s)) (lineJoin (ctx s))
                (filter (ctx s))
                [MoveTo (IZR x) 0; LineTo (IZR x) (IZR (canvas_height s))])
           (positions 0 (canvas_width s) (gridSize s))
    ++ map (fun y =>
              Stroked "#ddd" (1 / 2) (lineCap (ctx s)) (lineJoin (ctx s))
                (filter (ctx s))
                [MoveTo 0 (IZR y); LineTo (IZR (canvas_width s)) (IZR y)])
           (positions 0 (canvas_height s) (gridSize s)) /\
  drawing_state (ctx (_drawGrid s))
  = mkDrawingState "#fff" 2 (lineCap (ctx s)) (lineJoin (ctx s))
      (filter (ctx s)).
Proof.
  set (c0 := set_lineWidth (1 / 2) (set_strokeStyle "#ddd" (ctx s))).
  destruct (foldl_segment_strokes (positions 0 (canvas_width s) (gridSize s))
              (fun x => IZR x) (fun _ => 0)
              (fun x => IZR x) (fun _ => IZR (canvas_height s)) c0)
    as [Hs1 Hb1].
  destruct (foldl_segment_strokes (positions 0 (canvas_height s) (gridSize s))
              (fun _ => 0) (fun y => IZR y)
              (fun _ => IZR (canvas_width s)) (fun y => IZR y)
              (for_lt 0 (canvas_width s) (gridSize s)
                 (fun x c =>
                    stroke (lineTo (IZR x) (IZR (canvas_height s))
                              (moveTo (IZR x) 0 (beginPath c)))) c0))
    as [Hs2 Hb2].
  rewrite <- !for_lt_positions in Hs1, Hb1, Hs2, Hb2.
  split.
  - unfold _drawGrid. cbn [ctx set_ctx bitmap set_lineWidth set_strokeStyle].
    fold c0. rewrite Hb2, Hb1, <- app_assoc.
    f_equal. f_equal.
    apply map_ext. intros y.
    now rewrite (stroked_with_drawing_state c0 _ _ Hs1).
  - unfold _drawGrid, drawing_state in *.
    cbn [ctx set_ctx set_lineWidth set_strokeStyle strokeStyle
           lineWidth lineCap lineJoin filter].
    fold c0.
    injection Hs2 as _ _ E1 E2 E3. injection Hs1 as _ _ F1 F2 F3.
    rewrite E1, E2, E3, F1, F2, F3. reflexivity.
Qed.

(** X1. [_drawGrid] adds to the bitmap one vertical line for every multiple
    of the grid step below the canvas width, then one horizontal line for
    every multiple below the height, each stroked in ["#ddd"] at width 1/2
    from edge to edge; it paints nothing else, and it leaves the stroke
    style ["#fff"] and the line width 2, with the caps, joins and filter it
    found. *)
Theorem drawGrid_lines (s : CanvasDrawer) :
  (0 < gridSize s)%Z ->
  bitmap (ctx (_drawGrid s))
  = bitmap (ctx s)
    ++ map (fun x =>
              Stroked "#ddd" (1 / 2) (lineCap (ctx s)) (lineJoin (ctx s))
                (filter (ctx s))
                [MoveTo (IZR x) 0; LineTo (IZR x) (IZR (canvas_height s))])
           (positions 0 (canvas_width s) (gridSize s))
    ++ map (fun y =>
              Stroked "#ddd" (1 / 2) (lineCap (ctx s)) (lineJoin (ctx s))
                (filter (ctx s))
                [MoveTo 0 (IZR y); LineTo (IZR (canvas_width s)) (IZR y)])
           (positions 0 (canvas_height s) (gridSize s)) /\
  (forall limit x : Z,
      x ∈ positions 0 limit (gridSize s)
      <-> (0 <= x < limit)%Z /\ (gridSize s | x)%Z) /\
  drawing_state (ctx (_drawGrid s))
  = mkDrawingState "#fff" 2 (lineCap (ctx s)) (lineJoin (ctx s))
      (filter (ctx s)).
Proof.
  intros Hstep.
  destruct (_drawGrid_paints s) as [Hb Hs].
  split; [exact Hb | split; [| exact Hs]].
  intros limit x. now apply positions_elem.
Qed.

Lemma drawGrid_lines_witness :
  bitmap (ctx (_drawGrid fresh))
  = bitmap (ctx fresh)
    ++ map (fun x =>
              Stroked "#ddd" (1 / 2) (lineCap (ctx fresh)) (lineJoin (ctx fresh))
                (filter (ctx fresh))
                [MoveTo (IZR x) 0; LineTo (IZR x) (IZR (canvas_height fresh))])
           (positions 0 (canvas_width fresh) (gridSize fresh))
    ++ map (fun y =>
              Stroked "#ddd" (1 / 2) (lineCap (ctx fresh)) (lineJoin (ctx fresh))
                (filter (ctx fresh))
                [MoveTo 0 (IZR y); LineTo (IZR (canvas_width fresh)) (IZR y)])
           (positions 0 (canvas_height fresh) (gridSize fresh)) /\
  (forall limit x : Z,
      x ∈ positions 0 limit (gridSize fresh)
      <-> (0 <= x < limit)%Z /\ (gridSize fresh | x)%Z) /\
  drawing_state (ctx (_drawGrid fresh))
  = mkDrawingState "#fff" 2 (lineCap (ctx fresh)) (lineJoin (ctx fresh))
      (filter (ctx fresh)).
Proof.
  apply (drawGrid_lines fresh). reflexivity.
Defined.

(** ** The filter of brush mode *)

Lemma for_each_preserves {A : Type} (P : CanvasDrawer -> Prop) (l : list A)
    (body : A -> CanvasDrawer -> Completion) (s : CanvasDrawer) :
  (forall i s', P s' -> P (fields (body i s'))) ->
  P s -> P (fields (for_each l body s)).
Proof.
  intros Hbody. revert s.
  induction l as [|i l IH]; intros s Hs; cbn [for_each]; [exact Hs |].
  specialize (Hbody i s Hs).
  destruct (body i s) as [s' | e s']; cbn [and_then fields] in *.
  - now apply IH.
  - exact Hbody.
Qed.

Lemma drawImage_drawing_state (image : option Element) (dx dy dw dh : R)
    (s : CanvasDrawer) :
  drawing_state (ctx (fields (on_ctx (drawImage image dx dy dw dh) s)))
  = drawing_state (ctx s).
Proof.
  unfold on_ctx, drawImage.
  destruct image as [[w h | src | tag]|]; try reflexivity.
  now destruct ((w =? 0)%Z || (h =? 0)%Z).
Qed.

Lemma _drawImage_drawing_state (document : gmap string Element) (x y : R)
    (s : CanvasDrawer) :
  drawing_state (ctx (fields (_drawImage document x y s)))
  = drawing_state (ctx s).
Proof.
  unfold _drawImage. destruct (measure x y s) as [g s1] eqn:Hm.
  assert (ctx s1 = ctx s) as <-
    by (now replace s1 with (snd (measure x y s)) by now rewrite Hm).
  apply (for_each_preserves
           (fun s' => drawing_state (ctx s') = drawing_state (ctx s1)));
    [| reflexivity].
  intros i s' Hs'. now rewrite drawImage_drawing_state.
Qed.

Lemma record_sample_ctx (now : Z) (point : Point) (s : CanvasDrawer) :
  ctx (fields (record_sample now point s)) = ctx s.
Proof.
  unfold record_sample.
  destruct (last (canvasHistory s)) as [open_stroke|]; [| reflexivity].
  now destruct (open_stroke !! 0%nat).
Qed.

(** [draw] paints with the drawing state it finds and leaves it as it is. *)
Lemma draw_drawing_state (document : gmap string Element) (now : Z)
    (point : Point) (s : CanvasDrawer) :
  drawing_state (ctx (fields (draw document now point s)))
  = drawing_state (ctx s).
Proof.
  unfold draw.
  destruct (isDrawing s); cbn [negb]; [| reflexivity].
  destruct (brushMode s).
  - pose proof (_drawImage_drawing_state document (px point) (py point) s) as E.
    destruct (_drawImage document (px point) (py point) s) as [s' | e s'];
      cbn [and_then fields] in *.
    + now rewrite record_sample_ctx.
    + exact E.
  - cbn [and_then]. now rewrite record_sample_ctx.
Qed.

Lemma _clearCanvas_filter (s : CanvasDrawer) :
  filter (ctx (_clearCanvas s)) = filter (ctx s).
Proof.
  rewrite _clearCanvas_repaints.
  destruct (showGrid s); [| reflexivity].
  destruct (_drawGrid_paints (blank_surface s)) as [_ H].
  exact (f_equal saved_filter H).
Qed.

Lemma draw_brushMode (document : gmap string Element) (now : Z)
    (point : Point) (s : CanvasDrawer) :
  brushMode (fields (draw document now point s)) = brushMode s.
Proof.
  pose proof (f_equal brushMode (draw_settings document now point s)) as E.
  now destruct (isDrawing s && brushMode s).
Qed.

(** ** A stroke in line mode *)

Lemma segments_drawing_state (c c' : Context) (from : Point)
    (pts : list Point) :
  drawing_state c' = drawing_state c -> segments c' from pts = segments c from pts.
Proof.
  intros H. revert from.
  induction pts as [|p pts IH]; intros from; cbn [segments]; [reflexivity |].
  now rewrite IH, (stroked_with_drawing_state c c' _ H).
Qed.

Lemma point_eta (p : Point) : mkPoint (px p) (py p) = p.
Proof. now destruct p. Qed.

Lemma line_run (calls : list DrawCall) :
  forall (s : CanvasDrawer) (strokes : list (list Sample)) (first : Sample)
         (rest : list Sample),
    isDrawing s = true ->
    brushMode s = false ->
    canvasHistory s = strokes ++ [first :: rest] ->
    draws calls s = Returned (draw_all calls s) /\
    canvasHistory (draw_all calls s)
    = strokes ++
        [first :: rest
         ++ map (fun c => mkSample (px (call_point c)) (py (call_point c))
                            (call_now c - st first)) calls] /\
    bitmap (ctx (draw_all calls s))
    = bitmap (ctx s)
      ++ segments (ctx s) (mkPoint (lastX s) (lastY s)) (map call_point calls) /\
    isDrawing (draw_all calls s) = true.
Proof.
  induction calls as [|c calls IH]; intros s strokes first rest Hd Hb Hh.
  - cbn [map segments]. rewrite !app_nil_r. now repeat split.
  - pose proof (draw_line (call_document c) (call_now c) (call_point c) s
                  strokes first rest Hd Hb Hh) as Hc.
    unfold draws in *. cbn [for_each]. rewrite Hc. cbn [and_then].
    change (draw_all (c :: calls) s) with (draw_all calls (draw_call s c)).
    unfold draw_call. rewrite Hc. cbn [fields].
    match goal with |- context [for_each calls _ ?s1] => set (s' := s1) end.
    destruct (IH s' strokes first
                (rest ++ [mkSample (px (call_point c)) (py (call_point c))
                                   (call_now c - st first)]))
      as (H1 & H2 & H3 & H4); try reflexivity; try assumption.
    split; [exact H1 |]. split; [| split; [| exact H4]].
    + rewrite H2, <- app_assoc. reflexivity.
    + rewrite H3. cbn [map segments].
      change (bitmap (ctx s'))
        with (bitmap (ctx s)
              ++ [stroked_with (ctx s)
                    [MoveTo (lastX s) (lastY s);
                     LineTo (px (call_point c)) (py (call_point c))]]).
      rewrite <- app_assoc. cbn [app]. do 2 f_equal.
      change (mkPoint (lastX s') (lastY s'))
        with (mkPoint (px (call_point c)) (py (call_point c))).
      rewrite point_eta.
      now apply segments_drawing_state.
Qed.

(** X3. A stroke in line mode.  After [startDrawing(p)], a run of [draw]
    calls in line mode never raises; it strokes one straight segment per
    call, from the point before to the point of the call, starting at [p],
    with the drawing state of the context; and the new stroke of the history
    holds [p] and the points of the calls, in order, and nothing else. *)
Theorem line_stroke (s : CanvasDrawer) (now : Z) (p : Point)
    (calls : list DrawCall) :
  getBrushMode s = false ->
  draws calls (startDrawing now p s)
  = Returned (draw_all calls (startDrawing now p s)) /\
  (exists samples,
      canvasHistory (draw_all calls (startDrawing now p s))
      = canvasHistory s ++ [samples] /\
      map (fun sm => mkPoint (sx sm) (sy sm)) samples
      = p :: map call_point calls) /\
  bitmap (ctx (draw_all calls (startDrawing now p s)))
  = bitmap (ctx s) ++ segments (ctx s) p (map call_point calls) /\
  getIsDrawing (draw_all calls (startDrawing now p s)) = true.
Proof.
  unfold getBrushMode, getIsDrawing. intros Hb.
  destruct (line_run calls (startDrawing now p s) (canvasHistory s)
              (mkSample (px p) (py p) 0) [])
    as (H1 & H2 & H3 & H4); try reflexivity; try exact Hb.
  split; [exact H1 |]. split; [| split; [| exact H4]].
  - eexists. split; [exact H2 |].
    cbn [map app sx sy]. rewrite point_eta. f_equal.
    rewrite map_map. apply map_ext. intros c. cbn [sx sy]. apply point_eta.
  - rewrite H3.
    change (mkPoint (lastX (startDrawing now p s)) (lastY (startDrawing now p s)))
      with (mkPoint (px p) (py p)).
    now rewrite point_eta.
Qed.

Lemma line_stroke_witness :
  draws [move1; move2] (startDrawing 1000 origin fresh)
  = Returned (draw_all [move1; move2] (startDrawing 1000 origin fresh)) /\
  (exists samples,
      canvasHistory (draw_all [move1; move2] (startDrawing 1000 origin fresh))
      = canvasHistory fresh ++ [samples] /\
      map (fun sm => mkPoint (sx sm) (sy sm)) samples
      = origin :: map call_point [move1; move2]) /\
  bitmap (ctx (draw_all [move1; move2] (startDrawing 1000 origin fresh)))
  = bitmap (ctx fresh)
    ++ segments (ctx fresh) origin (map call_point [move1; move2]) /\
  getIsDrawing (draw_all [move1; move2] (startDrawing 1000 origin fresh))
  = true.
Proof.
  apply (line_stroke fresh 1000 origin [move1; move2]). reflexivity.
Defined.

(** ** The stamps of a brush-mode call *)

Lemma for_each_stamps (l : list Z) (body : Z -> CanvasDrawer -> Completion)
    (s0 : CanvasDrawer) (image : Element) (fx fy : Z -> R) :
  (forall i c,
      body i (set_ctx c s0)
      = Returned
          (set_ctx
             (set_bitmap
                (bitmap c ++ [Stamped image (fx i) (fy i) 200 200 (filter c)])
                c)
             s0)) ->
  forall c,
    for_each l body (set_ctx c s0)
    = Returned
        (set_ctx
           (set_bitmap
              (bitmap c
               ++ map (fun i => Stamped image (fx i) (fy i) 200 200 (filter c)) l)
              c)
           s0).
Proof.
  intros Hbody.
  induction l as [|i l IH]; intros c; cbn [for_each map].
  - rewrite app_nil_r. now destruct c.
  - rewrite Hbody. cbn [and_then]. rewrite IH.
    cbn [bitmap set_bitmap filter]. now rewrite <- app_assoc.
Qed.

Lemma seqZ_ends (n : Z) :
  (1 <= n)%Z -> seqZ 0 (n + 1) = 0%Z :: seqZ 1 (n - 1) ++ [n].
Proof.
  intros H. rewrite seqZ_stamps by exact H. f_equal.
  replace n with ((n - 1) + 1)%Z at 1 by lia.
  rewrite seqZ_app by lia.
  replace (1 + (n - 1))%Z with n by lia. reflexivity.
Qed.

(** What a brush-mode call paints when the handle resolves to an image. *)
Lemma _drawImage_stamps (document : gmap string Element) (x y : R)
    (s : CanvasDrawer) (src : string) :
  getElementById document (imageId s) = Some (HTMLImageElement src) ->
  _drawImage document x y s
  = Returned
      (set_ctx
         (set_bitmap
            (bitmap (ctx s)
             ++ map (fun i =>
                       Stamped (HTMLImageElement src)
                         (lastX s + (x - lastX s)
                                    * (IZR i / IZR (numCircles (fst (measure x y s))))
                          - 100)
                         (lastY s + (y - lastY s)
                                    * (IZR i / IZR (numCircles (fst (measure x y s))))
                          - 100)
                         200 200 (filter (ctx s)))
                    (seqZ 0 (numCircles (fst (measure x y s)) + 1)))
            (ctx s))
         (snd (measure x y s))).
Proof.
  intros H. unfold _drawImage.
  destruct (measure x y s) as [g s1] eqn:Hm.
  assert (s1 = snd (measure x y s)) as Hs1 by now rewrite Hm.
  assert (imageId s1 = imageId s) as Hid by now rewrite Hs1.
  assert (lastX s1 = lastX s) as Hx by now rewrite Hs1.
  assert (lastY s1 = lastY s) as Hy by now rewrite Hs1.
  assert (ctx s1 = ctx s) as Hc by now rewrite Hs1.
  cbn [fst snd].
  rewrite <- (set_ctx_ctx s1) at 1.
  rewrite (for_each_stamps _ _ s1 (HTMLImageElement src)
             (fun i => lastX s + (x - lastX s) * (IZR i / IZR (numCircles g))
                       - 100)
             (fun i => lastY s + (y - lastY s) * (IZR i / IZR (numCircles g))
                       - 100)).
  - now rewrite Hc.
  - intros i c. unfold on_ctx.
    cbn [imageId lastX lastY ctx set_ctx]. rewrite Hid, H, Hx, Hy.
    reflexivity.
Qed.

(** X4. A brush-mode [draw] of a drawing engine whose handle resolves to an
    image stamps that image [numCircles + 1] times, which is at least
    twice: first centred on the last point, last centred on the point of the
    call, the others at even steps in between, every one in a box of 200 by
    200 whatever the radius, and with the filter of the context.  Nothing
    else is painted, whether or not the sample can then be recorded. *)
Theorem brush_stamps (document : gmap string Element) (now : Z) (p : Point)
    (s : CanvasDrawer) (src : string) :
  getIsDrawing s = true ->
  getBrushMode s = true ->
  getElementById document (imageId s) = Some (HTMLImageElement src) ->
  bitmap (ctx (fields (draw document now p s)))
  = bitmap (ctx s)
    ++ [Stamped (HTMLImageElement src) (lastX s - 100) (lastY s - 100) 200 200
          (filter (ctx s))]
    ++ map (fun i =>
              Stamped (HTMLImageElement src)
                (lastX s
                 + (px p - lastX s)
                   * (IZR i / IZR (numCircles (fst (measure (px p) (py p) s))))
                 - 100)
                (lastY s
                 + (py p - lastY s)
                   * (IZR i / IZR (numCircles (fst (measure (px p) (py p) s))))
                 - 100)
                200 200 (filter (ctx s)))
           (seqZ 1 (numCircles (fst (measure (px p) (py p) s)) - 1))
    ++ [Stamped (HTMLImageElement src) (px p - 100) (py p - 100) 200 200
          (filter (ctx s))] /\
  length (bitmap (ctx (fields (draw document now p s))))
  = (length (bitmap (ctx s))
     + Z.to_nat (numCircles (fst (measure (px p) (py p) s))) + 1)%nat.
Proof.
  unfold getIsDrawing, getBrushMode. intros Hd Hb Hi.
  set (n := numCircles (fst (measure (px p) (py p) s))).
  assert (1 <= n)%Z as Hn
    by (unfold n; rewrite numCircles_measure; apply Z.le_max_l).
  assert (IZR n <> 0) as Hn0 by (apply not_0_IZR; lia).
  assert (bitmap (ctx (fields (draw document now p s)))
          = bitmap (ctx s)
            ++ map (fun i =>
                      Stamped (HTMLImageElement src)
                        (lastX s + (px p - lastX s) * (IZR i / IZR n) - 100)
                        (lastY s + (py p - lastY s) * (IZR i / IZR n) - 100)
                        200 200 (filter (ctx s)))
                   (seqZ 0 (n + 1))) as Hbm.
  { unfold draw. rewrite Hd, Hb. cbn [negb].
    rewrite (_drawImage_stamps document (px p) (py p) s src Hi).
    cbn [and_then]. rewrite record_sample_ctx. reflexivity. }
  split.
  - rewrite Hbm, seqZ_ends by exact Hn.
    cbn [map app]. rewrite map_app. cbn [map].
    do 2 f_equal.
    + f_equal; unfold Rdiv; rewrite !Rmult_0_l, Rmult_0_r; lra.
    + do 2 f_equal.
      replace (IZR n / IZR n) with 1 by (field; exact Hn0).
      f_equal; lra.
  - rewrite Hbm, length_app, length_map, length_seqZ. lia.
Qed.

Lemma brush_stamps_witness :
  bitmap (ctx (fields (draw page 1005 (mkPoint 20 0)
                         (startDrawing 1000 origin fresh_brush))))
  = bitmap (ctx (startDrawing 1000 origin fresh_brush))
    ++ [Stamped (HTMLImageElement "brush.png")
          (lastX (startDrawing 1000 origin fresh_brush) - 100)
          (lastY (startDrawing 1000 origin fresh_brush) - 100) 200 200
          (filter (ctx (startDrawing 1000 origin fresh_brush)))]
    ++ map (fun i =>
              Stamped (HTMLImageElement "brush.png")
                (lastX (startDrawing 1000 origin fresh_brush)
                 + (px (mkPoint 20 0)
                    - lastX (startDrawing 1000 origin fresh_brush))
                   * (IZR i
                      / IZR (numCircles
                               (fst (measure (px (mkPoint 20 0))
                                       (py (mkPoint 20 0))
                                       (startDrawing 1000 origin fresh_brush)))))
                 - 100)
                (lastY (startDrawing 1000 origin fresh_brush)
                 + (py (mkPoint 20 0)
                    - lastY (startDrawing 1000 origin fresh_brush))
                   * (IZR i
                      / IZR (numCircles
                               (fst (measure (px (mkPoint 20 0))
                                       (py (mkPoint 20 0))
                                       (startDrawing 1000 origin fresh_brush)))))
                 - 100)
                200 200 (filter (ctx (startDrawing 1000 origin fresh_brush))))
           (seqZ 1 (numCircles
                      (fst (measure (px (mkPoint 20 0)) (py (mkPoint 20 0))
                              (startDrawing 1000 origin fresh_brush))) - 1))
    ++ [Stamped (HTMLImageElement "brush.png")
          (px (mkPoint 20 0) - 100) (py (mkPoint 20 0) - 100) 200 200
          (filter (ctx (startDrawing 1000 origin fresh_brush)))] /\
  length (bitmap (ctx (fields (draw page 1005 (mkPoint 20 0)
                                 (startDrawing 1000 origin fresh_brush)))))
  = (length (bitmap (ctx (startDrawing 1000 origin fresh_brush)))
     + Z.to_nat (numCircles
                   (fst (measure (px (mkPoint 20 0)) (py (mkPoint 20 0))
                           (startDrawing 1000 origin fresh_brush)))) + 1)%nat.
Proof.
  apply (brush_stamps page 1005 (mkPoint 20 0)
           (startDrawing 1000 origin fresh_brush) "brush.png");
    reflexivity.
Defined.

(** ** The history of a reachable engine *)

Lemma snoc_case {A : Type} (l : list A) :
  l = [] \/ exists l' x, l = l' ++ [x].
Proof.
  induction l as [|x l _] using rev_ind; [now left | right].
  now exists l, x.
Qed.

Lemma draw_history_unchanged (document : gmap string Element) (now : Z)
    (p : Point) (s : CanvasDrawer) :
  last (canvasHistory s) = None \/ last (canvasHistory s) = Some [] ->
  canvasHistory (fields (draw document now p s)) = canvasHistory s.
Proof.
  intros Hl.
  assert (forall s1, canvasHistory s1 = canvasHistory s ->
                     canvasHistory (fields (record_sample now p s1))
                     = canvasHistory s) as Hrec.
  { intros s1 E. unfold record_sample. rewrite E.
    destruct Hl as [-> | ->]; exact E. }
  unfold draw. destruct (isDrawing s); cbn [negb]; [| reflexivity].
  destruct (brushMode s).
  - pose proof (f_equal canvasHistory
                  (_drawImage_engine_fields document (px p) (py p) s)) as E.
    change (canvasHistory (fields (_drawImage document (px p) (py p) s))
            = canvasHistory s) in E.
    destruct (_drawImage document (px p) (py p) s) as [s1 | e s1];
      cbn [and_then fields] in *; [apply Hrec; exact E | exact E].
  - cbn [and_then]. apply Hrec. reflexivity.
Qed.

(** Every stroke of the history holds a first sample, whose [t] is 0. *)
Lemma reachable_strokes (s : CanvasDrawer) :
  reachable s ->
  Forall (fun samples => exists first rest,
              samples = first :: rest /\ st first = 0%Z)
         (canvasHistory s).
Proof.
  induction 1 as [canvas context2d s Hnew | s c _ IH].
  - destruct canvas as [[w h | src | tag]|]; try discriminate.
    destruct context2d as [c|]; try discriminate.
    injection Hnew as <-. constructor.
  - destruct c; cbn [perform].
    + replace (canvasHistory (clear s)) with (@nil (list Sample));
        [constructor |].
      exact (eq_sym (f_equal canvasHistory
                       (_clearCanvas_engine_fields (set_canvasHistory [] s)))).
    + replace (canvasHistory (toggleGrid s)) with (canvasHistory s);
        [exact IH |].
      exact (eq_sym (f_equal canvasHistory
                       (_clearCanvas_engine_fields
                          (set_showGrid (negb (showGrid s)) s)))).
    + now destruct enabled.
    + exact IH.
    + cbn [startDrawing canvasHistory set_canvasHistory set_pointBuffer
             set_bufferIndex set_distanceBuffer set_lastT set_last
             set_isDrawing lastX lastY].
      apply Forall_app. split; [exact IH |].
      constructor; [| constructor]. now eexists _, _.
    + destruct (snoc_case (canvasHistory s)) as [E | (strokes & x & E)].
      * rewrite draw_history_unchanged; [exact IH | left; now rewrite E].
      * rewrite E in IH. apply Forall_app in IH as [IH1 IH2].
        inversion IH2 as [|? ? (first & rest & -> & Hst) _]; subst.
        change (fields (draw document now point s))
          with (draw_call s (mkDrawCall document now point)).
        destruct (draw_history (mkDrawCall document now point) s
                    strokes first rest E) as [-> | ->];
          apply Forall_app; (split; [exact IH1 |]);
          (constructor; [| constructor]); now eexists _, _.
    + exact IH.
Qed.

(** X5. In every state the engine reaches, each stroke of the history has at
    least one sample, and the [t] of its first sample is 0. *)
Theorem strokes_start_at_zero (s : CanvasDrawer) (samples : list Sample) :
  reachable s ->
  samples ∈ canvasHistory s ->
  exists first rest, samples = first :: rest /\ st first = 0%Z.
Proof.
  intros Hr Hin.
  pose proof (reachable_strokes s Hr) as H.
  rewrite Forall_forall in H. exact (H samples Hin).
Qed.

Lemma strokes_start_at_zero_witness :
  exists first rest, [mkSample 0 0 0] = first :: rest /\ st first = 0%Z.
Proof.
  apply (strokes_start_at_zero (startDrawing 1000 origin fresh)
           [mkSample 0 0 0]).
  - apply (reach_call fresh (StartDrawing 1000 origin)).
    apply (reach_new (Some (HTMLCanvasElement 100 100)) (Some blank_context)).
    reflexivity.
  - change (canvasHistory (startDrawing 1000 origin fresh))
      with [[mkSample 0 0 0]].
    apply list_elem_of_here.
Defined.

(** ** [clear()] in the middle of a stroke *)

Lemma draw_empty_history (document : gmap string Element) (now : Z)
    (p : Point) (s : CanvasDrawer) :
  isDrawing s = true ->
  canvasHistory s = [] ->
  exists e s',
    draw document now p s = Threw e s' /\
    canvasHistory s' = [] /\
    isDrawing s' = true /\
    lastX s' = lastX s /\
    lastY s' = lastY s.
Proof.
  intros Hd Hh. unfold draw. rewrite Hd. cbn [negb].
  destruct (brushMode s).
  - pose proof (_drawImage_engine_fields document (px p) (py p) s) as E.
    assert (canvasHistory (fields (_drawImage document (px p) (py p) s)) = [])
      as E1 by (rewrite <- Hh; exact (f_equal canvasHistory E)).
    assert (isDrawing (fields (_drawImage document (px p) (py p) s)) = true)
      as E2 by (rewrite <- Hd; exact (f_equal isDrawing E)).
    pose proof (f_equal lastX E) as E3. pose proof (f_equal lastY E) as E4.
    cbn [engine_fields set_ctx lastX lastY measure snd buffer_write
           set_bufferIndex set_pointBuffer set_distanceBuffer] in E3, E4.
    destruct (_drawImage document (px p) (py p) s) as [s1 | e s1];
      cbn [and_then fields] in *.
    + exists TypeError, s1. unfold record_sample. rewrite E1.
      now repeat split.
    + exists e, s1. now repeat split.
  - cbn [and_then]. exists TypeError, (_drawLine (px p) (py p) s).
    unfold record_sample.
    change (canvasHistory (_drawLine (px p) (py p) s)) with (canvasHistory s).
    rewrite Hh. now repeat split.
Qed.

(** X6. [clear()] during a stroke empties the history under an engine that
    is still drawing.  From then on every [draw] call raises: the sample has
    no stroke to go to, the history stays empty and the last point stays
    where it was, until [startDrawing] opens a new stroke. *)
Theorem draw_after_clear_raises (s : CanvasDrawer) (calls : list DrawCall)
    (c : DrawCall) :
  reachable s ->
  getIsDrawing s = true ->
  exists e s',
    draw (call_document c) (call_now c) (call_point c)
         (draw_all calls (clear s))
    = Threw e s' /\
    canvasHistory s' = [] /\
    getIsDrawing s' = true /\
    lastX s' = lastX s /\
    lastY s' = lastY s.
Proof.
  unfold getIsDrawing. intros _ Hd.
  pose proof (_clearCanvas_engine_fields (set_canvasHistory [] s)) as E.
  assert (isDrawing (draw_all calls (clear s)) = true /\
          canvasHistory (draw_all calls (clear s)) = [] /\
          lastX (draw_all calls (clear s)) = lastX s /\
          lastY (draw_all calls (clear s)) = lastY s) as (H1 & H2 & H3 & H4).
  { assert (isDrawing (clear s) = true /\ canvasHistory (clear s) = [] /\
            lastX (clear s) = lastX s /\ lastY (clear s) = lastY s) as H.
    { unfold clear. repeat split.
      - rewrite <- Hd. exact (f_equal isDrawing E).
      - exact (f_equal canvasHistory E).
      - exact (f_equal lastX E).
      - exact (f_equal lastY E). }
    revert H. generalize (clear s). clear E.
    induction calls as [|c1 calls IH]; intros s0 H; [exact H |].
    change (draw_all (c1 :: calls) s0) with (draw_all calls (draw_call s0 c1)).
    destruct H as (G1 & G2 & G3 & G4).
    destruct (draw_empty_history (call_document c1) (call_now c1)
                (call_point c1) s0 G1 G2) as (e & s1 & Hc & K1 & K2 & K3 & K4).
    apply IH. unfold draw_call. rewrite Hc. cbn [fields].
    repeat split; congruence. }
  destruct (draw_empty_history (call_document c) (call_now c) (call_point c)
              (draw_all calls (clear s)) H1 H2)
    as (e & s' & Hc & K1 & K2 & K3 & K4).
  exists e, s'. repeat split; congruence.
Qed.

Lemma draw_after_clear_raises_witness :
  exists e s',
    draw (call_document move2) (call_now move2) (call_point move2)
         (draw_all [move1] (clear (startDrawing 1000 origin fresh)))
    = Threw e s' /\
    canvasHistory s' = [] /\
    getIsDrawing s' = true /\
    lastX s' = lastX (startDrawing 1000 origin fresh) /\
    lastY s' = lastY (startDrawing 1000 origin fresh).
Proof.
  apply (draw_after_clear_raises (startDrawing 1000 origin fresh) [move1] move2).
  - apply (reach_call fresh (StartDrawing 1000 origin)).
    apply (reach_new (Some (HTMLCanvasElement 100 100)) (Some blank_context)).
    reflexivity.
  - reflexivity.
Defined.

(** ** Replay *)

Lemma foldl_lineTo (rest : list Sample) (c : Context) :
  foldl (fun c sm => lineTo (sx sm) (sy sm) c) c rest
  = set_path (path c ++ map (fun sm => LineTo (sx sm) (sy sm)) rest) c.
Proof.
  revert c. induction rest as [|sm rest IH]; intros c; cbn [foldl map].
  - rewrite app_nil_r. now destruct c.
  - rewrite IH. unfold lineTo, set_path. cbn [path strokeStyle lineWidth
      lineCap lineJoin filter bitmap]. now rewrite <- app_assoc.
Qed.

(** One stroke of the history is replayed as one stroke of the path through
    its samples; the drawing state and the stack are as before. *)
Lemma replay_stroke_paints (c : Context) (stack : list DrawingState)
    (first : Sample) (rest : list Sample) :
  replay_stroke (c, stack) (first :: rest)
  = (set_bitmap (bitmap c ++ [stroked_with c (polyline (first :: rest))])
       (set_path (polyline (first :: rest)) c),
     stack).
Proof.
  unfold replay_stroke. cbn [fst snd]. rewrite foldl_lineTo. reflexivity.
Qed.

Lemma replay_history (strokes : list (list Sample)) :
  forall (c : Context) (stack : list DrawingState),
    Forall (fun samples => exists first rest,
                samples = first :: rest /\ st first = 0%Z) strokes ->
    snd (foldl replay_stroke (c, stack) strokes) = stack /\
    drawing_state (fst (foldl replay_stroke (c, stack) strokes))
    = drawing_state c /\
    bitmap (fst (foldl replay_stroke (c, stack) strokes))
    = bitmap c ++ map (fun samples => stroked_with c (polyline samples)) strokes.
Proof.
  induction strokes as [|samples strokes IH]; intros c stack Hall;
    cbn [foldl map].
  - rewrite app_nil_r. now repeat split.
  - apply Forall_cons in Hall as [(first & rest & -> & _) Hall].
    rewrite replay_stroke_paints.
    destruct (IH (set_bitmap
                    (bitmap c ++ [stroked_with c (polyline (first :: rest))])
                    (set_path (polyline (first :: rest)) c))
                stack Hall) as (H1 & H2 & H3).
    split; [exact H1 |]. split; [exact H2 |].
    rewrite H3. cbn [bitmap set_bitmap set_path]. rewrite <- app_assoc.
    reflexivity.
Qed.

(** X7. [redrawHistory()] repaints from nothing: on the blank canvas, with
    the grid when it is shown, it strokes one path per stroke of the
    history, through all the samples of the stroke in order, with the line
    style that [_clearCanvas] leaves, also for strokes that were stamped in
    brush mode.  What was painted before has no influence.  The history,
    the other fields and the stack of saved states are as before.  The
    drawing state is the one that [_clearCanvas] leaves: the one before the
    call when the grid is hidden; when the grid is shown, the stroke style
    ["#fff"] and the line width 2 with the caps, the joins and the filter of
    before the call. *)
Theorem redrawHistory_replays (stack : list DrawingState) (s : CanvasDrawer) :
  reachable s ->
  bitmap (ctx (fst (redrawHistory stack s)))
  = bitmap (ctx (_clearCanvas s))
    ++ map (fun samples => stroked_with (ctx (_clearCanvas s)) (polyline samples))
           (canvasHistory s) /\
  (forall painted : list Paint,
      redrawHistory stack (set_ctx (set_bitmap painted (ctx s)) s)
      = redrawHistory stack s) /\
  engine_fields (fst (redrawHistory stack s)) = engine_fields s /\
  drawing_state (ctx (fst (redrawHistory stack s)))
  = drawing_state (ctx (_clearCanvas s)) /\
  drawing_state (ctx (fst (redrawHistory stack s)))
  = (if showGrid s
     then mkDrawingState "#fff" 2 (lineCap (ctx s)) (lineJoin (ctx s))
                         (filter (ctx s))
     else drawing_state (ctx s)) /\
  snd (redrawHistory stack s) = stack.
Proof.
  intros Hr.
  pose proof (reachable_strokes s Hr) as Hall.
  pose proof (_clearCanvas_engine_fields s) as E.
  assert (canvasHistory (_clearCanvas s) = canvasHistory s) as Eh
    by exact (f_equal canvasHistory E).
  assert (forall painted : list Paint,
             redrawHistory stack (set_ctx (set_bitmap painted (ctx s)) s)
             = redrawHistory stack s) as Hp.
  { intros painted. unfold redrawHistory.
    rewrite !_clearCanvas_repaints. reflexivity. }
  assert (drawing_state (ctx (_clearCanvas s))
          = (if showGrid s
             then mkDrawingState "#fff" 2 (lineCap (ctx s)) (lineJoin (ctx s))
                                 (filter (ctx s))
             else drawing_state (ctx s))) as Hc.
  { rewrite _clearCanvas_repaints.
    destruct (showGrid s); [| reflexivity].
    destruct (_drawGrid_paints (blank_surface s)) as [_ H]. exact H. }
  destruct (replay_history (canvasHistory s) (ctx (_clearCanvas s)) stack Hall)
    as (H1 & H2 & H3).
  split; [| split; [exact Hp |]];
    unfold redrawHistory; cbn [fst snd ctx set_ctx]; rewrite Eh.
  - exact H3.
  - split; [exact E |]. split; [exact H2 |].
    split; [now rewrite H2 | exact H1].
Qed.

Lemma redrawHistory_replays_witness :
  bitmap (ctx (fst (redrawHistory []
                      (perform (startDrawing 1000 origin fresh)
              (Draw page 1005 (mkPoint 3 4))))))
  = bitmap (ctx (_clearCanvas
                   (perform (startDrawing 1000 origin fresh)
              (Draw page 1005 (mkPoint 3 4)))))
    ++ map (fun samples =>
              stroked_with
                (ctx (_clearCanvas
                        (perform (startDrawing 1000 origin fresh)
              (Draw page 1005 (mkPoint 3 4)))))
                (polyline samples))
           (canvasHistory (perform (startDrawing 1000 origin fresh)
              (Draw page 1005 (mkPoint 3 4)))) /\
  (forall painted : list Paint,
      redrawHistory []
        (set_ctx
           (set_bitmap painted
              (ctx (perform (startDrawing 1000 origin fresh)
              (Draw page 1005 (mkPoint 3 4)))))
           (perform (startDrawing 1000 origin fresh)
              (Draw page 1005 (mkPoint 3 4))))
      = redrawHistory [] (perform (startDrawing 1000 origin fresh)
              (Draw page 1005 (mkPoint 3 4)))) /\
  engine_fields
    (fst (redrawHistory [] (perform (startDrawing 1000 origin fresh)
              (Draw page 1005 (mkPoint 3 4)))))
  = engine_fields (perform (startDrawing 1000 origin fresh)
              (Draw page 1005 (mkPoint 3 4))) /\
  drawing_state
    (ctx (fst (redrawHistory []
                 (perform (startDrawing 1000 origin fresh)
              (Draw page 1005 (mkPoint 3 4))))))
  = drawing_state
      (ctx (_clearCanvas (perform (startDrawing 1000 origin fresh)
              (Draw page 1005 (mkPoint 3 4))))) /\
  drawing_state
    (ctx (fst (redrawHistory []
                 (perform (startDrawing 1000 origin fresh)
              (Draw page 1005 (mkPoint 3 4))))))
  = (if showGrid (perform (startDrawing 1000 origin fresh)
              (Draw page 1005 (mkPoint 3 4)))
     then mkDrawingState "#fff" 2
            (lineCap (ctx (perform (startDrawing 1000 origin fresh)
              (Draw page 1005 (mkPoint 3 4)))))
            (lineJoin (ctx (perform (startDrawing 1000 origin fresh)
              (Draw page 1005 (mkPoint 3 4)))))
            (filter (ctx (perform (startDrawing 1000 origin fresh)
              (Draw page 1005 (mkPoint 3 4)))))
     else drawing_state
            (ctx (perform (startDrawing 1000 origin fresh)
              (Draw page 1005 (mkPoint 3 4))))) /\
  snd (redrawHistory [] (perform (startDrawing 1000 origin fresh)
              (Draw page 1005 (mkPoint 3 4))))
  = [].
Proof.
  apply (redrawHistory_replays []
           (perform (startDrawing 1000 origin fresh)
              (Draw page 1005 (mkPoint 3 4)))).
  apply (reach_call (startDrawing 1000 origin fresh)
           (Draw page 1005 (mkPoint 3 4))).
  apply (reach_call fresh (StartDrawing 1000 origin)).
  apply (reach_new (Some (HTMLCanvasElement 100 100)) (Some blank_context)).
  reflexivity.
Defined.

(** ** The smoothing buffer as a ring *)

(** Writing at the cursor of a full ring and advancing the cursor drops the
    oldest entry and appends the new one, when the ring is read from the
    cursor on. *)
Lemma ring_write {A : Type} (b : list A) (c : nat) (d : A) :
  (c < length b)%nat ->
  drop ((c + 1) mod length b) (<[c := d]> b)
  ++ take ((c + 1) mod length b) (<[c := d]> b)
  = drop 1 (drop c b ++ take c b) ++ [d].
Proof.
  intros Hc.
  destruct (lookup_lt_is_Some_2 b c Hc) as [x Hx].
  rewrite (drop_S b x c Hx). cbn [app drop].
  destruct (decide (c + 1 = length b)%nat) as [E | E].
  - rewrite E, Nat.Div0.mod_same. cbn [drop take]. rewrite app_nil_r.
    rewrite insert_take_drop by exact Hc.
    replace (S c) with (length b) by lia.
    rewrite drop_all, drop_0. cbn [app]. reflexivity.
  - rewrite Nat.mod_small by lia.
    replace (c + 1)%nat with (S c) by lia.
    rewrite drop_insert_lt by lia.
    rewrite (take_S_r (<[c:=d]> b) c d)
      by (apply list_lookup_insert_eq; exact Hc).
    rewrite take_insert_ge by lia.
    rewrite drop_0. now rewrite <- app_assoc.
Qed.

Lemma foldl_Rplus_start (l : list R) (a : R) :
  foldl Rplus a l = a + foldl Rplus 0 l.
Proof.
  revert a. induction l as [|x l IH]; intros a; cbn [foldl]; [lra |].
  rewrite (IH (a + x)), (IH (0 + x)). lra.
Qed.

Lemma foldl_Rplus_app (l1 l2 : list R) :
  foldl Rplus 0 (l1 ++ l2) = foldl Rplus 0 l1 + foldl Rplus 0 l2.
Proof. rewrite foldl_app. apply foldl_Rplus_start. Qed.

Lemma foldl_Rplus_rotate (b : list R) (c : nat) :
  foldl Rplus 0 b = foldl Rplus 0 (drop c b ++ take c b).
Proof.
  rewrite <- (take_drop c b) at 1. rewrite !foldl_Rplus_app. lra.
Qed.

Lemma window_sum (l : list R) :
  foldl Rplus 0 (drop (length l) (replicate 20 0 ++ l))
  = foldl Rplus 0 (drop (length l - 20) l).
Proof.
  destruct (le_lt_dec (length l) 20) as [H | H].
  - rewrite drop_app_le by (rewrite length_replicate; lia).
    rewrite drop_replicate.
    replace (length l - 20)%nat with 0%nat by lia. cbn [drop].
    rewrite foldl_Rplus_app.
    assert (forall n, foldl Rplus 0 (replicate n 0) = 0) as Hz.
    { induction n as [|n IH]; cbn [replicate foldl]; [reflexivity |].
      rewrite foldl_Rplus_start, IH. lra. }
    rewrite Hz, drop_0. lra.
  - rewrite drop_app_ge by (rewrite length_replicate; lia).
    now rewrite length_replicate.
Qed.

Lemma stamp_segments_length (calls : list DrawCall) (s : CanvasDrawer) :
  length (stamp_segments calls s) = length calls.
Proof.
  revert s. induction calls as [|c calls IH]; intros s; cbn [stamp_segments length];
    [reflexivity | now rewrite IH].
Qed.

Lemma ring_run (calls : list DrawCall) :
  forall (s : CanvasDrawer) (ds : list R),
    well_formed s ->
    isDrawing s = true ->
    brushMode s = true ->
    bufferIndex s = (length ds mod 20)%nat ->
    drop (bufferIndex s) (distanceBuffer s)
    ++ take (bufferIndex s) (distanceBuffer s)
    = drop (length ds) (replicate 20 0 ++ ds) ->
    bufferIndex (draw_all calls s) = ((length ds + length calls) mod 20)%nat /\
    forall g,
      last (stamp_segments calls s) = Some g ->
      avgDistance g
      = foldl Rplus 0
          (drop (length (ds ++ map currentD (stamp_segments calls s)))
                (replicate 20 0 ++ ds ++ map currentD (stamp_segments calls s)))
        / 20.
Proof.
  induction calls as [|c calls IH]; intros s ds Hwf Hdraw Hbrush Hidx Hrot.
  - cbn [draw_all foldl length]. rewrite Nat.add_0_r.
    split; [exact Hidx | discriminate].
  - change (draw_all (c :: calls) s) with (draw_all calls (draw_call s c)).
    cbn [stamp_segments map length].
    set (x := px (call_point c)) in *. set (y := py (call_point c)) in *.
    set (s' := draw_call s c) in *.
    set (d := currentD (fst (measure x y s))).
    assert (settings s' = settings (snd (measure x y s))) as E.
    { unfold s', draw_call. rewrite draw_settings, Hdraw, Hbrush. reflexivity. }
    pose proof Hwf as [H1 H2 H3 H4 H5 H6].
    assert (length (distanceBuffer s) = 20%nat) as Hlen by congruence.
    assert (bufferIndex s' = (length (ds ++ [d]) mod 20)%nat) as Hidx'.
    { transitivity (bufferIndex (snd (measure x y s)));
        [exact (f_equal bufferIndex E) |].
      change (bufferIndex (snd (measure x y s)))
        with ((bufferIndex s + 1) mod bufferSize s)%nat.
      rewrite Hidx, H1, length_app. cbn [length].
      apply Nat.Div0.add_mod_idemp_l. }
    assert (distanceBuffer s' = <[bufferIndex s := d]> (distanceBuffer s))
      as Hbuf' by exact (f_equal distanceBuffer E).
    assert (drop (bufferIndex s') (distanceBuffer s')
            ++ take (bufferIndex s') (distanceBuffer s')
            = drop (length (ds ++ [d])) (replicate 20 0 ++ ds ++ [d])) as Hrot'.
    { rewrite Hbuf'.
      replace (bufferIndex s') with ((bufferIndex s + 1) mod length (distanceBuffer s))%nat.
      2:{ rewrite Hidx', Hidx, Hlen, length_app. cbn [length].
          apply Nat.Div0.add_mod_idemp_l. }
      rewrite ring_write by lia.
      rewrite Hrot, drop_drop, length_app. cbn [length].
      rewrite (app_assoc (replicate 20 0) ds [d]).
      rewrite (drop_app_le (replicate 20 0 ++ ds))
        by (rewrite length_app, length_replicate; lia).
      reflexivity. }
    assert (well_formed s') as Hwf' by (apply draw_well_formed; exact Hwf).
    assert (isDrawing s' = true) as Hdraw'
      by exact (eq_trans (f_equal isDrawing E) Hdraw).
    assert (brushMode s' = true) as Hbrush'
      by exact (eq_trans (f_equal brushMode E) Hbrush).
    destruct (IH s' (ds ++ [d]) Hwf' Hdraw' Hbrush' Hidx' Hrot') as [I1 I2].
    split.
    + rewrite I1, length_app. cbn [length]. f_equal. lia.
    + intros g Hlast.
      destruct (stamp_segments calls s') as [|g' gs] eqn:Hsegs.
      * injection Hlast as <-. cbn [map].
        change (buffer_average (snd (measure x y s))
                = foldl Rplus 0
                    (drop (length (ds ++ [d])) (replicate 20 0 ++ ds ++ [d]))
                  / 20).
        unfold buffer_average.
        change (bufferSize (snd (measure x y s))) with (bufferSize s).
        change (distanceBuffer (snd (measure x y s)))
          with (<[bufferIndex s := d]> (distanceBuffer s)).
        rewrite <- Hbuf', (foldl_Rplus_rotate _ (bufferIndex s')), Hrot', H1.
        f_equal. simpl. lra.
      * change (last (g' :: gs) = Some g) in Hlast.
        specialize (I2 g Hlast).
        rewrite <- !app_assoc in I2. exact I2.
Qed.

(** X8. The average of a brush-mode call is a rolling one.  In a run of
    brush-mode [draw] calls after [startDrawing], the average that the last
    call computes is the sum of the lengths of the last 20 segments, or of
    all of them when there are fewer, divided by 20; and the cursor of the
    buffer is the number of calls modulo 20. *)
Theorem rolling_average (s : CanvasDrawer) (now : Z) (p : Point)
    (calls : list DrawCall) (g : Segment) :
  reachable s ->
  getBrushMode s = true ->
  last (stamp_segments calls (startDrawing now p s)) = Some g ->
  avgDistance g
  = foldl Rplus 0
      (drop (length calls - 20)
            (map currentD (stamp_segments calls (startDrawing now p s))))
    / 20 /\
  bufferIndex (draw_all calls (startDrawing now p s))
  = (length calls mod 20)%nat.
Proof.
  unfold getBrushMode. intros Hr Hb Hlast.
  pose proof (reachable_well_formed s Hr) as Hwf.
  pose proof (perform_well_formed s (StartDrawing now p) Hwf) as Hwf1.
  destruct (startDrawing_buffer now p s Hwf) as (Hbuf & _ & Hidx).
  destruct (ring_run calls (startDrawing now p s) [] Hwf1 eq_refl Hb)
    as [I1 I2].
  - exact Hidx.
  - rewrite Hidx, Hbuf. reflexivity.
  - split; [| exact I1].
    rewrite (I2 g Hlast). cbn [app].
    rewrite window_sum, length_map, stamp_segments_length. reflexivity.
Qed.

Lemma rolling_average_witness :
  avgDistance
    (fst (measure 3 10
            (draw_call (startDrawing 1000 origin fresh_brush) move1)))
  = foldl Rplus 0
      (drop (length [move1; move2] - 20)
            (map currentD
               (stamp_segments [move1; move2]
                  (startDrawing 1000 origin fresh_brush))))
    / 20 /\
  bufferIndex (draw_all [move1; move2] (startDrawing 1000 origin fresh_brush))
  = (length [move1; move2] mod 20)%nat.
Proof.
  apply (rolling_average fresh_brush 1000 origin [move1; move2]
           (fst (measure 3 10
                   (draw_call (startDrawing 1000 origin fresh_brush) move1)))).
  - apply (reach_call (setBrushMode true fresh) (SetBrushImage (Some "brush"))).
    apply (reach_call fresh (SetBrushMode true)).
    apply (reach_new (Some (HTMLCanvasElement 100 100)) (Some blank_context)).
    reflexivity.
  - reflexivity.
  - reflexivity.
Defined.

(** ** The circles of [_drawBrush] *)

Lemma Rdiv_nonneg (a b : R) : 0 <= a -> 0 < b -> 0 <= a / b.
Proof. intros Ha Hb. unfold Rdiv. now apply Rle_mult_inv_pos. Qed.

Lemma foldl_Rplus_nonneg (l : list R) :
  Forall (fun d => 0 <= d) l -> 0 <= foldl Rplus 0 l.
Proof.
  induction 1 as [|d l Hd _ IH]; cbn [foldl]; [lra |].
  rewrite foldl_Rplus_start. lra.
Qed.

Lemma currentD_nonneg (x y : R) (s : CanvasDrawer) :
  0 <= currentD (fst (measure x y s)).
Proof. rewrite currentD_measure. apply sqrt_pos. Qed.

(** The buffer only ever holds lengths. *)
Lemma reachable_distances (s : CanvasDrawer) :
  reachable s -> Forall (fun d => 0 <= d) (distanceBuffer s).
Proof.
  induction 1 as [canvas context2d s Hnew | s c _ IH].
  - destruct canvas as [[w h | src | tag]|]; try discriminate.
    destruct context2d as [c|]; try discriminate.
    injection Hnew as <-.
    change (Forall (fun d => 0 <= d) (replicate 20 0)).
    apply Forall_replicate. lra.
  - destruct c; cbn [perform].
    + replace (distanceBuffer (clear s)) with (distanceBuffer s); [exact IH |].
      exact (eq_sym (f_equal distanceBuffer
                       (_clearCanvas_engine_fields (set_canvasHistory [] s)))).
    + replace (distanceBuffer (toggleGrid s)) with (distanceBuffer s);
        [exact IH |].
      exact (eq_sym (f_equal distanceBuffer
                       (_clearCanvas_engine_fields
                          (set_showGrid (negb (showGrid s)) s)))).
    + now destruct enabled.
    + exact IH.
    + change (Forall (fun d => 0 <= d)
                (replicate (length (distanceBuffer s)) 0)).
      apply Forall_replicate. lra.
    + pose proof (draw_settings document now point s) as E.
      destruct (isDrawing s && brushMode s);
        apply (f_equal distanceBuffer) in E.
      * change (distanceBuffer (fields (draw document now point s))
                = <[bufferIndex s
                    := currentD (fst (measure (px point) (py point) s))]>
                    (distanceBuffer s)) in E.
        rewrite E.
        apply Forall_insert; [exact IH | apply currentD_nonneg].
      * change (distanceBuffer (fields (draw document now point s))
                = distanceBuffer s) in E.
        rewrite E. exact IH.
    + exact IH.
Qed.

Lemma averages_nonneg (x y : R) (s : CanvasDrawer) :
  reachable s ->
  0 <= avgDistanceLast (fst (measure x y s)) /\
  0 <= avgDistance (fst (measure x y s)).
Proof.
  intros Hr.
  pose proof (reachable_distances s Hr) as Hd.
  destruct (reachable_well_formed s Hr) as [H1 _ _ _ _ _].
  assert (0 < INR (bufferSize s)) as Hn by (rewrite H1; simpl; lra).
  split.
  - change (0 <= foldl Rplus 0 (distanceBuffer s) / INR (bufferSize s)).
    apply Rdiv_nonneg; [now apply foldl_Rplus_nonneg | exact Hn].
  - change (0 <= foldl Rplus 0
                   (<[bufferIndex s := currentD (fst (measure x y s))]>
                      (distanceBuffer s))
                 / INR (bufferSize s)).
    apply Rdiv_nonneg; [| exact Hn].
    apply foldl_Rplus_nonneg, Forall_insert;
      [exact Hd | apply currentD_nonneg].
Qed.

(** The radius of circle [i] lies between the two averages. *)
Lemma _drawBrush_r_between (x y : R) (s : CanvasDrawer) (i : Z) :
  (0 <= i <= numCircles (fst (measure x y s)))%Z ->
  Rmin (avgDistanceLast (fst (measure x y s)))
       (avgDistance (fst (measure x y s)))
  <= _drawBrush_r (fst (measure x y s)) i
  <= Rmax (avgDistanceLast (fst (measure x y s)))
          (avgDistance (fst (measure x y s))).
Proof.
  intros [Hi0 Hin].
  rewrite _drawBrush_r_lerp. unfold lerp.
  set (a := avgDistanceLast (fst (measure x y s))).
  set (b := avgDistance (fst (measure x y s))).
  set (n := numCircles (fst (measure x y s))) in *.
  assert (1 <= n)%Z as Hn
    by (unfold n; rewrite numCircles_measure; apply Z.le_max_l).
  assert (0 < IZR n) as Hn0 by (apply IZR_lt; lia).
  assert (0 <= IZR i / IZR n <= 1) as [Ht0 Ht1].
  { split.
    - apply Rdiv_nonneg; [apply IZR_le; lia | exact Hn0].
    - apply Rmult_le_reg_r with (IZR n); [exact Hn0 |].
      unfold Rdiv. rewrite Rmult_assoc, Rinv_l, Rmult_1_r, Rmult_1_l by lra.
      apply IZR_le; lia. }
  set (t := IZR i / IZR n) in *.
  unfold Rmin, Rmax. destruct (Rle_dec a b); split; nra.
Qed.

Lemma for_each_strokes (l : list Z) (body : Z -> CanvasDrawer -> Completion)
    (s0 : CanvasDrawer) (pth : Z -> list PathCmd) :
  (forall i c, i ∈ l ->
      body i (set_ctx c s0)
      = Returned (set_ctx (stroke (set_path (pth i) c)) s0)) ->
  forall c, exists c',
    for_each l body (set_ctx c s0) = Returned (set_ctx c' s0) /\
    bitmap c' = bitmap c ++ map (fun i => stroked_with c (pth i)) l /\
    drawing_state c' = drawing_state c.
Proof.
  induction l as [|i l IH]; intros Hbody c; cbn [for_each map].
  - exists c. rewrite app_nil_r. now repeat split.
  - rewrite Hbody by apply list_elem_of_here. cbn [and_then].
    destruct (IH (fun j c' Hj => Hbody j c' (list_elem_of_further _ _ _ Hj))
                (stroke (set_path (pth i) c)))
      as (c' & H1 & H2 & H3).
    exists c'. split; [exact H1 |]. split; [| exact H3].
    rewrite H2. cbn [bitmap stroke set_bitmap set_path].
    now rewrite <- app_assoc.
Qed.

(** X9. Called on a state the engine reaches, [_drawBrush] never raises: the
    radius of each of its [numCircles + 1] circles lies between the average
    before and the average after the segment, and is not negative.  It
    strokes these circles, centred at even steps from the last point to the
    new one, and paints nothing else. *)
Theorem drawBrush_circles (x y : R) (s : CanvasDrawer) (i : Z) :
  reachable s ->
  (0 <= i <= numCircles (fst (measure x y s)))%Z ->
  (exists s',
      _drawBrush x y s = Returned s' /\
      engine_fields s' = engine_fields (snd (measure x y s)) /\
      bitmap (ctx s')
      = bitmap (ctx s)
        ++ map (fun j =>
                  stroked_with (ctx s)
                    [Ellipse
                       (lastX s
                        + (x - lastX s)
                          * (IZR j / IZR (numCircles (fst (measure x y s)))))
                       (lastY s
                        + (y - lastY s)
                          * (IZR j / IZR (numCircles (fst (measure x y s)))))
                       (_drawBrush_r (fst (measure x y s)) j)
                       (_drawBrush_r (fst (measure x y s)) j)
                       0 0 (2 * PI)])
               (seqZ 0 (numCircles (fst (measure x y s)) + 1))) /\
  0 <= _drawBrush_r (fst (measure x y s)) i /\
  Rmin (avgDistanceLast (fst (measure x y s)))
       (avgDistance (fst (measure x y s)))
  <= _drawBrush_r (fst (measure x y s)) i
  <= Rmax (avgDistanceLast (fst (measure x y s)))
          (avgDistance (fst (measure x y s))).
Proof.
  intros Hr Hi.
  destruct (averages_nonneg x y s Hr) as [Ha Hb].
  assert (forall j,
             (0 <= j <= numCircles (fst (measure x y s)))%Z ->
             0 <= _drawBrush_r (fst (measure x y s)) j) as Hpos.
  { intros j Hj. pose proof (_drawBrush_r_between x y s j Hj) as [Hlo _].
    revert Hlo. unfold Rmin.
    destruct (Rle_dec (avgDistanceLast (fst (measure x y s)))
                (avgDistance (fst (measure x y s)))); lra. }
  split; [| split; [now apply Hpos | now apply _drawBrush_r_between]].
  unfold _drawBrush.
  destruct (measure x y s) as [g s1] eqn:Hm.
  assert (s1 = snd (measure x y s)) as Hs1 by now rewrite Hm.
  assert (g = fst (measure x y s)) as Hg by now rewrite Hm.
  assert (lastX s1 = lastX s) as Hx by now rewrite Hs1.
  assert (lastY s1 = lastY s) as Hy by now rewrite Hs1.
  assert (ctx s1 = ctx s) as Hc by now rewrite Hs1.
  cbn [fst snd] in Hpos |- *.
  destruct (for_each_strokes (seqZ 0 (numCircles g + 1))
              (fun i s =>
                 and_then
                   (on_ctx
                      (fun c =>
                         ellipse
                           (lastX s + (x - lastX s) * (IZR i / IZR (numCircles g)))
                           (lastY s + (y - lastY s) * (IZR i / IZR (numCircles g)))
                           (_drawBrush_r g i) (_drawBrush_r g i) 0 0 (2 * PI)
                           (beginPath c))
                      s)
                   (fun s => Returned (set_ctx (stroke (ctx s)) s)))
              s1
              (fun j =>
                 [Ellipse
                    (lastX s + (x - lastX s) * (IZR j / IZR (numCircles g)))
                    (lastY s + (y - lastY s) * (IZR j / IZR (numCircles g)))
                    (_drawBrush_r g j) (_drawBrush_r g j) 0 0 (2 * PI)])
              ) with (c := ctx s1) as (c' & H1 & H2 & H3).
  - intros j c Hj. apply elem_of_seqZ in Hj.
    specialize (Hpos j ltac:(lia)).
    unfold on_ctx, ellipse. cbn [ctx set_ctx lastX lastY].
    rewrite !bool_decide_eq_false_2 by lra. cbn [orb and_then].
    rewrite Hx, Hy. reflexivity.
  - rewrite set_ctx_ctx in H1. exists (set_ctx c' s1).
    split; [exact H1 |]. split.
    + now rewrite Hs1.
    + cbn [ctx set_ctx]. rewrite H2, Hc. reflexivity.
Qed.

Lemma drawBrush_circles_witness :
  (exists s',
      _drawBrush 20 0 fresh = Returned s' /\
      engine_fields s' = engine_fields (snd (measure 20 0 fresh)) /\
      bitmap (ctx s')
      = bitmap (ctx fresh)
        ++ map (fun j =>
                  stroked_with (ctx fresh)
                    [Ellipse
                       (lastX fresh
                        + (20 - lastX fresh)
                          * (IZR j / IZR (numCircles (fst (measure 20 0 fresh)))))
                       (lastY fresh
                        + (0 - lastY fresh)
                          * (IZR j / IZR (numCircles (fst (measure 20 0 fresh)))))
                       (_drawBrush_r (fst (measure 20 0 fresh)) j)
                       (_drawBrush_r (fst (measure 20 0 fresh)) j)
                       0 0 (2 * PI)])
               (seqZ 0 (numCircles (fst (measure 20 0 fresh)) + 1))) /\
  0 <= _drawBrush_r (fst (measure 20 0 fresh)) 0 /\
  Rmin (avgDistanceLast (fst (measure 20 0 fresh)))
       (avgDistance (fst (measure 20 0 fresh)))
  <= _drawBrush_r (fst (measure 20 0 fresh)) 0
  <= Rmax (avgDistanceLast (fst (measure 20 0 fresh)))
          (avgDistance (fst (measure 20 0 fresh))).
Proof.
  apply (drawBrush_circles 20 0 fresh 0).
  - apply (reach_new (Some (HTMLCanvasElement 100 100)) (Some blank_context)).
    reflexivity.
  - split; [reflexivity |].
    change (numCircles (fst (measure 20 0 fresh)))
      with (Z.max 1 (Int_part (currentD (fst (measure 20 0 fresh))
                               * circlesPerPixel fresh))).
    apply Z.le_trans with 1%Z; [discriminate | apply Z.le_max_l].
Defined.

(** * Properties of the image loader *)

Lemma addImage_srcArray (s : ImageLoader) (x : string) :
  srcArray (addImage s x)
  = if bool_decide (x ∈ srcArray s) then srcArray s else srcArray s ++ [x].
Proof.
  unfold addImage. destruct (bool_decide (x ∈ srcArray s)); [reflexivity |].
  cbn [isLoading loadedImages srcArray].
  now destruct (negb (isLoading s) && (0 <? length (loadedImages s))%nat).
Qed.

Lemma foldl_addImage_sources (l : list string) :
  forall s : ImageLoader,
    exists added,
      srcArray (foldl addImage s l) = srcArray s ++ added /\
      NoDup added /\
      (forall x, x ∈ added <-> x ∈ l /\ x ∉ srcArray s) /\
      sublist added l.
Proof.
  induction l as [|x l IH]; intros s; cbn [foldl].
  - exists []. rewrite app_nil_r.
    split; [reflexivity |]. split; [constructor |]. split; [| constructor].
    intros x. split.
    + intros Hx. inversion Hx.
    + intros [Hx _]. inversion Hx.
  - destruct (IH (addImage s x)) as (added & Hs & Hnd & Hin & Hsub).
    rewrite addImage_srcArray in Hs, Hin.
    destruct (bool_decide_reflect (x ∈ srcArray s)) as [Hx | Hx].
    + exists added. split; [exact Hs |]. split; [exact Hnd |].
      split; [| now apply sublist_cons].
      intros y. rewrite Hin, elem_of_cons. split; [tauto |].
      intros [[-> | Hy] Hn]; [contradiction | tauto].
    + exists (x :: added). split; [now rewrite Hs, <- app_assoc |].
      split; [| split; [| now apply sublist_skip]].
      * constructor; [| exact Hnd].
        rewrite Hin, elem_of_app, list_elem_of_singleton. tauto.
      * intros y. rewrite !elem_of_cons, Hin, elem_of_app, list_elem_of_singleton.
        split.
        -- intros [-> | [Hy Hn]]; [tauto | tauto].
        -- intros [[-> | Hy] Hn]; [now left |].
           destruct (decide (y = x)) as [-> | Hne]; [now left | right; tauto].
Qed.

(** X10. [addImages] appends to the list of sources, in the order of its
    argument, the sources of the argument that the list does not hold yet,
    each of them once; the sources already listed keep their places.  An
    argument that is not an array changes nothing. *)
Theorem addImages_sources (srcs : list string) (s : ImageLoader) :
  (exists added,
      srcArray (addImages (SrcArray srcs) s) = srcArray s ++ added /\
      NoDup added /\
      (forall x, x ∈ added <-> x ∈ srcs /\ x ∉ srcArray s) /\
      sublist added srcs) /\
  addImages NotAnArray s = s /\
  addImages NoArgument s = s.
Proof.
  split; [apply foldl_addImage_sources | split; reflexivity].
Qed.

Lemma foldl_addImage_noop (l : list string) (s : ImageLoader) :
  Forall (fun x => x ∈ srcArray s) l -> foldl addImage s l = s.
Proof.
  induction 1 as [|x l Hx _ IH]; cbn [foldl]; [reflexivity |].
  unfold addImage at 2. now rewrite bool_decide_eq_true_2.
Qed.

(** X11. [addImages] is idempotent: a second call with the same argument
    changes nothing, since every source of the argument is listed after the
    first call. *)
Theorem addImages_idempotent (arg : SrcArg) (s : ImageLoader) :
  addImages arg (addImages arg s) = addImages arg s.
Proof.
  destruct arg as [| | srcs]; try reflexivity.
  cbn [addImages]. apply foldl_addImage_noop.
  destruct (foldl_addImage_sources srcs s) as (added & Hs & _ & Hin & _).
  apply Forall_forall. intros x Hx. rewrite Hs, elem_of_app, Hin.
  destruct (decide (x ∈ srcArray s)); tauto.
Qed.

(** While a load is pending, or while there are no loaded images, adding
    sources leaves the images, the error and the flag alone. *)
Lemma foldl_addImage_keeps (l : list string) :
  forall s : ImageLoader,
    isLoading s = true \/ loadedImages s = [] ->
    loadedImages (foldl addImage s l) = loadedImages s /\
    loadingError (foldl addImage s l) = loadingError s /\
    isLoading (foldl addImage s l) = isLoading s.
Proof.
  induction l as [|x l IH]; intros s H; cbn [foldl]; [now repeat split |].
  assert (loadedImages (addImage s x) = loadedImages s /\
          loadingError (addImage s x) = loadingError s /\
          isLoading (addImage s x) = isLoading s) as (E1 & E2 & E3).
  { unfold addImage. destruct (bool_decide (x ∈ srcArray s)); [now repeat split |].
    cbn [isLoading loadedImages].
    destruct H as [-> | ->]; [now repeat split |].
    cbn [length Nat.ltb Nat.leb]. rewrite andb_false_r. now repeat split. }
  destruct (IH (addImage s x)) as (H1 & H2 & H3); [rewrite E1, E3; exact H |].
  repeat split; congruence.
Qed.

(** X12. When no load is pending, adding at least one source that is not
    listed yet leaves the loader without loaded images.  The error is set to
    [null] only if there were loaded images: the error of a failed load
    stays until the next [load()]. *)
Theorem addImages_invalidates (srcs : list string) (s : ImageLoader)
    (x : string) :
  isLoading s = false ->
  x ∈ srcs ->
  x ∉ srcArray s ->
  getImages (addImages (SrcArray srcs) s) = [] /\
  getError (addImages (SrcArray srcs) s)
  = (if (0 <? length (loadedImages s))%nat then None else getError s) /\
  isLoading (addImages (SrcArray srcs) s) = false.
Proof.
  unfold getImages, getError. cbn [addImages].
  revert s. induction srcs as [|y srcs IH]; intros s Hl Hx Hn.
  - inversion Hx.
  - cbn [foldl].
    destruct (bool_decide_reflect (y ∈ srcArray s)) as [Hy | Hy].
    + assert (addImage s y = s) as ->
        by (unfold addImage; now rewrite bool_decide_eq_true_2).
      apply IH; [exact Hl | | exact Hn].
      apply elem_of_cons in Hx as [-> | Hx]; [contradiction | exact Hx].
    + assert (loadedImages (addImage s y) = [] /\
              loadingError (addImage s y)
              = (if (0 <? length (loadedImages s))%nat then None
                 else loadingError s) /\
              isLoading (addImage s y) = false) as (E1 & E2 & E3).
      { unfold addImage. rewrite bool_decide_eq_false_2 by exact Hy.
        cbn [isLoading loadedImages]. rewrite Hl. cbn [negb andb].
        destruct (loadedImages s) as [|i imgs]; cbn; now repeat split. }
      destruct (foldl_addImage_keeps srcs (addImage s y)) as (H1 & H2 & H3);
        [now right |].
      repeat split; congruence.
Qed.

Lemma addImages_invalidates_witness :
  getImages
    (addImages (SrcArray ["a.png"; "b.png"])
       (mkImageLoader ["a.png"] [HTMLImageElement "a.png"] None false))
  = [] /\
  getError
    (addImages (SrcArray ["a.png"; "b.png"])
       (mkImageLoader ["a.png"] [HTMLImageElement "a.png"] None false))
  = (if (0 <? length
                (loadedImages
                   (mkImageLoader ["a.png"] [HTMLImageElement "a.png"] None
                                  false)))%nat
     then None
     else getError
            (mkImageLoader ["a.png"] [HTMLImageElement "a.png"] None false)) /\
  isLoading
    (addImages (SrcArray ["a.png"; "b.png"])
       (mkImageLoader ["a.png"] [HTMLImageElement "a.png"] None false))
  = false.
Proof.
  apply (addImages_invalidates ["a.png"; "b.png"]
           (mkImageLoader ["a.png"] [HTMLImageElement "a.png"] None false)
           "b.png").
  - reflexivity.
  - apply list_elem_of_further, list_elem_of_here.
  - cbn [srcArray]. intros H. apply list_elem_of_singleton in H. discriminate H.
Defined.

Lemma foldl_addImage_srcArray_ext (l : list string) :
  forall s s1 : ImageLoader,
    srcArray s1 = srcArray s ->
    srcArray (foldl addImage s1 l) = srcArray (foldl addImage s l).
Proof.
  induction l as [|x l IH]; intros s s1 E; cbn [foldl]; [exact E |].
  apply IH. rewrite !addImage_srcArray, E. reflexivity.
Qed.

(** X13. A load from start to end.  On a loader that is not loading and has
    sources, [load()] returns a pending promise for the sources listed at
    that moment and raises the flag.  Until the promise settles, another
    [load()] is rejected and changes nothing, and sources passed to
    [addImages] are listed but not loaded.  When all images have loaded, the
    promise and [getImages()] give one image per source of the moment of the
    call, in order, however many sources are listed by then, with no error.
    When an image fails, they give the error of that source and no image.
    Either way the flag is lowered. *)
Theorem load_lifecycle (s : ImageLoader) (srcs : list string)
    (failed : string) :
  isLoading s = false ->
  srcArray s <> [] ->
  fst (load s) = Pending (srcArray s) /\
  isLoading (snd (load s)) = true /\
  load (addImages (SrcArray srcs) (snd (load s)))
  = (RejectedNow (Error "Load already in progress."),
     addImages (SrcArray srcs) (snd (load s))) /\
  settle (srcArray s) None (addImages (SrcArray srcs) (snd (load s)))
  = (inr (map HTMLImageElement (srcArray s)),
     mkImageLoader (srcArray (addImages (SrcArray srcs) s))
                   (map HTMLImageElement (srcArray s)) None false) /\
  settle (srcArray s) (Some failed)
         (addImages (SrcArray srcs) (snd (load s)))
  = (inl (Error (String.append "Failed to load image: " failed)),
     mkImageLoader (srcArray (addImages (SrcArray srcs) s)) []
                   (Some (Error (String.append "Failed to load image: " failed)))
                   false).
Proof.
  intros Hl Hs.
  assert (load s = (Pending (srcArray s), mkImageLoader (srcArray s) [] None true))
    as E.
  { unfold load. rewrite Hl. destruct (srcArray s); [contradiction | reflexivity]. }
  rewrite E. cbn [fst snd isLoading].
  destruct (foldl_addImage_keeps srcs (mkImageLoader (srcArray s) [] None true))
    as (_ & _ & H3); [now left |].
  pose proof (foldl_addImage_srcArray_ext srcs s
                (mkImageLoader (srcArray s) [] None true) eq_refl) as H4.
  cbn [addImages isLoading] in *.
  repeat split.
  - unfold load. now rewrite H3.
  - unfold settle, load_then. now rewrite H4.
  - unfold settle, load_catch. now rewrite H4.
Qed.

Lemma load_lifecycle_witness :
  fst (load (mkImageLoader ["a.png"] [] None false)) = Pending ["a.png"] /\
  isLoading (snd (load (mkImageLoader ["a.png"] [] None false))) = true /\
  load (addImages (SrcArray ["b.png"])
          (snd (load (mkImageLoader ["a.png"] [] None false))))
  = (RejectedNow (Error "Load already in progress."),
     addImages (SrcArray ["b.png"])
       (snd (load (mkImageLoader ["a.png"] [] None false)))) /\
  settle ["a.png"] None
    (addImages (SrcArray ["b.png"])
       (snd (load (mkImageLoader ["a.png"] [] None false))))
  = (inr (map HTMLImageElement ["a.png"]),
     mkImageLoader
       (srcArray (addImages (SrcArray ["b.png"])
                    (mkImageLoader ["a.png"] [] None false)))
       (map HTMLImageElement ["a.png"]) None false) /\
  settle ["a.png"] (Some "a.png")
    (addImages (SrcArray ["b.png"])
       (snd (load (mkImageLoader ["a.png"] [] None false))))
  = (inl (Error (String.append "Failed to load image: " "a.png")),
     mkImageLoader
       (srcArray (addImages (SrcArray ["b.png"])
                    (mkImageLoader ["a.png"] [] None false)))
       []
       (Some (Error (String.append "Failed to load image: " "a.png")))
       false).
Proof.
  apply (load_lifecycle (mkImageLoader ["a.png"] [] None false) ["b.png"]
           "a.png").
  - reflexivity.
  - discriminate.
Defined.

(** Whatever is added, the images are kept or dropped, the error is kept or
    cleared, and the flag is kept. *)
Lemma foldl_addImage_fields (l : list string) :
  forall s : ImageLoader,
    (loadedImages (foldl addImage s l) = loadedImages s \/
     loadedImages (foldl addImage s l) = []) /\
    (loadingError (foldl addImage s l) = loadingError s \/
     loadingError (foldl addImage s l) = None) /\
    isLoading (foldl addImage s l) = isLoading s.
Proof.
  induction l as [|x l IH]; intros s; cbn [foldl]; [tauto |].
  destruct (IH (addImage s x)) as (H1 & H2 & H3).
  assert ((loadedImages (addImage s x) = loadedImages s \/
           loadedImages (addImage s x) = []) /\
          (loadingError (addImage s x) = loadingError s \/
           loadingError (addImage s x) = None) /\
          isLoading (addImage s x) = isLoading s) as (E1 & E2 & E3).
  { unfold addImage. destruct (bool_decide (x ∈ srcArray s)); [tauto |].
    cbn [isLoading loadedImages].
    destruct (negb (isLoading s) && (0 <? length (loadedImages s))%nat);
      cbn; tauto. }
  rewrite H3, E3. split; [| split; [| reflexivity]].
  - destruct H1 as [-> | ->]; tauto.
  - destruct H2 as [-> | ->]; tauto.
Qed.

(** X14. A loader never holds images and an error together, and while a
    load is pending it holds neither. *)
Theorem loader_images_or_error (s : ImageLoader) :
  loader_reachable s ->
  (getImages s = [] \/ getError s = None) /\
  (isLoading s = false \/ (getImages s = [] /\ getError s = None)).
Proof.
  unfold getImages, getError.
  induction 1 as [arg s Hnew | arg s _ IH | s _ IH | srcs failed s _ IH Hl].
  - destruct arg; try discriminate; injection Hnew as <-; cbn; tauto.
  - destruct arg as [| | srcs]; try exact IH. cbn [addImages].
    destruct (foldl_addImage_fields srcs s) as (H1 & H2 & ->).
    destruct IH as [IH1 IH2].
    destruct H1 as [-> | ->], H2 as [-> | ->]; tauto.
  - unfold load. destruct (isLoading s) eqn:Hl.
    + cbn [snd]. rewrite Hl. exact IH.
    + destruct (length (srcArray s) =? 0)%nat; cbn; tauto.
  - destruct failed; cbn; tauto.
Qed.

Lemma loader_images_or_error_witness :
  (getImages (mkImageLoader ["a.png"] [] None false) = [] \/
   getError (mkImageLoader ["a.png"] [] None false) = None) /\
  (isLoading (mkImageLoader ["a.png"] [] None false) = false \/
   (getImages (mkImageLoader ["a.png"] [] None false) = [] /\
    getError (mkImageLoader ["a.png"] [] None false) = None)).
Proof.
  apply (loader_images_or_error (mkImageLoader ["a.png"] [] None false)).
  apply (loader_new (SrcArray ["a.png"])). reflexivity.
Defined.

(** * Properties of the image cache *)

(** ** Keys and names *)

Lemma substring_all (s : string) : String.substring 0 (String.length s) s = s.
Proof. induction s as [|c s IH]; cbn; [reflexivity | now rewrite IH]. Qed.

Lemma slice_append (p s : string) :
  slice (String.length p) (String.append p s) = s.
Proof.
  unfold slice. induction p as [|c p IH]; cbn.
  - rewrite Nat.sub_0_r. apply substring_all.
  - exact IH.
Qed.

Lemma prefix_append (p s : string) : String.prefix p (String.append p s) = true.
Proof.
  induction p as [|c p IH]; simpl; [now destruct s |].
  destruct (Ascii.ascii_dec c c); [exact IH | contradiction].
Qed.

Lemma prefix_slice (p key : string) :
  String.prefix p key = true ->
  key = String.append p (slice (String.length p) key).
Proof.
  revert key. induction p as [|c p IH]; intros key H.
  - unfold slice. cbn. now rewrite Nat.sub_0_r, substring_all.
  - destruct key as [|c' key]; [discriminate |]. cbn in H.
    destruct (Ascii.ascii_dec c c') as [<- |]; [| discriminate].
    change (slice (String.length (String c p)) (String c key))
      with (slice (String.length p) key).
    change (String c key
            = String c (String.append p (slice (String.length p) key))).
    f_equal. exact (IH key H).
Qed.

(** ** The storage *)

Lemma getItem_elem (key : string) (items : Storage) (v : string) :
  getItem key items = Some v -> (key, v) ∈ items.
Proof.
  induction items as [|[k w] items IH]; cbn; [discriminate |].
  destruct (String.eqb_spec k key) as [-> | Hne].
  - intros [= ->]. apply list_elem_of_here.
  - intros H. apply list_elem_of_further. exact (IH H).
Qed.

Lemma getItem_None (key : string) (items : Storage) :
  getItem key items = None <-> key ∉ (fst <$> items).
Proof.
  induction items as [|[k w] items IH]; cbn.
  - split; [intros _ H; inversion H | reflexivity].
  - rewrite elem_of_cons. destruct (String.eqb_spec k key) as [-> | Hne].
    + split; [discriminate | intros H; exfalso; apply H; now left].
    + rewrite IH. cbn. split; [intros H [E | E]; [congruence | tauto] | tauto].
Qed.

Lemma getItem_setItem (key value key' : string) (items : Storage) :
  getItem key' (setItem key value items)
  = if String.eqb key key' then Some value else getItem key' items.
Proof.
  induction items as [|[k w] items IH]; cbn.
  - destruct (String.eqb key key'); reflexivity.
  - destruct (String.eqb_spec k key) as [-> | Hne]; cbn.
    + destruct (String.eqb key key'); reflexivity.
    + rewrite IH. destruct (String.eqb_spec k key') as [-> | Hne'];
        [| reflexivity].
      destruct (String.eqb_spec key key'); [congruence | reflexivity].
Qed.

Lemma getItem_removeItem (key key' : string) (items : Storage) :
  getItem key' (removeItem key items)
  = if String.eqb key key' then None else getItem key' items.
Proof.
  induction items as [|[k w] items IH]; cbn.
  - destruct (String.eqb key key'); reflexivity.
  - destruct (String.eqb_spec k key) as [-> | Hne]; cbn.
    + rewrite IH. destruct (String.eqb key key'); reflexivity.
    + rewrite IH. destruct (String.eqb_spec k key') as [-> | Hne'];
        [| reflexivity].
      destruct (String.eqb_spec key key'); [congruence | reflexivity].
Qed.

Lemma keys_setItem (key value : string) (items : Storage) :
  fst <$> setItem key value items
  = if bool_decide (key ∈ (fst <$> items)) then fst <$> items
    else (fst <$> items) ++ [key].
Proof.
  induction items as [|[k w] items IH]; cbn; [reflexivity |].
  destruct (String.eqb_spec k key) as [-> | Hne]; cbn.
  - rewrite bool_decide_eq_true_2 by apply list_elem_of_here. reflexivity.
  - rewrite IH.
    destruct (bool_decide_reflect (key ∈ (fst <$> items))) as [Hin | Hin].
    + rewrite bool_decide_eq_true_2 by now apply list_elem_of_further.
      reflexivity.
    + rewrite bool_decide_eq_false_2; [reflexivity |].
      rewrite elem_of_cons. intros [E | E]; [congruence | contradiction].
Qed.

Lemma setItem_NoDup (key value : string) (items : Storage) :
  NoDup (fst <$> items) -> NoDup (fst <$> setItem key value items).
Proof.
  intros H. rewrite keys_setItem.
  destruct (bool_decide_reflect (key ∈ (fst <$> items))) as [Hin | Hin];
    [exact H |].
  apply NoDup_app. split; [exact H |]. split.
  - intros x Hx Hx'. apply list_elem_of_singleton in Hx' as ->. contradiction.
  - apply NoDup_singleton.
Qed.

Lemma keys_removeItem (key : string) (items : Storage) :
  sublist (fst <$> removeItem key items) (fst <$> items).
Proof.
  induction items as [|[k w] items IH]; cbn; [constructor |].
  destruct (String.eqb k key); cbn;
    [now apply sublist_cons | now apply sublist_skip].
Qed.

(** ** What the effect lists *)

Lemma foldl_scan_key_elem (items : Storage) (keys : list string) :
  forall (acc : list CachedImage) (img : CachedImage),
    img ∈ foldl (scan_key items) acc keys
    <-> img ∈ acc \/
        exists key v,
          key ∈ keys /\ String.prefix CACHE_PREFIX key = true /\
          getItem key items = Some v /\ v <> ""%string /\
          img = mkCachedImage (slice (String.length CACHE_PREFIX) key) (Some v).
Proof.
  induction keys as [|k keys IH]; intros acc img; cbn [foldl].
  - split; [now left | intros [H | (key & v & H & _)]; [exact H | inversion H]].
  - rewrite IH. unfold scan_key.
    destruct (String.prefix CACHE_PREFIX k) eqn:Hp.
    + destruct (getItem k items) as [w|] eqn:Hg.
      * destruct (String.eqb_spec w "") as [-> | Hw].
        -- split.
           ++ intros [H | (key & v & Hk & H)]; [now left | right].
              exists key, v. split; [now apply list_elem_of_further | exact H].
           ++ intros [H | (key & v & Hk & Hpk & Hgk & Hv & E)]; [now left |].
              apply elem_of_cons in Hk as [-> | Hk]; [congruence | right].
              now exists key, v.
        -- rewrite elem_of_app, list_elem_of_singleton. split.
           ++ intros [[H | ->] | (key & v & Hk & H)]; [now left | right | right].
              ** exists k, w. split; [apply list_elem_of_here | now repeat split].
              ** exists key, v.
                 split; [now apply list_elem_of_further | exact H].
           ++ intros [H | (key & v & Hk & Hpk & Hgk & Hv & E)];
                [now left; left |].
              apply elem_of_cons in Hk as [-> | Hk].
              ** left; right. congruence.
              ** right. now exists key, v.
      * split.
        -- intros [H | (key & v & Hk & H)]; [now left | right].
           exists key, v. split; [now apply list_elem_of_further | exact H].
        -- intros [H | (key & v & Hk & Hpk & Hgk & Hv & E)]; [now left |].
           apply elem_of_cons in Hk as [-> | Hk]; [congruence | right].
           now exists key, v.
    + split.
      * intros [H | (key & v & Hk & H)]; [now left | right].
        exists key, v. split; [now apply list_elem_of_further | exact H].
      * intros [H | (key & v & Hk & Hpk & Hgk & Hv & E)]; [now left |].
        apply elem_of_cons in Hk as [-> | Hk]; [congruence | right].
        now exists key, v.
Qed.

Lemma scan_elem (items : Storage) (img : CachedImage) :
  img ∈ scan items
  <-> exists n v,
        img = mkCachedImage n (Some v) /\
        getItem (String.append CACHE_PREFIX n) items = Some v /\
        v <> ""%string.
Proof.
  unfold scan. rewrite foldl_scan_key_elem. split.
  - intros [H | (key & v & Hk & Hp & Hg & Hv & ->)]; [inversion H |].
    exists (slice (String.length CACHE_PREFIX) key), v.
    split; [reflexivity |]. split; [| exact Hv].
    now rewrite <- (prefix_slice CACHE_PREFIX key Hp).
  - intros (n & v & -> & Hg & Hv). right.
    exists (String.append CACHE_PREFIX n), v.
    split; [| split; [apply prefix_append | split; [exact Hg | split; [exact Hv |]]]].
    + destruct (decide (String.append CACHE_PREFIX n ∈ (fst <$> items)))
        as [Hin | Hin]; [exact Hin |].
      apply getItem_None in Hin. congruence.
    + now rewrite slice_append.
Qed.

(** The names that the effect lists are the keys with the prefix, cut. *)
Lemma foldl_scan_key_names (items : Storage) (keys : list string) :
  forall acc : list CachedImage,
    exists keys',
      sublist keys' keys /\
      Forall (fun key => String.prefix CACHE_PREFIX key = true) keys' /\
      name <$> foldl (scan_key items) acc keys
      = (name <$> acc) ++ (slice (String.length CACHE_PREFIX) <$> keys').
Proof.
  induction keys as [|k keys IH]; intros acc; cbn [foldl].
  - exists []. rewrite app_nil_r. now repeat constructor.
  - destruct (IH (scan_key items acc k)) as (keys' & Hsub & Hall & E).
    assert (scan_key items acc k = acc \/
            (String.prefix CACHE_PREFIX k = true /\
             exists w,
               scan_key items acc k
               = acc ++ [mkCachedImage (slice (String.length CACHE_PREFIX) k)
                                       (Some w)])) as [Hk | (Hp & w & Hk)].
    { unfold scan_key.
      destruct (String.prefix CACHE_PREFIX k); [| now left].
      destruct (getItem k items) as [w|]; [| now left].
      destruct (String.eqb w ""); [now left | right].
      split; [reflexivity | now exists w]. }
    + exists keys'. rewrite E, Hk.
      split; [now apply sublist_cons | now split].
    + exists (k :: keys'). split; [now apply sublist_skip |].
      split; [now constructor |].
      rewrite E, Hk, fmap_app, <- app_assoc. reflexivity.
Qed.

Lemma scan_names_NoDup (items : Storage) :
  NoDup (fst <$> items) -> NoDup (name <$> scan items).
Proof.
  intros Hnd. unfold scan.
  destruct (foldl_scan_key_names items (fst <$> items) []) as (ks & Hs & Ha & ->).
  cbn [fmap list_fmap app].
  apply NoDup_fmap_2_strong; [| now apply (sublist_NoDup _ (fst <$> items))].
  intros x y Hx Hy E.
  rewrite Forall_forall in Ha.
  rewrite (prefix_slice CACHE_PREFIX x (Ha x Hx)),
          (prefix_slice CACHE_PREFIX y (Ha y Hy)).
  now rewrite E.
Qed.

(** X15. When the component mounts and the storage can be read, the images
    of the hook become exactly the items stored under the prefix with a
    non-empty value: an image [{name, src}] is listed if and only if the
    storage holds the non-empty [src] under the key [CACHE_PREFIX + name].
    With one item per key, no two of them have the same name.  When the
    storage cannot be read, the images are left as they are. *)
Theorem mount_lists_cache (h : CacheHook) (items : Storage)
    (img : CachedImage) :
  NoDup (fst <$> items) ->
  (img ∈ images (mount h (Some items))
   <-> exists n v,
         img = mkCachedImage n (Some v) /\
         getItem (String.append CACHE_PREFIX n) items = Some v /\
         v <> ""%string) /\
  NoDup (name <$> images (mount h (Some items))) /\
  isMounted (mount h (Some items)) = true /\
  images (mount h None) = images h.
Proof.
  intros Hnd. cbn [mount images setImages isMounted].
  split; [apply scan_elem |].
  split; [now apply scan_names_NoDup | now split].
Qed.

Lemma mount_lists_cache_witness :
  (mkCachedImage "cat.png" (Some "data:cat")
     ∈ images (mount useImageCache
                 (Some [("IMAGE_CACHEcat.png", "data:cat")%string]))
   <-> exists n v,
         mkCachedImage "cat.png" (Some "data:cat") = mkCachedImage n (Some v) /\
         getItem (String.append CACHE_PREFIX n)
                 [("IMAGE_CACHEcat.png", "data:cat")%string] = Some v /\
         v <> ""%string) /\
  NoDup (name <$> images (mount useImageCache
                            (Some [("IMAGE_CACHEcat.png", "data:cat")%string]))) /\
  isMounted (mount useImageCache
               (Some [("IMAGE_CACHEcat.png", "data:cat")%string])) = true /\
  images (mount useImageCache None) = images useImageCache.
Proof.
  apply (mount_lists_cache useImageCache
           [("IMAGE_CACHEcat.png", "data:cat")%string]
           (mkCachedImage "cat.png" (Some "data:cat"))).
  cbn. apply NoDup_singleton.
Defined.

(** ** One image per name *)

Lemma add_unless_present_NoDup (n : string) (v : option string)
    (prev : list CachedImage) :
  NoDup (name <$> prev) -> NoDup (name <$> add_unless_present n v prev).
Proof.
  intros H. unfold add_unless_present.
  destruct (existsb (fun img => String.eqb (name img) n) prev) eqn:E;
    [exact H |].
  rewrite fmap_app. apply NoDup_app. split; [exact H |].
  split; [| apply NoDup_singleton].
  intros x Hx Hx'. apply list_elem_of_singleton in Hx'. cbn in Hx'. subst x.
  apply list_elem_of_fmap in Hx as (img & Hn & Hin).
  assert (existsb (fun img => String.eqb (name img) n) prev = true) as Ht.
  { apply existsb_exists. exists img.
    split; [now apply list_elem_of_In | now apply String.eqb_eq]. }
  congruence.
Qed.

Lemma filter_sublist {A : Type} (f : A -> bool) (l : list A) :
  sublist (List.filter f l) l.
Proof.
  induction l as [|x l IH]; cbn; [constructor |].
  destruct (f x); [now apply sublist_skip | now apply sublist_cons].
Qed.

Lemma foldl_clear_key_keys (keys : list string) :
  forall items : Storage,
    sublist (fst <$> foldl clear_key items keys) (fst <$> items).
Proof.
  induction keys as [|k keys IH]; intros items; cbn [foldl]; [reflexivity |].
  etransitivity; [apply IH |].
  unfold clear_key. destruct (String.prefix CACHE_PREFIX k); [| reflexivity].
  apply keys_removeItem.
Qed.

Lemma cache_step_unique (w : CacheHook * option Storage) (e : CacheEvent) :
  NoDup (name <$> images (fst w)) ->
  one_item_per_key (snd w) ->
  NoDup (name <$> images (fst (cache_step w e))) /\
  one_item_per_key (snd (cache_step w e)).
Proof.
  destruct w as [h ls]. cbn [fst snd]. intros Hn Hk.
  destruct e; cbn [cache_step fst snd].
  - split; [| exact Hk]. unfold mount.
    destruct ls as [items|]; [| exact Hn].
    apply scan_names_NoDup. now apply Hk.
  - now split.
  - split; [| exact Hk]. unfold processAndCacheFile.
    destruct file as [f|]; [| now destruct (isMounted h)].
    destruct (isMounted h) eqn:Hm;
      cbn [isMounted setIsLoading images]; rewrite ?Hm;
      (destruct ls as [items|]; [| exact Hn]);
      (destruct (getItem (String.append CACHE_PREFIX (file_name f)) items)
         as [v|]; [| exact Hn]);
      (destruct (String.eqb v ""); [exact Hn |]);
      cbn [fst images setIsLoading setImages];
      [now apply add_unless_present_NoDup | exact Hn].
  - unfold onloadend. destruct (isMounted h); [| now split].
    cbn [fst snd images setIsLoading setImages].
    split; [now apply add_unless_present_NoDup |].
    destruct ls as [items|]; [| intros ? [=]].
    destruct quota_exceeded; [exact Hk |].
    intros items' [= <-]. apply setItem_NoDup. now apply Hk.
  - split; [| exact Hk]. unfold onerror. now destruct (isMounted h).
  - unfold clearCachedImageByName.
    destruct (String.eqb fileName ""); [now split |].
    destruct ls as [items|]; [| now split].
    cbn [fst snd images setImages]. split.
    + eapply sublist_NoDup; [exact Hn |].
      apply fmap_sublist, filter_sublist.
    + intros items' [= <-].
      eapply sublist_NoDup; [now apply Hk | apply keys_removeItem].
  - unfold clearAllCachedImages.
    destruct ls as [items|]; [| now split].
    cbn [fst snd]. split.
    + destruct (isMounted h); [constructor | exact Hn].
    + intros items' [= <-].
      eapply sublist_NoDup; [now apply Hk | apply foldl_clear_key_keys].
Qed.

(** X16. Whatever happens to the hook, in whatever order, it never lists two
    images with the same name, as long as the storage it starts with holds
    one item per key; and the storage keeps holding one item per key. *)
Theorem cache_names_unique (events : list CacheEvent)
    (localStorage : option Storage) :
  one_item_per_key localStorage ->
  NoDup (name <$> images
                    (fst (foldl cache_step (useImageCache, localStorage) events)))
  /\
  one_item_per_key
    (snd (foldl cache_step (useImageCache, localStorage) events)).
Proof.
  intros Hk.
  assert (NoDup (name <$> images (fst (useImageCache, localStorage))))
    as Hn by constructor.
  change localStorage with (snd (useImageCache, localStorage)) in Hk.
  revert Hn Hk. generalize (useImageCache, localStorage).
  induction events as [|e events IH]; intros w Hn Hk; cbn [foldl];
    [now split |].
  destruct (cache_step_unique w e Hn Hk) as [Hn' Hk'].
  now apply IH.
Qed.

Lemma cache_names_unique_witness :
  NoDup (name <$> images
                    (fst (foldl cache_step (useImageCache, Some [])
                            [Mount;
                             ProcessAndCacheFile (Some (mkFile "cat.png"));
                             LoadEnd (mkFile "cat.png") (Some "data:cat")
                                     false])))
  /\
  one_item_per_key
    (snd (foldl cache_step (useImageCache, Some [])
            [Mount;
             ProcessAndCacheFile (Some (mkFile "cat.png"));
             LoadEnd (mkFile "cat.png") (Some "data:cat") false])).
Proof.
  apply (cache_names_unique
           [Mount;
            ProcessAndCacheFile (Some (mkFile "cat.png"));
            LoadEnd (mkFile "cat.png") (Some "data:cat") false]
           (Some [])).
  intros items H. injection H as <-. constructor.
Defined.

(** ** Caching by file name *)

Lemma add_unless_present_has (n : string) (v : option string)
    (prev : list CachedImage) :
  existsb (fun img => String.eqb (name img) n) (add_unless_present n v prev)
  = true.
Proof.
  unfold add_unless_present.
  destruct (existsb (fun img => String.eqb (name img) n) prev) eqn:E;
    [exact E |].
  rewrite existsb_app. cbn. now rewrite String.eqb_refl, orb_true_r.
Qed.

Lemma add_unless_present_again (n : string) (v v' : option string)
    (prev : list CachedImage) :
  add_unless_present n v' (add_unless_present n v prev)
  = add_unless_present n v prev.
Proof.
  unfold add_unless_present at 1. now rewrite add_unless_present_has.
Qed.

(** X17. The cache goes by file name only.  Once the read of a file has
    ended with data on a mounted hook and the data is stored, the storage
    gives that data back under [CACHE_PREFIX + name], a later mount lists
    the image with it, and [processAndCacheFile] of any file of the same
    name changes nothing and starts no read: the contents of that second
    file are never looked at. *)
Theorem cache_by_file_name (f f' : File) (data : string) (h h' : CacheHook)
    (items : Storage) :
  isMounted h = true ->
  data <> ""%string ->
  file_name f' = file_name f ->
  snd (onloadend f (Some data) false h (Some items))
  = Some (setItem (String.append CACHE_PREFIX (file_name f)) data items) /\
  getItem (String.append CACHE_PREFIX (file_name f))
          (setItem (String.append CACHE_PREFIX (file_name f)) data items)
  = Some data /\
  mkCachedImage (file_name f) (Some data)
    ∈ images
        (mount h'
           (Some (setItem (String.append CACHE_PREFIX (file_name f)) data
                          items))) /\
  hook_isLoading (fst (onloadend f (Some data) false h (Some items))) = false /\
  processAndCacheFile (Some f')
    (fst (onloadend f (Some data) false h (Some items)))
    (snd (onloadend f (Some data) false h (Some items)))
  = (fst (onloadend f (Some data) false h (Some items)), None).
Proof.
  intros Hm Hd Hf.
  assert (getItem (String.append CACHE_PREFIX (file_name f))
            (setItem (String.append CACHE_PREFIX (file_name f)) data items)
          = Some data) as Hg
    by (now rewrite getItem_setItem, String.eqb_refl).
  unfold onloadend. rewrite Hm. cbn [fst snd default].
  split; [reflexivity |]. split; [exact Hg |]. split; [| split; [reflexivity |]].
  - cbn [mount images setImages]. apply scan_elem.
    now exists (file_name f), data.
  - unfold processAndCacheFile, setIsLoading, setImages. rewrite Hf.
    cbn [isMounted images hook_isLoading]. rewrite Hm. cbv zeta.
    cbn [isMounted images hook_isLoading].
    change (Datatypes.id data) with data. rewrite Hg.
    destruct (String.eqb_spec data "") as [E | _]; [contradiction |].
    rewrite add_unless_present_again. reflexivity.
Qed.

Lemma cache_by_file_name_witness :
  snd (onloadend (mkFile "cat.png") (Some "data:cat") false useImageCache
         (Some []))
  = Some (setItem (String.append CACHE_PREFIX (file_name (mkFile "cat.png")))
                  "data:cat" []) /\
  getItem (String.append CACHE_PREFIX (file_name (mkFile "cat.png")))
          (setItem (String.append CACHE_PREFIX (file_name (mkFile "cat.png")))
                   "data:cat" [])
  = Some "data:cat"%string /\
  mkCachedImage (file_name (mkFile "cat.png")) (Some "data:cat")
    ∈ images
        (mount useImageCache
           (Some (setItem
                    (String.append CACHE_PREFIX (file_name (mkFile "cat.png")))
                    "data:cat" []))) /\
  hook_isLoading
    (fst (onloadend (mkFile "cat.png") (Some "data:cat") false useImageCache
            (Some [])))
  = false /\
  processAndCacheFile (Some (mkFile "cat.png"))
    (fst (onloadend (mkFile "cat.png") (Some "data:cat") false useImageCache
            (Some [])))
    (snd (onloadend (mkFile "cat.png") (Some "data:cat") false useImageCache
            (Some [])))
  = (fst (onloadend (mkFile "cat.png") (Some "data:cat") false useImageCache
            (Some [])),
     None).
Proof.
  apply (cache_by_file_name (mkFile "cat.png") (mkFile "cat.png") "data:cat"
           useImageCache useImageCache []).
  - reflexivity.
  - discriminate.
  - reflexivity.
Defined.

(** ** Clearing the cache *)

Lemma foldl_clear_key_get (keys : list string) (key : string) :
  forall items : Storage,
    getItem key (foldl clear_key items keys)
    = if String.prefix CACHE_PREFIX key && bool_decide (key ∈ keys)
      then None else getItem key items.
Proof.
  induction keys as [|k keys IH]; intros items; cbn [foldl].
  - rewrite bool_decide_eq_false_2 by (intros H; inversion H).
    now rewrite andb_false_r.
  - rewrite IH. unfold clear_key.
    destruct (String.prefix CACHE_PREFIX key) eqn:Hp; cbn [andb].
    + destruct (bool_decide_reflect (key ∈ keys)) as [Hin | Hin].
      * rewrite bool_decide_eq_true_2 by now apply list_elem_of_further.
        reflexivity.
      * destruct (String.eqb_spec k key) as [-> | Hne].
        -- rewrite bool_decide_eq_true_2 by apply list_elem_of_here.
           rewrite Hp, getItem_removeItem. now rewrite String.eqb_refl.
        -- rewrite bool_decide_eq_false_2
             by (rewrite elem_of_cons; intros [E | E]; congruence).
           destruct (String.prefix CACHE_PREFIX k); [| reflexivity].
           rewrite getItem_removeItem.
           destruct (String.eqb_spec k key); [congruence | reflexivity].
    + destruct (String.prefix CACHE_PREFIX k) eqn:Hpk; [| reflexivity].
      rewrite getItem_removeItem.
      destruct (String.eqb_spec k key) as [-> | Hne]; [congruence | reflexivity].
Qed.

(** X18. [clearAllCachedImages] on a mounted hook with a readable storage
    removes every item whose key has the prefix and leaves the other items
    of the storage as they are; the hook then lists no image and is not
    loading, and a later mount finds nothing to list.  When the storage
    cannot be read, nothing is cleared, not even the images of the hook. *)
Theorem clearAll_clears (h : CacheHook) (items : Storage) :
  isMounted h = true ->
  images (fst (clearAllCachedImages h (Some items))) = [] /\
  hook_isLoading (fst (clearAllCachedImages h (Some items))) = false /\
  (exists items',
      snd (clearAllCachedImages h (Some items)) = Some items' /\
      (forall key,
          getItem key items'
          = if String.prefix CACHE_PREFIX key then None else getItem key items) /\
      scan items' = []) /\
  clearAllCachedImages h None = (h, None).
Proof.
  intros Hm. unfold clearAllCachedImages. rewrite Hm. cbn [fst snd].
  split; [reflexivity |]. split; [reflexivity |]. split; [| reflexivity].
  exists (foldl clear_key items (fst <$> items)).
  assert (forall key,
             getItem key (foldl clear_key items (fst <$> items))
             = if String.prefix CACHE_PREFIX key then None
               else getItem key items) as Hget.
  { intros key. rewrite foldl_clear_key_get.
    destruct (String.prefix CACHE_PREFIX key); [| reflexivity].
    cbn [andb].
    destruct (bool_decide_reflect (key ∈ (fst <$> items))) as [Hin | Hin];
      [reflexivity |].
    symmetry. now apply getItem_None in Hin. }
  split; [reflexivity |]. split; [exact Hget |].
  apply elem_of_nil_inv. intros img Himg.
  apply scan_elem in Himg as (n & v & _ & Hg & _).
  rewrite Hget, prefix_append in Hg. discriminate.
Qed.

Lemma clearAll_clears_witness :
  images (fst (clearAllCachedImages useImageCache
                 (Some [("IMAGE_CACHEcat.png", "data:cat")%string])))
  = [] /\
  hook_isLoading
    (fst (clearAllCachedImages useImageCache
            (Some [("IMAGE_CACHEcat.png", "data:cat")%string])))
  = false /\
  (exists items',
      snd (clearAllCachedImages useImageCache
             (Some [("IMAGE_CACHEcat.png", "data:cat")%string]))
      = Some items' /\
      (forall key,
          getItem key items'
          = if String.prefix CACHE_PREFIX key then None
            else getItem key [("IMAGE_CACHEcat.png", "data:cat")%string]) /\
      scan items' = []) /\
  clearAllCachedImages useImageCache None = (useImageCache, None).
Proof.
  apply (clearAll_clears useImageCache
           [("IMAGE_CACHEcat.png", "data:cat")%string]).
  reflexivity.
Defined.

(** X19. [clearCachedImageByName(fileName)], for a name that is not empty
    and a readable storage, removes the item stored under
    [CACHE_PREFIX + fileName] and no other, and drops from the hook the
    images of that name and no other.  With the empty name, or when the
    storage cannot be read, it changes nothing. *)
Theorem clearByName_clears (fileName : string) (h : CacheHook)
    (items : Storage) (img : CachedImage) (key : string) :
  fileName <> ""%string ->
  (exists items',
      snd (clearCachedImageByName fileName h (Some items)) = Some items' /\
      getItem key items'
      = if String.eqb (String.append CACHE_PREFIX fileName) key then None
        else getItem key items) /\
  (img ∈ images (fst (clearCachedImageByName fileName h (Some items)))
   <-> img ∈ images h /\ name img <> fileName) /\
  clearCachedImageByName fileName h None = (h, None) /\
  clearCachedImageByName "" h (Some items) = (h, Some items).
Proof.
  intros Hn. unfold clearCachedImageByName.
  destruct (String.eqb_spec fileName "") as [E | _]; [contradiction |].
  cbn [fst snd images setImages String.eqb].
  split; [| split; [| now split]].
  - eexists. split; [reflexivity | apply getItem_removeItem].
  - rewrite list_elem_of_In, filter_In, <- list_elem_of_In, negb_true_iff.
    now rewrite String.eqb_neq.
Qed.

Lemma clearByName_clears_witness :
  (exists items',
      snd (clearCachedImageByName "cat.png" useImageCache
             (Some [("IMAGE_CACHEcat.png", "data:cat")%string]))
      = Some items' /\
      getItem "IMAGE_CACHEcat.png" items'
      = if String.eqb (String.append CACHE_PREFIX "cat.png")
                      "IMAGE_CACHEcat.png"
        then None
        else getItem "IMAGE_CACHEcat.png"
                     [("IMAGE_CACHEcat.png", "data:cat")%string]) /\
  (mkCachedImage "cat.png" (Some "data:cat")
     ∈ images (fst (clearCachedImageByName "cat.png" useImageCache
                      (Some [("IMAGE_CACHEcat.png", "data:cat")%string])))
   <-> mkCachedImage "cat.png" (Some "data:cat") ∈ images useImageCache /\
       name (mkCachedImage "cat.png" (Some "data:cat")) <> "cat.png"%string) /\
  clearCachedImageByName "cat.png" useImageCache None = (useImageCache, None) /\
  clearCachedImageByName "" useImageCache
    (Some [("IMAGE_CACHEcat.png", "data:cat")%string])
  = (useImageCache, Some [("IMAGE_CACHEcat.png", "data:cat")%string]).
Proof.
  apply (clearByName_clears "cat.png" useImageCache
           [("IMAGE_CACHEcat.png", "data:cat")%string]
           (mkCachedImage "cat.png" (Some "data:cat")) "IMAGE_CACHEcat.png").
  discriminate.
Defined.

(** ** A read that failed *)

Lemma existsb_name_false (n : string) (l : list CachedImage) :
  n ∉ name <$> l ->
  existsb (fun img => String.eqb (name img) n) l = false.
Proof.
  induction l as [|img l IH]; intros H; [reflexivity |].
  rewrite fmap_cons, not_elem_of_cons in H. destruct H as [H1 H2].
  cbn [existsb]. rewrite (IH H2).
  destruct (String.eqb_spec (name img) n); [congruence | reflexivity].
Qed.

(** X20. When the read of a file fails, [reader.result] is [null] at
    [onloadend]; on a mounted hook that lists no image of that name, the
    handler then adds an image without a source and stores the string "null"
    under the key of the file.  From then on the cache answers for that name:
    a later mount lists the image with "null" as its source, and
    [processAndCacheFile] of the file starts no new read. *)
Theorem failed_read_is_cached (f : File) (h h' : CacheHook) (items : Storage) :
  isMounted h = true ->
  file_name f ∉ name <$> images h ->
  images (fst (onloadend f None false h (Some items)))
  = images h ++ [mkCachedImage (file_name f) None] /\
  snd (onloadend f None false h (Some items))
  = Some (setItem (String.append CACHE_PREFIX (file_name f)) "null" items) /\
  mkCachedImage (file_name f) (Some "null")
    ∈ images (mount h' (snd (onloadend f None false h (Some items)))) /\
  snd (processAndCacheFile (Some f) h'
         (snd (onloadend f None false h (Some items))))
  = None.
Proof.
  intros Hm Hn.
  assert (getItem (String.append CACHE_PREFIX (file_name f))
            (setItem (String.append CACHE_PREFIX (file_name f)) "null" items)
          = Some "null"%string) as Hg
    by (now rewrite getItem_setItem, String.eqb_refl).
  unfold onloadend. rewrite Hm. cbn [fst snd].
  change (default "null"%string None) with "null"%string.
  split; [| split; [reflexivity | split]].
  - cbn [images setIsLoading setImages]. unfold add_unless_present.
    now rewrite existsb_name_false.
  - cbn [mount images setImages]. apply scan_elem.
    exists (file_name f), "null"%string. now repeat split.
  - unfold processAndCacheFile. cbv zeta. rewrite Hg. reflexivity.
Qed.

Lemma failed_read_is_cached_witness :
  images (fst (onloadend (mkFile "cat.png") None false useImageCache (Some [])))
  = images useImageCache ++ [mkCachedImage (file_name (mkFile "cat.png")) None]
  /\
  snd (onloadend (mkFile "cat.png") None false useImageCache (Some []))
  = Some (setItem (String.append CACHE_PREFIX (file_name (mkFile "cat.png")))
                  "null" []) /\
  mkCachedImage (file_name (mkFile "cat.png")) (Some "null")
    ∈ images
        (mount useImageCache
           (snd (onloadend (mkFile "cat.png") None false useImageCache
                   (Some [])))) /\
  snd (processAndCacheFile (Some (mkFile "cat.png")) useImageCache
         (snd (onloadend (mkFile "cat.png") None false useImageCache
                 (Some []))))
  = None.
Proof.
  apply (failed_read_is_cached (mkFile "cat.png") useImageCache useImageCache
           []).
  - reflexivity.
  - cbn. apply not_elem_of_nil.
Defined.

(** * Further invariants of the engine *)

(** ** The time of the samples *)

(** X21. In every state the engine reaches while it is drawing, a [draw]
    call that returns adds one sample at the end of the last stroke of the
    history, with the point of the call and, as its [t], the clock of the
    call itself: the time since the stroke started is never computed, and
    [lastT] is not consulted.  The other strokes are left as they were, and
    the last point becomes the point of the call. *)
Theorem sample_carries_clock (document : gmap string Element) (now : Z)
    (p : Point) (s s' : CanvasDrawer) :
  reachable s ->
  getIsDrawing s = true ->
  draw document now p s = Returned s' ->
  (exists strokes samples,
      canvasHistory s = strokes ++ [samples] /\
      canvasHistory s'
      = strokes ++ [samples ++ [mkSample (px p) (py p) now]]) /\
  lastX s' = px p /\
  lastY s' = py p /\
  lastT s' = lastT s.
Proof.
  unfold getIsDrawing. intros Hr Hd Hret.
  pose proof (reachable_strokes s Hr) as Hs.
  destruct (snoc_case (canvasHistory s)) as [E | (strokes & x & E)].
  { destruct (draw_empty_history document now p s Hd E) as (e & s1 & Hc & _).
    rewrite Hc in Hret. discriminate. }
  rewrite E in Hs. apply Forall_app in Hs as [_ Hs].
  inversion Hs as [|? ? (first & rest & -> & Hst) _]; subst.
  unfold draw in Hret. rewrite Hd in Hret. cbn [negb] in Hret.
  assert (exists s1,
             canvasHistory s1 = strokes ++ [first :: rest] /\
             lastT s1 = lastT s /\
             record_sample now p s1 = Returned s') as (s1 & H1 & H2 & H3).
  { destruct (brushMode s).
    - pose proof (_drawImage_engine_fields document (px p) (py p) s) as E1.
      pose proof (f_equal canvasHistory E1) as E2.
      pose proof (f_equal lastT E1) as E3.
      cbn [engine_fields set_ctx canvasHistory lastT measure snd buffer_write
             set_bufferIndex set_pointBuffer set_distanceBuffer] in E2, E3.
      destruct (_drawImage document (px p) (py p) s) as [s1 | e s1];
        cbn [and_then fields] in *; [| discriminate].
      exists s1. repeat split; congruence.
    - cbn [and_then] in Hret. exists (_drawLine (px p) (py p) s).
      repeat split; assumption. }
  rewrite (record_sample_history now p s1 strokes first rest H1) in H3.
  injection H3 as <-.
  cbn [canvasHistory set_last set_canvasHistory lastX lastY lastT].
  rewrite Hst, Z.sub_0_r.
  split; [| now repeat split].
  now exists strokes, (first :: rest).
Qed.

Lemma sample_carries_clock_witness :
  (exists strokes samples,
      canvasHistory (startDrawing 1000 origin fresh) = strokes ++ [samples] /\
      canvasHistory
        (set_last 10 0
           (set_canvasHistory [[mkSample 0 0 0; mkSample 10 0 1005]]
              (_drawLine 10 0 (startDrawing 1000 origin fresh))))
      = strokes ++ [samples ++ [mkSample (px (mkPoint 10 0))
                                        (py (mkPoint 10 0)) 1005]]) /\
  lastX
    (set_last 10 0
       (set_canvasHistory [[mkSample 0 0 0; mkSample 10 0 1005]]
          (_drawLine 10 0 (startDrawing 1000 origin fresh))))
  = px (mkPoint 10 0) /\
  lastY
    (set_last 10 0
       (set_canvasHistory [[mkSample 0 0 0; mkSample 10 0 1005]]
          (_drawLine 10 0 (startDrawing 1000 origin fresh))))
  = py (mkPoint 10 0) /\
  lastT
    (set_last 10 0
       (set_canvasHistory [[mkSample 0 0 0; mkSample 10 0 1005]]
          (_drawLine 10 0 (startDrawing 1000 origin fresh))))
  = lastT (startDrawing 1000 origin fresh).
Proof.
  apply (sample_carries_clock page 1005 (mkPoint 10 0)
           (startDrawing 1000 origin fresh)).
  - apply (reach_call fresh (StartDrawing 1000 origin)).
    apply (reach_new (Some (HTMLCanvasElement 100 100)) (Some blank_context)).
    reflexivity.
  - reflexivity.
  - rewrite (draw_line page 1005 (mkPoint 10 0)
               (startDrawing 1000 origin fresh) [] (mkSample 0 0 0) []);
      reflexivity.
Defined.

(** ** The smoothing buffers *)

(** X22. In every state the engine reaches, whatever calls were made and
    however they ended, the two smoothing buffers hold 20 entries each, the
    cursor is below 20, every distance of the buffer is a length (it is not
    negative) and so is their average; the grid step is still 20 and the
    stamp density one tenth. *)
Theorem smoothing_buffers_invariant (s : CanvasDrawer) :
  reachable s ->
  bufferSize s = 20%nat /\
  length (distanceBuffer s) = 20%nat /\
  length (pointBuffer s) = 20%nat /\
  (bufferIndex s < 20)%nat /\
  Forall (fun d => 0 <= d) (distanceBuffer s) /\
  0 <= buffer_average s /\
  gridSize s = 20%Z /\
  circlesPerPixel s = 1 / 10.
Proof.
  intros Hr.
  destruct (reachable_well_formed s Hr) as [H1 H2 H3 H4 H5 H6].
  pose proof (reachable_distances s Hr) as Hd.
  rewrite H1 in H2, H3, H4.
  repeat split; try assumption.
  unfold buffer_average. apply Rdiv_nonneg.
  - now apply foldl_Rplus_nonneg.
  - rewrite H1. simpl. lra.
Qed.

Lemma smoothing_buffers_invariant_witness :
  bufferSize (startDrawing 1000 origin fresh_brush) = 20%nat /\
  length (distanceBuffer (startDrawing 1000 origin fresh_brush)) = 20%nat /\
  length (pointBuffer (startDrawing 1000 origin fresh_brush)) = 20%nat /\
  (bufferIndex (startDrawing 1000 origin fresh_brush) < 20)%nat /\
  Forall (fun d => 0 <= d)
    (distanceBuffer (startDrawing 1000 origin fresh_brush)) /\
  0 <= buffer_average (startDrawing 1000 origin fresh_brush) /\
  gridSize (startDrawing 1000 origin fresh_brush) = 20%Z /\
  circlesPerPixel (startDrawing 1000 origin fresh_brush) = 1 / 10.
Proof.
  apply (smoothing_buffers_invariant (startDrawing 1000 origin fresh_brush)).
  apply (reach_call fresh_brush (StartDrawing 1000 origin)).
  apply (reach_call (setBrushMode true fresh) (SetBrushImage (Some "brush"))).
  apply (reach_call fresh (SetBrushMode true)).
  apply (reach_new (Some (HTMLCanvasElement 100 100)) (Some blank_context)).
  reflexivity.
Defined.

(** ** Fields that are written and never read *)

Lemma on_ctx_unread (f : Context -> exn + Context) (pb : list Point) (t : Z)
    (s : CanvasDrawer) :
  on_ctx f (set_lastT t (set_pointBuffer pb s))
  = on_fields (fun s => set_lastT t (set_pointBuffer pb s)) (on_ctx f s).
Proof.
  unfold on_ctx. cbn [ctx set_lastT set_pointBuffer].
  destruct (f (ctx s)); reflexivity.
Qed.

Lemma for_each_unread {A : Type} (l : list A)
    (body : A -> CanvasDrawer -> Completion) (pb : list Point) (t : Z) :
  (forall i s,
      body i (set_lastT t (set_pointBuffer pb s))
      = on_fields (fun s => set_lastT t (set_pointBuffer pb s)) (body i s)) ->
  forall s,
    for_each l body (set_lastT t (set_pointBuffer pb s))
    = on_fields (fun s => set_lastT t (set_pointBuffer pb s))
        (for_each l body s).
Proof.
  intros Hbody. induction l as [|i l IH]; intros s; [reflexivity |].
  cbn [for_each]. rewrite Hbody.
  destruct (body i s) as [s1 | e s1]; cbn [and_then on_fields];
    [apply IH | reflexivity].
Qed.

Lemma _drawImage_unread (document : gmap string Element) (x y : R)
    (pb : list Point) (t : Z) (s : CanvasDrawer) :
  _drawImage document x y (set_lastT t (set_pointBuffer pb s))
  = on_fields
      (fun s1 =>
         set_lastT t
           (set_pointBuffer (<[bufferIndex s := mkPoint x y]> pb) s1))
      (_drawImage document x y s).
Proof.
  unfold _drawImage.
  change (measure x y (set_lastT t (set_pointBuffer pb s)))
    with (fst (measure x y s),
          set_lastT t
            (set_pointBuffer (<[bufferIndex s := mkPoint x y]> pb)
               (snd (measure x y s)))).
  destruct (measure x y s) as [g s1]. cbn [fst snd].
  apply (for_each_unread (seqZ 0 (numCircles g + 1))).
  intros i s2. cbv zeta.
  rewrite on_ctx_unread. reflexivity.
Qed.

Lemma record_sample_unread (now : Z) (p : Point) (pb : list Point) (t : Z)
    (s : CanvasDrawer) :
  record_sample now p (set_lastT t (set_pointBuffer pb s))
  = on_fields (fun s => set_lastT t (set_pointBuffer pb s))
      (record_sample now p s).
Proof.
  unfold record_sample. cbn [canvasHistory set_lastT set_pointBuffer].
  destruct (last (canvasHistory s)) as [open_stroke|]; [| reflexivity].
  destruct (open_stroke !! 0%nat); reflexivity.
Qed.

Lemma draw_unread (document : gmap string Element) (now : Z) (p : Point)
    (pb : list Point) (t : Z) (s : CanvasDrawer) :
  exists pb',
    draw document now p (set_lastT t (set_pointBuffer pb s))
    = on_fields (fun s1 => set_lastT t (set_pointBuffer pb' s1))
        (draw document now p s).
Proof.
  unfold draw. cbn [isDrawing brushMode set_lastT set_pointBuffer].
  destruct (isDrawing s); cbn [negb]; [| now exists pb].
  destruct (brushMode s).
  - exists (<[bufferIndex s := mkPoint (px p) (py p)]> pb).
    rewrite _drawImage_unread.
    destruct (_drawImage document (px p) (py p) s) as [s1 | e s1];
      cbn [and_then on_fields]; [apply record_sample_unread | reflexivity].
  - exists pb. cbn [and_then].
    change (_drawLine (px p) (py p) (set_lastT t (set_pointBuffer pb s)))
      with (set_lastT t (set_pointBuffer pb (_drawLine (px p) (py p) s))).
    apply record_sample_unread.
Qed.

Lemma _clearCanvas_unread (pb : list Point) (t : Z) (s : CanvasDrawer) :
  _clearCanvas (set_lastT t (set_pointBuffer pb s))
  = set_lastT t (set_pointBuffer pb (_clearCanvas s)).
Proof.
  unfold _clearCanvas. cbn [showGrid set_ctx set_lastT set_pointBuffer].
  destruct (showGrid s); reflexivity.
Qed.

Lemma perform_unread (c : Call) (pb : list Point) (t : Z) (s : CanvasDrawer) :
  exists pb' t',
    perform (set_lastT t (set_pointBuffer pb s)) c
    = set_lastT t' (set_pointBuffer pb' (perform s c)).
Proof.
  destruct c; cbn [perform].
  - exists pb, t. unfold clear.
    change (set_canvasHistory [] (set_lastT t (set_pointBuffer pb s)))
      with (set_lastT t (set_pointBuffer pb (set_canvasHistory [] s))).
    apply _clearCanvas_unread.
  - exists pb, t. unfold toggleGrid.
    change (set_showGrid (negb (showGrid (set_lastT t (set_pointBuffer pb s))))
              (set_lastT t (set_pointBuffer pb s)))
      with (set_lastT t
              (set_pointBuffer pb (set_showGrid (negb (showGrid s)) s))).
    apply _clearCanvas_unread.
  - exists pb, t. now destruct enabled.
  - now exists pb, t.
  - exists (replicate (length pb) (mkPoint (px point) (py point))), now.
    reflexivity.
  - destruct (draw_unread document now point pb t s) as [pb' ->].
    exists pb', t.
    now destruct (draw document now point s).
  - now exists pb, t.
Qed.

(** X23. [pointBuffer] and [lastT] are written and never read.  Two engines
    that differ in these two fields only and receive the same calls differ
    in these two fields only afterwards: they have painted the same bitmap
    and they hold the same history, the same distances, the same cursor and
    the same last point. *)
Theorem pointBuffer_and_lastT_unread (calls : list Call) (pb : list Point)
    (t : Z) (s : CanvasDrawer) :
  (exists pb' t',
      foldl perform (set_lastT t (set_pointBuffer pb s)) calls
      = set_lastT t' (set_pointBuffer pb' (foldl perform s calls))) /\
  ctx (foldl perform (set_lastT t (set_pointBuffer pb s)) calls)
  = ctx (foldl perform s calls) /\
  canvasHistory (foldl perform (set_lastT t (set_pointBuffer pb s)) calls)
  = canvasHistory (foldl perform s calls) /\
  distanceBuffer (foldl perform (set_lastT t (set_pointBuffer pb s)) calls)
  = distanceBuffer (foldl perform s calls) /\
  bufferIndex (foldl perform (set_lastT t (set_pointBuffer pb s)) calls)
  = bufferIndex (foldl perform s calls) /\
  lastX (foldl perform (set_lastT t (set_pointBuffer pb s)) calls)
  = lastX (foldl perform s calls) /\
  lastY (foldl perform (set_lastT t (set_pointBuffer pb s)) calls)
  = lastY (foldl perform s calls).
Proof.
  assert (exists pb' t',
             foldl perform (set_lastT t (set_pointBuffer pb s)) calls
             = set_lastT t' (set_pointBuffer pb' (foldl perform s calls)))
    as (pb' & t' & E).
  { revert pb t s. induction calls as [|c calls IH]; intros pb t s.
    - now exists pb, t.
    - cbn [foldl].
      destruct (perform_unread c pb t s) as (pb1 & t1 & ->).
      apply IH. }
  split; [now exists pb', t' |].
  rewrite E. now repeat split.
Qed.

(** * Strokes and modes, again *)

(** ** [startDrawing] during a stroke *)












(** ** The filter of the brush mode *)

Lemma replay_filter (strokes : list (list Sample)) :
  forall (c : Context) (stack : list DrawingState),
    filter (fst (foldl replay_stroke (c, stack) strokes)) = filter c.
Proof.
  induction strokes as [|samples strokes IH]; intros c stack; cbn [foldl];
    [reflexivity |].
  destruct samples as [|first rest].
  - apply IH.
  - rewrite replay_stroke_paints, IH. reflexivity.
Qed.

Lemma perform_mode_filter (c : Call) (s : CanvasDrawer) (b : bool) :
  brushMode s = b ->
  filter (ctx s) = brush_filter b ->
  brushMode (perform s c)
  = match c with SetBrushMode e => e | _ => b end /\
  filter (ctx (perform s c))
  = brush_filter match c with SetBrushMode e => e | _ => b end.
Proof.
  intros Hb Hf. destruct c; cbn [perform].
  - unfold clear. rewrite _clearCanvas_filter. split; [| exact Hf].
    rewrite <- Hb.
    exact (f_equal brushMode
             (_clearCanvas_engine_fields (set_canvasHistory [] s))).
  - unfold toggleGrid. rewrite _clearCanvas_filter. split; [| exact Hf].
    rewrite <- Hb.
    exact (f_equal brushMode
             (_clearCanvas_engine_fields (set_showGrid (negb (showGrid s)) s))).
  - now destruct enabled.
  - now split.
  - now split.
  - rewrite draw_brushMode. split; [exact Hb |].
    pose proof (f_equal saved_filter
                  (draw_drawing_state document now point s)) as E.
    cbn [saved_filter drawing_state] in E. now rewrite E.
  - now split.
Qed.

(** X2. The filter of the context follows the brush mode through the calls
    of the engine.  From any state, after [setBrushMode(enabled)] and any
    further calls of [clear], [toggleGrid], [setBrushMode], [setBrushImage],
    [startDrawing], [draw] and [stopDrawing], [getBrushMode()] answers the
    argument of the latest [setBrushMode] and the filter is the one that
    call set, ["invert(1) opacity(10%)"] for [true] and
    ["invert(0) opacity(100%)"] for [false]: whatever is painted meanwhile,
    stamps and grid alike, is painted with it.  [redrawHistory] keeps the
    mode and the filter too, and the constructor leaves the filter that the
    context has. *)
Theorem brush_mode_filter (s : CanvasDrawer) (enabled : bool)
    (calls : list Call) (stack : list DrawingState) (w h : Z) (c : Context) :
  getBrushMode (foldl perform (setBrushMode enabled s) calls)
  = mode_after calls enabled /\
  filter (ctx (foldl perform (setBrushMode enabled s) calls))
  = brush_filter (mode_after calls enabled) /\
  getBrushMode (fst (redrawHistory stack s)) = getBrushMode s /\
  filter (ctx (fst (redrawHistory stack s))) = filter (ctx s) /\
  filter (ctx (_init (initial_fields w h c))) = filter c.
Proof.
  unfold getBrushMode.
  assert (forall s0 b,
             brushMode s0 = b -> filter (ctx s0) = brush_filter b ->
             brushMode (foldl perform s0 calls) = mode_after calls b /\
             filter (ctx (foldl perform s0 calls))
             = brush_filter (mode_after calls b)) as Hrun.
  { unfold mode_after.
    induction calls as [|c0 calls IH]; intros s0 b Hb Hf; cbn [foldl].
    - now split.
    - destruct (perform_mode_filter c0 s0 b Hb Hf) as [H1 H2].
      now apply IH. }
  destruct (Hrun (setBrushMode enabled s) enabled) as [H1 H2];
    try (now destruct enabled).
  split; [exact H1 |]. split; [exact H2 |].
  split; [| split].
  - exact (f_equal brushMode (_clearCanvas_engine_fields s)).
  - unfold redrawHistory. cbn [fst ctx set_ctx].
    now rewrite replay_filter, _clearCanvas_filter.
  - change (_init (initial_fields w h c))
      with (_drawGrid
              (set_ctx
                 (set_lineJoin "round"
                    (set_lineCap "round"
                       (set_lineWidth 2 (set_strokeStyle "#fff" c))))
                 (initial_fields w h c))).
    match goal with
    | |- filter (ctx (_drawGrid ?s1)) = _ =>
        destruct (_drawGrid_paints s1) as [_ H]
    end.
    exact (f_equal saved_filter H).
Qed.
